(** * background_installer.py: daemon lifecycle and batch scheduling engine

    A shallow embedding of [background_installer.py] and the properties of
    its scheduler ([main_installation], [install_batch], [uninstall_batch])
    and of its lock-file commands ([check_existing_process], [stop_process],
    the [status] command).

    Python code with side effects is written in a state-and-exception monad
    [M S A]: a computation takes the state of the outside world, returns a
    value or raises, and leaves a new state.  As in Python, the effects done
    before an exception is raised stay done. *)

From Stdlib Require Import ZArith List String Ascii Bool Lia Permutation.
Import ListNotations.
Open Scope string_scope.
Open Scope list_scope.
Open Scope Z_scope.

(** ** Python values, exceptions and the effect monad *)

Module Py.

(** The exception classes the program can meet.  All of them derive from
    [Exception], so [except Exception] and a bare [except:] catch each. *)
Inductive Exc : Type :=
| TimeoutExpired   (* subprocess.TimeoutExpired *)
| OSError          (* OSError and its subclasses: ProcessLookupError, ... *)
| ValueError
| OverflowError
| OtherException.

Inductive Result (A : Type) : Type :=
| Ok (a : A)
| Raise (e : Exc)
| OutOfFuel.        (* only a loop of the model can produce it, see [while_loop] *)

Arguments Ok {A} a.
Arguments Raise {A} e.
Arguments OutOfFuel {A}.

Definition M (S A : Type) : Type := S -> Result A * S.

Definition ret {S A} (a : A) : M S A := fun s => (Ok a, s).

Definition raise {S A} (e : Exc) : M S A := fun s => (Raise e, s).

Definition bind {S A B} (m : M S A) (k : A -> M S B) : M S B :=
  fun s =>
    match m s with
    | (Ok a, s') => k a s'
    | (Raise e, s') => (Raise e, s')
    | (OutOfFuel, s') => (OutOfFuel, s')
    end.

(** [try: m  except ...: handler e].  [handler e = None] stands for an
    exception no [except] clause matches: it propagates. *)
Definition try_except {S A} (m : M S A) (handler : Exc -> option (M S A)) : M S A :=
  fun s =>
    match m s with
    | (Raise e, s') =>
        match handler e with
        | Some h => h s'
        | None => (Raise e, s')
        end
    | r => r
    end.

Definition gets {S A} (f : S -> A) : M S A := fun s => (Ok (f s), s).

Definition modify {S} (f : S -> S) : M S unit := fun s => (Ok tt, f s).

Definition when {S} (b : bool) (m : M S unit) : M S unit :=
  if b then m else ret tt.

(** *** [str.strip()] and [int(str)] *)

(** Whitespace as [str.strip] and [int] see it, on the ASCII range. *)
Definition is_space (c : ascii) : bool :=
  let n := nat_of_ascii c in
  ((9 <=? n) && (n <=? 13) || (28 <=? n) && (n <=? 32))%nat.

Fixpoint lstrip (s : string) : string :=
  match s with
  | String c r => if is_space c then lstrip r else s
  | EmptyString => EmptyString
  end.

Fixpoint rstrip (s : string) : string :=
  match s with
  | String c r =>
      match rstrip r with
      | EmptyString => if is_space c then EmptyString else String c EmptyString
      | r' => String c r'
      end
  | EmptyString => EmptyString
  end.

Definition strip (s : string) : string := rstrip (lstrip s).

Definition digit_of (c : ascii) : option Z :=
  let n := nat_of_ascii c in
  if ((48 <=? n) && (n <=? 57))%nat then Some (Z.of_nat n - 48) else None.

(** Decimal digits, single underscores allowed between two digits. *)
Fixpoint digits_value (s : string) (acc : Z) (after_digit : bool) : option Z :=
  match s with
  | EmptyString => if after_digit then Some acc else None
  | String c r =>
      match digit_of c with
      | Some d => digits_value r (10 * acc + d) true
      | None =>
          if Ascii.eqb c "_" && after_digit then
            match r with
            | EmptyString => None
            | _ => digits_value r acc false
            end
          else None
      end
  end.

(** [int(s)] for a text [s]: surrounding whitespace, an optional sign and a
    decimal literal; [None] is [ValueError]. *)
Definition parse_int (s : string) : option Z :=
  match strip s with
  | String "+" r => digits_value r 0 false
  | String "-" r => option_map Z.opp (digits_value r 0 false)
  | t => digits_value t 0 false
  end.

Definition int {S} (s : string) : M S Z :=
  match parse_int s with
  | Some n => ret n
  | None => raise ValueError
  end.

(** A text is given by its bytes.  On ASCII text, [strip] and [parse_int]
    are what [str.strip] and [int] compute.  Beyond ASCII, Python also
    strips the other white space of Unicode (U+00A0, U+0085, ...) and reads
    the other decimal digits; and [int] raises [ValueError] on a literal of
    more than 4300 digits.  [plain] texts are those on which the model is
    exact: ASCII only, and not longer than that limit. *)
Fixpoint ascii_only (s : string) : bool :=
  match s with
  | EmptyString => true
  | String c r => (nat_of_ascii c <? 128)%nat && ascii_only r
  end.

Definition plain (s : string) : bool :=
  ascii_only s && (Z.of_nat (String.length s) <=? 4300).

End Py.

Export Py.

Declare Scope py_scope.
Delimit Scope py_scope with py.
Notation "x <- m ;; k" := (bind m (fun x => k))
  (at level 61, m at next level, right associativity) : py_scope.
Notation "m ;; k" := (bind m (fun _ => k))
  (at level 61, right associativity) : py_scope.
Open Scope py_scope.

(** ** The batch scheduler (the daemon process) *)

Module Scheduler.

(** [ALL_USEFUL_APPS] *)
Definition ALL_USEFUL_APPS : list string :=
  [ "htop"; "neofetch"; "btop"; "glances"; "nmon";
    "bashtop"; "ncdu"; "ranger"; "mc"; "tree";
    "fdupes"; "dust"; "duf"; "inxi"; "hardinfo";
    "lshw"; "screenfetch"; "aptitude"; "synaptic"; "gdebi";
    "snapd"; "flatpak"; "zsh"; "fish"; "powerline";
    "fonts-powerline"; "terminator"; "guake"; "tilix"; "alacritty";
    "kitty"; "tmux"; "byobu"; "screen"; "expect";
    "vim"; "neovim"; "emacs"; "nano"; "micro";
    "gedit"; "code"; "geany"; "bluefish"; "rsync";
    "unzip"; "p7zip-full"; "rar"; "unar"; "filezilla";
    "lftp"; "sshfs"; "curlftpfs"; "ntfs-3g"; "exfat-utils";
    "hfsprogs"; "nmap"; "wireshark"; "tcpdump"; "net-tools";
    "netcat"; "socat"; "nethogs"; "iftop"; "bmon";
    "vnstat"; "iperf3"; "speedtest-cli"; "openssh-server"; "mosh";
    "wireguard-tools"; "openvpn"; "build-essential"; "cmake"; "autoconf";
    "automake"; "libtool"; "pkg-config"; "checkinstall"; "gcc";
    "g++"; "clang"; "gdb"; "valgrind"; "python3";
    "python3-pip"; "python3-venv"; "python3-dev"; "python-is-python3"; "nodejs";
    "npm"; "default-jdk"; "openjdk-17-jdk"; "ruby"; "perl";
    "php"; "golang"; "rustc"; "cargo"; "git";
    "gitk"; "tig"; "subversion"; "apache2"; "nginx";
    "mysql-server"; "postgresql"; "sqlite3"; "sqlitebrowser"; "redis-server";
    "mariadb-server"; "phpmyadmin"; "docker.io"; "docker-compose"; "ansible";
    "terraform"; "awscli"; "azure-cli"; "kubernetes-client"; "gimp";
    "inkscape"; "krita"; "blender"; "darktable"; "rawtherapee";
    "digikam"; "shotwell"; "vlc"; "ffmpeg"; "handbrake";
    "audacity"; "obs-studio"; "kdenlive"; "openshot"; "shotcut";
    "mpv"; "clementine"; "rhythmbox"; "strawberry"; "libreoffice";
    "thunderbird"; "evolution"; "evince"; "okular"; "calibre";
    "fcitx"; "ibus"; "fail2ban"; "clamav"; "clamtk";
    "rkhunter"; "chkrootkit"; "lynis"; "ufw"; "gufw";
    "keepassxc"; "gnupg"; "seahorse"; "octave"; "scilab";
    "maxima"; "geogebra"; "stellarium"; "atomix"; "steam";
    "lutris"; "wine"; "dosbox"; "mame"; "retroarch";
    "minetest"; "supertuxkart"; "virtualbox"; "qemu-kvm"; "libvirt-daemon-system";
    "virt-manager"; "gnome-boxes"; "cron"; "logwatch"; "rsyslog";
    "smartmontools"; "testdisk"; "gparted"; "baobab"; "hwinfo";
    "dmidecode"; "mesa-utils"; "vulkan-tools"; "stress"; "stress-ng";
    "cmatrix"; "figlet"; "lolcat"; "cowsay"; "fortune";
    "sl"; "bb"; "hollywood"; "pipes.sh"; "tty-clock";
    "firefox"; "chromium-browser"; "opera"; "epiphany-browser"; "falkon";
    "discord"; "slack"; "telegram-desktop"; "signal-desktop"; "pidgin";
    "hexchat"; "transmission"; "qbittorrent"; "deluge"; "dropbox";
    "nextcloud-client"; "syncthing"; "bleachbit"; "stacer"; "ubuntu-cleaner";
    "man-db"; "manpages"; "manpages-dev"; "info"; "texinfo";
    "bash-completion"; "command-not-found"; "software-properties-common"; "ubuntu-drivers-common"; "pptp-linux";
    "network-manager-pptp"; "mtr"; "hdparm"; "lm-sensors"; "psensor";
    "conky"; "variety"; "shutter"; "kazam"; "cheese";
    "gtk-recordmydesktop"; "x11vnc"; "vinagre"; "remmina"; "freerdp2-x11";
    "guvcview"; "arc-theme"; "papirus-icon-theme"; "fonts-firacode"; "fonts-hack";
    "fonts-noto"; "fonts-liberation"; "fonts-dejavu"; "fonts-ubuntu"; "fonts-roboto";
    "ttf-mscorefonts-installer" ].

(** *** The world the daemon runs in *)

Inductive Level : Type := INFO | WARNING | ERROR.

(** The lines the daemon logs, one constructor per [logger] call of the
    source, with the values its f-string interpolates. *)
Inductive LogMsg : Type :=
| ReceivedSignal (signum : Z)
| UpdatingSystem
| SystemUpdated
| UpdateHadIssues (stderr : string)
| UpdateTimedOut
| UpdateError (e : Exc)
| InstallingBatch (batch_num : Z) (total_batches : string) (n : Z)
| BatchInstalled (batch_num : Z)
| BatchInstallIssues (batch_num : Z)
| FailedToInstall (app : string)
| TimeoutInstalling (app : string)
| IndividualInstalls (success_count n : Z)
| BatchInstallTimedOut (batch_num : Z)
| BatchInstallError (batch_num : Z) (e : Exc)
| UninstallingBatch (batch_num : Z) (total_batches : string) (n : Z)
| BatchUninstalled (batch_num : Z)
| BatchUninstallIssues (batch_num : Z)
| BatchUninstallTimedOut (batch_num : Z)
| BatchUninstallError (batch_num : Z) (e : Exc)
| PerformingCleanup
| CleanupCompleted
| CleanupHadIssues
| Rule (width : Z)
| InstallerStarted
| StartTime (now : Z)
| UpdateFailedContinuing
| TotalAppsToProcess (total_apps : Z)
| ShutdownAfterCurrentBatch
| StartingBatch (batch_number : Z)
| BatchSize (batch_size : Z)
| ProgressSoFar (processed_apps total_apps : Z)
| SelectedApps (batch_apps : list string)
| InstallationCompleted (batch_number : Z)
| InstallationHadIssues (batch_number : Z)
| ShutdownStopping
| WaitingBeforeUninstall (delay_minutes : Z)
| UninstallationCompleted (batch_number : Z)
| UninstallationHadIssues (batch_number : Z)
| WaitingBeforeNextBatch (minutes : Z)
| StoppedByUser
| AllBatchesCompleted
| TotalBatchesProcessed (batch_number : Z)
| TotalAppsProcessed (processed_apps : Z)
| StoppedGracefully
| CompletedSuccessfully
| EndTime (now : Z).

(** What the daemon does to the outside, in the order it does it. *)
Inductive Event : Type :=
| Run (argv : list string) (timeout : Z)     (* subprocess.run(argv, timeout=...) *)
| Sleep (seconds : Z)                        (* time.sleep(seconds) *)
| Log (level : Level) (msg : LogMsg).

(** How one [subprocess.run] call ends, and how long it took. *)
Inductive Outcome : Type :=
| Exited (returncode : Z) (stderr : string)
| Failed (e : Exc).

Record Report : Type := mkReport { outcome : Outcome; elapsed : nat }.

(** The state of the world: a clock in seconds, the global [shutdown_flag],
    the termination signal still on its way (arrival time and number), the
    random source of the [random] module, the package manager (the report of
    its n-th invocation) and the trace of what was done so far. *)
Record World : Type := mkWorld {
  clock : Z;
  shutdown_flag : bool;
  signal_at : option (Z * Z);
  entropy : nat -> nat;
  draws : nat;
  apt : nat -> Report;
  calls : nat;
  trace : list Event
}.

Definition emit (e : Event) : M World unit :=
  modify (fun w => mkWorld (clock w) (shutdown_flag w) (signal_at w)
                     (entropy w) (draws w) (apt w) (calls w) (trace w ++ [e])).

Definition log (level : Level) (msg : LogMsg) : M World unit := emit (Log level msg).

Definition set_shutdown_flag (b : bool) : M World unit :=
  modify (fun w => mkWorld (clock w) b (signal_at w)
                     (entropy w) (draws w) (apt w) (calls w) (trace w)).

(** [signal_handler(signum, frame)] *)
Definition signal_handler (signum : Z) : M World unit :=
  log INFO (ReceivedSignal signum) ;;
  set_shutdown_flag true.

(** Time passes by [d] seconds; a signal that arrives meanwhile runs
    [signal_handler] (the handlers are installed by [daemonize] before the
    scheduler starts), and the interrupted call then resumes. *)
Definition elapse (d : Z) : M World unit :=
  fun w =>
    let now := clock w + d in
    let w1 := mkWorld now (shutdown_flag w) (signal_at w)
                (entropy w) (draws w) (apt w) (calls w) (trace w) in
    match signal_at w with
    | Some (t, signum) =>
        if t <=? now then
          signal_handler signum
            (mkWorld now (shutdown_flag w) None
               (entropy w) (draws w) (apt w) (calls w) (trace w))
        else (Ok tt, w1)
    | None => (Ok tt, w1)
    end.

(** [time.sleep(seconds)] *)
Definition time_sleep (seconds : Z) : M World unit :=
  emit (Sleep seconds) ;;
  elapse seconds.

(** [subprocess.run(argv, timeout=timeout, capture_output=True)]: the
    package manager decides how the call ends. *)
Definition subprocess_run (argv : list string) (timeout : Z) : M World (Z * string) :=
  rep <- gets (fun w => apt w (calls w)) ;;
  emit (Run argv timeout) ;;
  modify (fun w => mkWorld (clock w) (shutdown_flag w) (signal_at w)
                     (entropy w) (draws w) (apt w) (S (calls w)) (trace w)) ;;
  elapse (Z.of_nat (elapsed rep)) ;;
  match outcome rep with
  | Exited returncode stderr => ret (returncode, stderr)
  | Failed e => raise e
  end.

(** The next raw value of the random source. *)
Definition draw : M World nat :=
  r <- gets (fun w => entropy w (draws w)) ;;
  modify (fun w => mkWorld (clock w) (shutdown_flag w) (signal_at w)
                     (entropy w) (S (draws w)) (apt w) (calls w) (trace w)) ;;
  ret r.

(** [random.randint(a, b)]: some integer of [a..b]; the random source
    chooses which, and it can choose each of them. *)
Definition randint (a b : Z) : M World Z :=
  if b <? a then raise ValueError
  else r <- draw ;; ret (a + Z.of_nat r mod (b - a + 1)).

Fixpoint remove_nth {A} (i : nat) (l : list A) : list A :=
  match l, i with
  | [], _ => []
  | _ :: r, O => r
  | x :: r, S j => x :: remove_nth j r
  end.

Fixpoint sample_from (k : nat) (pool : list string) : M World (list string) :=
  match k with
  | O => ret []
  | S k' =>
      match pool with
      | [] => ret []
      | _ :: _ =>
          r <- draw ;;
          let i := (r mod List.length pool)%nat in
          rest <- sample_from k' (remove_nth i pool) ;;
          ret (nth i pool EmptyString :: rest)
      end
  end.

(** [random.sample(population, k)]: [k] elements at distinct positions,
    chosen one after the other by the random source; [ValueError] for a [k]
    that is negative or larger than the population. *)
Definition random_sample (population : list string) (k : Z) : M World (list string) :=
  if (k <? 0) || (Z.of_nat (List.length population) <? k) then raise ValueError
  else sample_from (Z.to_nat k) population.

Definition len {A} (l : list A) : Z := Z.of_nat (List.length l).

(** *** The package operations *)

(** [update_system(logger)] *)
Definition update_system : M World bool :=
  log INFO UpdatingSystem ;;
  try_except
    (result <- subprocess_run ["apt"; "update"] 300 ;;
     if fst result =? 0 then
       log INFO SystemUpdated ;;
       ret true
     else
       log WARNING (UpdateHadIssues (substring 0 200 (snd result))) ;;
       ret true)
    (fun e =>
       match e with
       | TimeoutExpired => Some (log ERROR UpdateTimedOut ;; ret false)
       | _ => Some (log ERROR (UpdateError e) ;; ret false)
       end).

(** The [for app in apps_list] loop of [install_batch]; [success_count] is
    the counter it updates. *)
Fixpoint install_each (apps_list : list string) (success_count : Z) : M World Z :=
  match apps_list with
  | [] => ret success_count
  | app :: rest =>
      success_count' <-
        try_except
          (app_result <- subprocess_run ["apt"; "install"; "-y"; app] 300 ;;
           if fst app_result =? 0 then ret (success_count + 1)
           else
             log WARNING (FailedToInstall app) ;;
             ret success_count)
          (fun _ => Some (log WARNING (TimeoutInstalling app) ;; ret success_count)) ;;
      install_each rest success_count'
  end.

(** [install_batch(apps_list, batch_num, total_batches, logger)] *)
Definition install_batch (apps_list : list string) (batch_num : Z)
    (total_batches : string) : M World bool :=
  log INFO (InstallingBatch batch_num total_batches (len apps_list)) ;;
  try_except
    (result <- subprocess_run (["apt"; "install"; "-y"] ++ apps_list) 900 ;;
     if fst result =? 0 then
       log INFO (BatchInstalled batch_num) ;;
       ret true
     else
       log WARNING (BatchInstallIssues batch_num) ;;
       success_count <- install_each apps_list 0 ;;
       log INFO (IndividualInstalls success_count (len apps_list)) ;;
       ret (0 <? success_count))
    (fun e =>
       match e with
       | TimeoutExpired => Some (log ERROR (BatchInstallTimedOut batch_num) ;; ret false)
       | _ => Some (log ERROR (BatchInstallError batch_num e) ;; ret false)
       end).

(** The [for app in apps_list] loop of [uninstall_batch]: no [try] of its
    own, no counter. *)
Fixpoint uninstall_each (apps_list : list string) : M World unit :=
  match apps_list with
  | [] => ret tt
  | app :: rest =>
      subprocess_run ["apt"; "remove"; "-y"; app] 180 ;;
      uninstall_each rest
  end.

(** [uninstall_batch(apps_list, batch_num, total_batches, logger)] *)
Definition uninstall_batch (apps_list : list string) (batch_num : Z)
    (total_batches : string) : M World bool :=
  log INFO (UninstallingBatch batch_num total_batches (len apps_list)) ;;
  try_except
    (result <- subprocess_run (["apt"; "remove"; "-y"] ++ apps_list) 600 ;;
     if fst result =? 0 then
       log INFO (BatchUninstalled batch_num) ;;
       ret true
     else
       log WARNING (BatchUninstallIssues batch_num) ;;
       uninstall_each apps_list ;;
       ret true)
    (fun e =>
       match e with
       | TimeoutExpired => Some (log ERROR (BatchUninstallTimedOut batch_num) ;; ret false)
       | _ => Some (log ERROR (BatchUninstallError batch_num e) ;; ret false)
       end).

(** [cleanup_system(logger)] *)
Definition cleanup_system : M World unit :=
  log INFO PerformingCleanup ;;
  try_except
    (subprocess_run ["apt"; "autoremove"; "-y"] 300 ;;
     subprocess_run ["apt"; "autoclean"] 180 ;;
     log INFO CleanupCompleted)
    (fun _ => Some (log WARNING CleanupHadIssues)).

(** *** [main_installation] *)

(** [for _ in range(n): if shutdown_flag: break; time.sleep(10)], the loop
    both waits of [main_installation] are written as. *)
Fixpoint tick_wait (n : nat) : M World unit :=
  match n with
  | O => ret tt
  | S n' =>
      stop <- gets shutdown_flag ;;
      if stop then ret tt
      else
        time_sleep 10 ;;
        tick_wait n'
  end.

(** [range(n)] runs [n] times, and not at all for [n <= 0]. *)
Definition range (n : Z) : nat := Z.to_nat n.

(** The loop variables of [main_installation]. *)
Record Progress : Type := mkProgress {
  processed_apps : Z;
  batch_number : Z
}.

(** How one pass through the body of the [while] loop ends: at a [break],
    or at the end of the body. *)
Inductive Ctl : Type :=
| Break (p : Progress)
| Next (p : Progress).

(** The body of [while processed_apps < total_apps and not shutdown_flag]
    is cut at the phases of the scheduler.  First the lines up to the check
    before the delay: the batch is drawn and installed.  [None] is a [break];
    otherwise the batch size and the batch go on to the next phase. *)
Definition install_phase (total_apps : Z) (p : Progress)
    : M World (option (Z * list string)) :=
  let processed_apps := processed_apps p in
  let batch_number := batch_number p + 1 in
  stop <- gets shutdown_flag ;;
  if stop then
    log INFO ShutdownAfterCurrentBatch ;;
    ret None
  else
    drawn <- randint 5 14 ;;
    let batch_size :=
      if total_apps <? processed_apps + drawn then total_apps - processed_apps
      else drawn in
    batch_apps <- random_sample ALL_USEFUL_APPS (Z.min batch_size (len ALL_USEFUL_APPS)) ;;
    log INFO (Rule 50) ;;
    log INFO (StartingBatch batch_number) ;;
    log INFO (BatchSize batch_size) ;;
    log INFO (ProgressSoFar processed_apps total_apps) ;;
    log INFO (SelectedApps batch_apps) ;;
    installed <- install_batch batch_apps batch_number "unknown" ;;
    (if installed then log INFO (InstallationCompleted batch_number)
     else log WARNING (InstallationHadIssues batch_number)) ;;
    stop <- gets shutdown_flag ;;
    if stop then
      log INFO ShutdownStopping ;;
      ret None
    else ret (Some (batch_size, batch_apps)).

(** The delay between install and uninstall, broken into chunks. *)
Definition waiting_phase : M World unit :=
  delay_minutes <- randint 7 16 ;;
  jitter <- randint 0 59 ;;
  let delay_seconds := delay_minutes * 60 + jitter in
  log INFO (WaitingBeforeUninstall delay_minutes) ;;
  tick_wait (range (delay_seconds / 10)).

(** The delay before the next batch; [processed_apps] is the updated count. *)
Definition pause_phase (total_apps processed_apps : Z) : M World unit :=
  stop <- gets shutdown_flag ;;
  when ((processed_apps <? total_apps) && negb stop)
    (next_delay <- randint 60 180 ;;
     log INFO (WaitingBeforeNextBatch (next_delay / 60)) ;;
     tick_wait (range (next_delay / 10))).

(** The lines after the delay: the batch is uninstalled and counted. *)
Definition uninstall_phase (total_apps : Z) (p : Progress)
    (batch_size : Z) (batch_apps : list string) : M World Progress :=
  let batch_number := batch_number p + 1 in
  uninstalled <- uninstall_batch batch_apps batch_number "unknown" ;;
  (if uninstalled then log INFO (UninstallationCompleted batch_number)
   else log WARNING (UninstallationHadIssues batch_number)) ;;
  let processed_apps := processed_apps p + batch_size in
  pause_phase total_apps processed_apps ;;
  stop <- gets shutdown_flag ;;
  when ((batch_number mod 5 =? 0) && negb stop) cleanup_system ;;
  ret (mkProgress processed_apps batch_number).

Definition loop_body (total_apps : Z) (p : Progress) : M World Ctl :=
  let stopped := Break (mkProgress (processed_apps p) (batch_number p + 1)) in
  batch <- install_phase total_apps p ;;
  match batch with
  | None => ret stopped
  | Some (batch_size, batch_apps) =>
      waiting_phase ;;
      stop <- gets shutdown_flag ;;
      if stop then
        log INFO ShutdownStopping ;;
        ret stopped
      else
        p' <- uninstall_phase total_apps p batch_size batch_apps ;;
        ret (Next p')
  end.

(** The [while] loop.  [fuel] bounds the number of passes; it is the model's
    only source of [OutOfFuel]. *)
Fixpoint while_loop (fuel : nat) (total_apps : Z) (p : Progress) : M World Progress :=
  match fuel with
  | O => fun w => (OutOfFuel, w)
  | S fuel' =>
      stop <- gets shutdown_flag ;;
      if (processed_apps p <? total_apps) && negb stop then
        c <- loop_body total_apps p ;;
        match c with
        | Break p' => ret p'
        | Next p' => while_loop fuel' total_apps p'
        end
      else ret p
  end.

(** The two ways a run ends, as the closing lines of the log tell them. *)
Inductive Ending : Type := Completed | Stopped.

(** What [main_installation] knows when it returns: its local variables and
    the two endings it logged (the banner, then the last message). *)
Record Summary : Type := mkSummary {
  total_apps : Z;
  progress : Progress;
  banner : Ending;
  farewell : Ending
}.

(** [main_installation()] up to the loop: the system is updated and the
    quota is drawn.  ([setup_logging()] only opens the log file; what is
    logged is kept in the trace.) *)
Definition startup : M World Z :=
  log INFO (Rule 60) ;;
  log INFO InstallerStarted ;;
  now <- gets clock ;;
  log INFO (StartTime now) ;;
  log INFO (Rule 60) ;;
  updated <- update_system ;;
  when (negb updated) (log WARNING UpdateFailedContinuing) ;;
  total_apps <- randint 161 199 ;;
  log INFO (TotalAppsToProcess total_apps) ;;
  ret total_apps.

(** [main_installation()] after the loop: the final cleanup and the closing
    lines of the log. *)
Definition wind_up (total_apps : Z) (p : Progress) : M World Summary :=
  log INFO (Rule 50) ;;
  stop <- gets shutdown_flag ;;
  (if stop then log INFO StoppedByUser else log INFO AllBatchesCompleted) ;;
  log INFO (TotalBatchesProcessed (batch_number p)) ;;
  log INFO (TotalAppsProcessed (processed_apps p)) ;;
  cleanup_system ;;
  stop' <- gets shutdown_flag ;;
  (if stop' then log INFO StoppedGracefully else log INFO CompletedSuccessfully) ;;
  now <- gets clock ;;
  log INFO (EndTime now) ;;
  log INFO (Rule 60) ;;
  ret (mkSummary total_apps p
         (if stop then Stopped else Completed)
         (if stop' then Stopped else Completed)).

(** The loop and what follows it, from the loop variables [p]. *)
Definition schedule (fuel : nat) (total_apps : Z) (p : Progress) : M World Summary :=
  p' <- while_loop fuel total_apps p ;;
  wind_up total_apps p'.

(** [main_installation()].  Every pass of the loop that does not [break]
    adds at least one to [processed_apps], so [total_apps + 1] passes are
    enough fuel. *)
Definition main_installation : M World Summary :=
  total_apps <- startup ;;
  schedule (S (Z.to_nat total_apps)) total_apps (mkProgress 0 0).

(** *** The mirror image of [install_batch] *)

(** What [uninstall_batch] would be as the mirror of [install_batch]: the
    same shape with the remove operation and the timeouts of the uninstall
    phase, every per-item attempt under its own [try], the successes
    counted.  It is compared with [uninstall_batch] below. *)
Fixpoint mirror_uninstall_each (apps_list : list string) (success_count : Z) : M World Z :=
  match apps_list with
  | [] => ret success_count
  | app :: rest =>
      success_count' <-
        try_except
          (app_result <- subprocess_run ["apt"; "remove"; "-y"; app] 180 ;;
           if fst app_result =? 0 then ret (success_count + 1)
           else ret success_count)
          (fun _ => Some (ret success_count)) ;;
      mirror_uninstall_each rest success_count'
  end.

Definition mirror_uninstall_batch (apps_list : list string) (batch_num : Z)
    (total_batches : string) : M World bool :=
  log INFO (UninstallingBatch batch_num total_batches (len apps_list)) ;;
  try_except
    (result <- subprocess_run (["apt"; "remove"; "-y"] ++ apps_list) 600 ;;
     if fst result =? 0 then
       log INFO (BatchUninstalled batch_num) ;;
       ret true
     else
       log WARNING (BatchUninstallIssues batch_num) ;;
       success_count <- mirror_uninstall_each apps_list 0 ;;
       ret (0 <? success_count))
    (fun e =>
       match e with
       | TimeoutExpired => Some (log ERROR (BatchUninstallTimedOut batch_num) ;; ret false)
       | _ => Some (log ERROR (BatchUninstallError batch_num e) ;; ret false)
       end).

(** *** What a trace tells *)

(** The sizes of the batches drawn, from the "Batch size" lines. *)
Definition size_of (e : Event) : list Z :=
  match e with
  | Log _ (BatchSize n) => [n]
  | _ => []
  end.

Definition batch_sizes (t : list Event) : list Z := flat_map size_of t.

(** The batches drawn, from the "Selected apps" lines. *)
Definition selection_of (e : Event) : list (list string) :=
  match e with
  | Log _ (SelectedApps apps) => [apps]
  | _ => []
  end.

Definition selections (t : list Event) : list (list string) := flat_map selection_of t.

(** The package-manager invocations. *)
Definition command_of (e : Event) : list (list string * Z) :=
  match e with
  | Run argv timeout => [(argv, timeout)]
  | _ => []
  end.

Definition commands (t : list Event) : list (list string * Z) := flat_map command_of t.

(** The seconds slept. *)
Definition slept_of (e : Event) : Z :=
  match e with
  | Sleep seconds => seconds
  | _ => 0
  end.

Definition slept (t : list Event) : Z := fold_right (fun e acc => slept_of e + acc) 0 t.

Definition sum (l : list Z) : Z := fold_right Z.add 0 l.

(** Any event but the announcement of a batch. *)
Definition op_event (e : Event) : Prop :=
  match e with
  | Log _ (BatchSize _) | Log _ (SelectedApps _) => False
  | _ => True
  end.

(** Sleeping and logging only: no package-manager invocation. *)
Definition idle_event (e : Event) : Prop :=
  match e with
  | Run _ _ | Log _ (BatchSize _) | Log _ (SelectedApps _) => False
  | _ => True
  end.

(** Anything but [apt remove ...]. *)
Definition no_uninstall (e : Event) : Prop :=
  match e with
  | Run ("apt" :: "remove" :: _) _ => False
  | _ => True
  end.

(** Ticks of ten seconds and log lines. *)
Definition tick_event (e : Event) : Prop :=
  match e with
  | Sleep seconds => seconds = 10
  | Log _ _ => True
  | Run _ _ => False
  end.

(** No termination signal arrives up to the time [until]. *)
Definition undisturbed (w : World) (until : Z) : Prop :=
  match signal_at w with
  | Some (t, _) => until < t
  | None => True
  end.

(** *** Specifications *)

(** [m] returns normally with a value in [Q], what it adds to the trace is
    in [P], and it leaves a set [shutdown_flag] set. *)
Definition emits {A} (P : Event -> Prop) (Q : A -> Prop) (m : M World A) : Prop :=
  forall w, exists a w' d,
    m w = (Ok a, w') /\ Q a /\ trace w' = trace w ++ d /\ Forall P d /\
    (shutdown_flag w = true -> shutdown_flag w' = true).

(** The same, but [m] may also raise. *)
Definition raises {A} (P : Event -> Prop) (Q : A -> Prop) (m : M World A) : Prop :=
  forall w, exists r w' d,
    m w = (r, w') /\
    match r with Ok a => Q a | Raise _ => True | OutOfFuel => False end /\
    trace w' = trace w ++ d /\ Forall P d /\
    (shutdown_flag w = true -> shutdown_flag w' = true).

Definition any {A} : A -> Prop := fun _ => True.

(** The sizes a run may draw from [processed] on: batches of 5 to 14 that fit
    the quota, and possibly a last one, cut to what is left of it. *)
Inductive batches (total : Z) : Z -> list Z -> Prop :=
| batches_none processed : batches total processed []
| batches_full processed size rest :
    5 <= size <= 14 -> processed + size <= total ->
    batches total (processed + size) rest ->
    batches total processed (size :: rest)
| batches_last processed size :
    1 <= size <= 14 -> processed + size = total ->
    batches total processed [size].

(** Does the package manager's [i]-th invocation exit with code 0? *)
Definition exits_zero (w : World) (i : nat) : bool :=
  match outcome (apt w i) with
  | Exited returncode _ => returncode =? 0
  | Failed _ => false
  end.

(** How many of the [n] invocations from the [i]-th on exit with code 0. *)
Fixpoint count_ok (w : World) (i n : nat) : Z :=
  match n with
  | O => 0
  | S n' => (if exits_zero w i then 1 else 0) + count_ok w (S i) n'
  end.

(** Does the [i]-th invocation end at all, rather than raise? *)
Definition returns (w : World) (i : nat) : bool :=
  match outcome (apt w i) with
  | Exited _ _ => true
  | Failed _ => false
  end.

(** Do the [n] invocations from the [i]-th on all end, none raising? *)
Fixpoint all_return (w : World) (i n : nat) : bool :=
  match n with
  | O => true
  | S n' => returns w i && all_return w (S i) n'
  end.

(** How many of [n] invocations in a row are made, from the [i]-th on, when
    the first one that raises ends the row. *)
Fixpoint attempts (w : World) (i n : nat) : nat :=
  match n with
  | O => O
  | S n' => if returns w i then S (attempts w (S i) n') else 1%nat
  end.

(** The command lines of the two phases. *)
Definition install_all (apps_list : list string) : list string * Z :=
  (["apt"; "install"; "-y"] ++ apps_list, 900).

Definition install_one (app : string) : list string * Z :=
  (["apt"; "install"; "-y"; app], 300).

Definition remove_all (apps_list : list string) : list string * Z :=
  (["apt"; "remove"; "-y"] ++ apps_list, 600).

Definition remove_one (app : string) : list string * Z :=
  (["apt"; "remove"; "-y"; app], 180).

(** *** Some worlds *)

(** A world at time 0 with nothing done yet. *)
Definition world (signal : option (Z * Z)) (rnd : nat -> nat) (pm : nat -> Report) : World :=
  mkWorld 0 false signal rnd 0 pm 0 [].

(** The package manager that always succeeds, in [secs] seconds. *)
Definition apt_ok (secs : nat) : nat -> Report :=
  fun _ => mkReport (Exited 0 EmptyString) secs.

(** The package manager whose every call times out. *)
Definition apt_timeout : nat -> Report :=
  fun _ => mkReport (Failed TimeoutExpired) 900.

(** The package manager that always reports a failure. *)
Definition apt_broken : nat -> Report :=
  fun _ => mkReport (Exited 100 "E: Unable to locate package") 1.

(** A reported failure, then a call that times out, then successes. *)
Definition apt_stuck_once : nat -> Report :=
  fun i =>
    match i with
    | O => mkReport (Exited 100 EmptyString) 1
    | S O => mkReport (Failed TimeoutExpired) 180
    | _ => mkReport (Exited 0 EmptyString) 1
    end.


End Scheduler.

(** ** The lock-file commands (the command-line process) *)

Module Guard.

Definition pid_file : string := "/tmp/background_batch_installer.pid".
Definition log_file : string := "/tmp/background_batch_installer.log".

Definition SIGTERM : Z := 15.
Definition SIGKILL : Z := 9.

(** What the commands print, one constructor per [print] call. *)
Inductive OutMsg : Type :=
| AnotherInstanceRunning (pid : Z)
| CheckLogFile (path : string)
| IfNotRunningRemove (path : string)
| SentStopSignal (pid : Z)
| StillRunningSendingKill
| StoppedSuccessfully
| InvalidPidFile
| ErrorStopping (e : Exc)
| NoProcessRunning
| StoppingBackgroundProcess
| BackgroundRunning
| BackgroundNotRunning
| LogFileIs (path : string)
| LastLinesOfLog
| LogLine (line : string)
| CouldNotReadLog
| PidFileIs (path : string)
| ProcessId (pid : string)
| CouldNotReadPid.

Inductive Event : Type :=
| Print (msg : OutMsg)
| Kill (pid sig : Z)          (* os.kill(pid, sig), the system call made *)
| Sleep (seconds : Z)
| Remove (path : string).     (* os.remove(path) *)

(** The machine as the commands see it: the text of the PID file and the
    lines of the log file ([None]: no such file), the process ids [os.kill]
    can reach, which of them exit on SIGTERM before the grace period of
    [stop_process] is over, and the trace of what was done. *)
Record Host : Type := mkHost {
  pid_text : option string;
  log_lines : option (list string);
  live : list Z;
  heeds_sigterm : Z -> bool;
  trace : list Event
}.

Definition emit (e : Event) : M Host unit :=
  modify (fun h => mkHost (pid_text h) (log_lines h) (live h) (heeds_sigterm h)
                     (trace h ++ [e])).

Definition print (msg : OutMsg) : M Host unit := emit (Print msg).

Definition is_some {A} (o : option A) : bool :=
  match o with Some _ => true | None => false end.

(** [os.path.exists(pid_file)] *)
Definition pid_file_exists : M Host bool := gets (fun h => is_some (pid_text h)).

(** [os.path.exists(log_file)] *)
Definition log_file_exists : M Host bool := gets (fun h => is_some (log_lines h)).

(** [open(pid_file, 'r').read()].  On this machine a file that exists can
    be read and removed (the tool is run as root, its files are its own);
    [Frail] has the file system that refuses. *)
Definition read_pid_file : M Host string :=
  text <- gets pid_text ;;
  match text with
  | Some s => ret s
  | None => raise OSError
  end.

(** [open(log_file, 'r').readlines()] *)
Definition readlines_log_file : M Host (list string) :=
  text <- gets log_lines ;;
  match text with
  | Some l => ret l
  | None => raise OSError
  end.

(** [os.remove(pid_file)] *)
Definition remove_pid_file : M Host unit :=
  text <- gets pid_text ;;
  match text with
  | Some _ =>
      emit (Remove pid_file) ;;
      modify (fun h => mkHost None (log_lines h) (live h) (heeds_sigterm h) (trace h))
  | None => raise OSError
  end.

Definition alive (h : Host) (pid : Z) : bool :=
  existsb (Z.eqb pid) (live h).

(** A process id must fit the C type [pid_t]. *)
Definition fits_pid_t (pid : Z) : bool :=
  (- 2 ^ 31 <=? pid) && (pid <? 2 ^ 31).

Definition reap (pid : Z) : M Host unit :=
  modify (fun h => mkHost (pid_text h) (log_lines h)
                     (filter (fun q => negb (Z.eqb pid q)) (live h))
                     (heeds_sigterm h) (trace h)).

(** [os.kill(pid, sig)]: [OverflowError] for an id that is no [pid_t],
    [ProcessLookupError] for an id that names nothing; signal 0 only probes,
    SIGKILL ends the process, SIGTERM ends it when it heeds the signal.
    The caller may signal every process (the tool is run as root).  This is
    [os.kill] for a process id, a positive number: 0 and the negative
    numbers address groups of processes, and what is proved about a
    signalled id asks for a positive one. *)
Definition os_kill (pid sig : Z) : M Host unit :=
  if negb (fits_pid_t pid) then raise OverflowError
  else
    emit (Kill pid sig) ;;
    up <- gets (fun h => alive h pid) ;;
    if negb up then raise OSError
    else if sig =? SIGKILL then reap pid
    else if sig =? SIGTERM then
      heeds <- gets (fun h => heeds_sigterm h pid) ;;
      when heeds (reap pid)
    else ret tt.

(** [time.sleep(seconds)] *)
Definition time_sleep (seconds : Z) : M Host unit := emit (Sleep seconds).

(** [cleanup_pid_file()] *)
Definition cleanup_pid_file : M Host unit :=
  there <- pid_file_exists ;;
  when there remove_pid_file.

(** [check_existing_process()] *)
Definition check_existing_process : M Host bool :=
  there <- pid_file_exists ;;
  if there then
    try_except
      (text <- read_pid_file ;;
       pid <- int (strip text) ;;
       try_except
         (os_kill pid 0 ;;
          print (AnotherInstanceRunning pid) ;;
          print (CheckLogFile log_file) ;;
          print (IfNotRunningRemove pid_file) ;;
          ret true)
         (fun e =>
            match e with
            | OSError => Some (remove_pid_file ;; ret false)
            | _ => None
            end))
      (fun _ => Some (remove_pid_file ;; ret false))
  else ret false.

(** [stop_process()] *)
Definition stop_process : M Host unit :=
  there <- pid_file_exists ;;
  if there then
    try_except
      (text <- read_pid_file ;;
       pid <- int (strip text) ;;
       os_kill pid SIGTERM ;;
       print (SentStopSignal pid) ;;
       time_sleep 2 ;;
       try_except
         (os_kill pid 0 ;;
          print StillRunningSendingKill ;;
          os_kill pid SIGKILL)
         (fun e =>
            match e with
            | OSError => Some (print StoppedSuccessfully)
            | _ => None
            end) ;;
       still <- pid_file_exists ;;
       when still remove_pid_file)
      (fun e =>
         match e with
         | ValueError =>
             Some (print InvalidPidFile ;;
                   still <- pid_file_exists ;;
                   when still remove_pid_file)
         | OSError =>
             Some (print (ErrorStopping e) ;;
                   still <- pid_file_exists ;;
                   when still remove_pid_file)
         | _ => None
         end)
  else print NoProcessRunning.

(** [for line in lines: print(line.strip())] *)
Fixpoint print_lines (lines : list string) : M Host unit :=
  match lines with
  | [] => ret tt
  | line :: rest => print (LogLine (strip line)) ;; print_lines rest
  end.

(** [lines[-10:]] *)
Definition last10 {A} (lines : list A) : list A :=
  skipn (List.length lines - 10) lines.

(** [show_status()] *)
Definition show_status : M Host unit :=
  logged <- log_file_exists ;;
  when logged
    (print (LogFileIs log_file) ;;
     print LastLinesOfLog ;;
     try_except
       (lines <- readlines_log_file ;;
        print_lines (last10 lines))
       (fun _ => Some (print CouldNotReadLog)) ;;
     print (PidFileIs pid_file) ;;
     there <- pid_file_exists ;;
     when there
       (try_except
          (text <- read_pid_file ;;
           print (ProcessId (strip text)))
          (fun _ => Some (print CouldNotReadPid)))).

(** The [stop] command of [__main__]. *)
Definition stop_command : M Host unit :=
  print StoppingBackgroundProcess ;;
  stop_process.

(** The [status] command of [__main__]. *)
Definition status_command : M Host unit :=
  there <- pid_file_exists ;;
  (if there then print BackgroundRunning else print BackgroundNotRunning) ;;
  show_status.

(** *** What a trace tells *)

(** Printing only: no signal sent, no file removed, no sleep. *)
Definition is_print (e : Event) : Prop :=
  match e with
  | Print _ => True
  | _ => False
  end.

(** *** Some machines *)

(** A lock file left behind by process 4242, which is gone. *)
Definition stale_host : Host :=
  mkHost (Some "4242") (Some ["started "; "batch 1"]) [1; 77] (fun _ => true) [].

(** A lock file of process 4242, which is running and heeds SIGTERM. *)
Definition running_host : Host :=
  mkHost (Some "4242") (Some ["started "; "batch 1"]) [1; 77; 4242] (fun _ => true) [].

(** A lock file that holds no number. *)
Definition corrupt_host : Host :=
  mkHost (Some "not a pid") None [1; 77] (fun _ => true) [].

End Guard.

(** ** More observations on the scheduler's trace *)

Module Watch.
Import Scheduler.

(** Anything but the install or removal of packages, and no announcement
    of a batch: what a run does besides its batches. *)
Definition housekeeping (e : Event) : Prop :=
  match e with
  | Run ("apt" :: "install" :: _) _ | Run ("apt" :: "remove" :: _) _ => False
  | Log _ (BatchSize _) | Log _ (SelectedApps _) => False
  | _ => True
  end.

(** Anything but [apt autoremove] and [apt autoclean]. *)
Definition no_cleanup (e : Event) : Prop :=
  match e with
  | Run ("apt" :: "autoremove" :: _) _ | Run ("apt" :: "autoclean" :: _) _ => False
  | _ => True
  end.

(** The command lines of the housekeeping. *)
Definition update_index : list string * Z := (["apt"; "update"], 300).

Definition autoremove : list string * Z := (["apt"; "autoremove"; "-y"], 300).

Definition autoclean : list string * Z := (["apt"; "autoclean"], 180).

End Watch.

(** ** Going into the background *)

Module Launch.
Import Guard.

Definition SIGINT : Z := 2.

(** *** [str(n)] *)

Definition digit_char (d : Z) : ascii := ascii_of_nat (48 + Z.to_nat d).

(** The decimal digits of [n >= 0] in front of [acc]; a number has no more
    decimal digits than binary ones, which bounds [fuel]. *)
Fixpoint decimal (fuel : nat) (n : Z) (acc : string) : string :=
  match fuel with
  | O => acc
  | S fuel' =>
      let acc' := String (digit_char (n mod 10)) acc in
      if n <? 10 then acc' else decimal fuel' (n / 10) acc'
  end.

(** Is there no whitespace in [s]? *)
Fixpoint solid (s : string) : bool :=
  match s with
  | EmptyString => true
  | String c r => negb (is_space c) && solid r
  end.

(** [str(n)] for an integer [n]. *)
Definition str (n : Z) : string :=
  if n <? 0 then String "-" (decimal (S (Z.to_nat (Z.log2 (- n)))) (- n) EmptyString)
  else decimal (S (Z.to_nat (Z.log2 n))) n EmptyString.

(** *** The process *)

(** How an [os.fork()] call ends for the process that is followed: it
    fails, or the process is the parent and gets the id of its child (a
    positive number), or the process is from now on the child, with an id
    of its own, and gets 0. *)
Inductive Fork : Type :=
| ForkFails
| ForkedParent (child : positive)
| ForkedChild (self : Z).

(** What is registered with [atexit]. *)
Inductive Hook : Type := CleanupPidFile.

(** What [daemonize] writes to [sys.stderr]. *)
Inductive ErrMsg : Type :=
| FirstForkFailed (e : Exc)
| SecondForkFailed (e : Exc).

(** The process that is followed through [daemonize]: the machine it runs
    on, its id, how its coming forks end, its working directory, whether it
    leads a process group, its file-creation mask, its exit hooks, the signals
    that run [signal_handler], and what it wrote to [sys.stderr]. *)
Record Proc : Type := mkProc {
  host : Host;
  pid : Z;
  forks : list Fork;
  cwd : string;
  leads_group : bool;
  umask : Z;
  at_exit : list Hook;
  handled : list Z;
  stderr : list ErrMsg
}.

(** A command of the machine, run by the process. *)
Definition on_host {A} (m : M Host A) : M Proc A :=
  fun p =>
    let (r, h) := m (host p) in
    (r, mkProc h (pid p) (forks p) (cwd p) (leads_group p) (umask p)
          (at_exit p) (handled p) (stderr p)).

(** The machine with one more process. *)
Definition spawned (child : Z) (h : Host) : Host :=
  mkHost (pid_text h) (log_lines h) (child :: live h) (heeds_sigterm h) (trace h).

(** [os.fork()]: the child is one more process of the machine; it starts
    as no leader of anything. *)
Definition os_fork : M Proc Z :=
  fun p =>
    match forks p with
    | [] => (Raise OSError, p)
    | ForkFails :: rest =>
        (Raise OSError,
         mkProc (host p) (pid p) rest (cwd p) (leads_group p) (umask p)
           (at_exit p) (handled p) (stderr p))
    | ForkedParent child :: rest =>
        (Ok (Z.pos child),
         mkProc (spawned (Z.pos child) (host p)) (pid p) rest (cwd p) (leads_group p) (umask p)
           (at_exit p) (handled p) (stderr p))
    | ForkedChild self :: rest =>
        (Ok 0,
         mkProc (spawned self (host p)) self rest (cwd p) false (umask p)
           (at_exit p) (handled p) (stderr p))
    end.

(** [os.chdir(path)] *)
Definition os_chdir (path : string) : M Proc unit :=
  modify (fun p => mkProc (host p) (pid p) (forks p) path (leads_group p) (umask p)
                     (at_exit p) (handled p) (stderr p)).

(** [os.setsid()]: refused to the leader of a process group; the caller
    leads the new session and its group. *)
Definition os_setsid : M Proc unit :=
  fun p =>
    if leads_group p then (Raise OSError, p)
    else (Ok tt, mkProc (host p) (pid p) (forks p) (cwd p) true (umask p)
                   (at_exit p) (handled p) (stderr p)).

(** [os.umask(mask)] *)
Definition os_umask (mask : Z) : M Proc unit :=
  modify (fun p => mkProc (host p) (pid p) (forks p) (cwd p) (leads_group p) mask
                     (at_exit p) (handled p) (stderr p)).

(** [sys.stderr.write(...)] *)
Definition write_stderr (msg : ErrMsg) : M Proc unit :=
  modify (fun p => mkProc (host p) (pid p) (forks p) (cwd p) (leads_group p) (umask p)
                     (at_exit p) (handled p) (stderr p ++ [msg])).

(** [with open(pid_file, 'w') as f: f.write(text)]; the write is taken to
    succeed (the tool is run as root and the file is in /tmp). *)
Definition write_pid_file (text : string) : M Host unit :=
  modify (fun h => mkHost (Some text) (log_lines h) (live h) (heeds_sigterm h) (trace h)).

(** [atexit.register(hook)] *)
Definition atexit_register (hook : Hook) : M Proc unit :=
  modify (fun p => mkProc (host p) (pid p) (forks p) (cwd p) (leads_group p) (umask p)
                     (at_exit p ++ [hook]) (handled p) (stderr p)).

(** [signal.signal(signum, signal_handler)] *)
Definition signal_signal (signum : Z) : M Proc unit :=
  modify (fun p => mkProc (host p) (pid p) (forks p) (cwd p) (leads_group p) (umask p)
                     (at_exit p) (handled p ++ [signum]) (stderr p)).

(** How [daemonize] ends for the process: [sys.exit(code)], or it returns
    in the detached process. *)
Inductive Fate : Type :=
| Exits (code : Z)
| Detached.

(** One of the two [try: pid = os.fork() ... except OSError] blocks: the
    exit code when the block ends in [sys.exit], [None] when it falls
    through.  [SystemExit] is no [OSError], so [sys.exit(0)] passes the
    [except] clause. *)
Definition fork_or_exit (failed : Exc -> ErrMsg) : M Proc (option Z) :=
  try_except
    (child <- os_fork ;;
     if child >? 0 then ret (Some 0) else ret None)
    (fun e =>
       match e with
       | OSError => Some (write_stderr (failed e) ;; ret (Some 1))
       | _ => None
       end).

(** [daemonize()] *)
Definition daemonize : M Proc Fate :=
  first <- fork_or_exit FirstForkFailed ;;
  match first with
  | Some code => ret (Exits code)
  | None =>
      os_chdir "/" ;;
      os_setsid ;;
      os_umask 0 ;;
      second <- fork_or_exit SecondForkFailed ;;
      match second with
      | Some code => ret (Exits code)
      | None =>
          self <- gets pid ;;
          on_host (write_pid_file (str self)) ;;
          atexit_register CleanupPidFile ;;
          signal_signal SIGTERM ;;
          signal_signal SIGINT ;;
          ret Detached
      end
  end.

(** Is the process the child of both forks of [daemonize]? *)
Definition detaches (outcomes : list Fork) : bool :=
  match outcomes with
  | ForkedChild _ :: ForkedChild _ :: _ => true
  | _ => false
  end.

(** The exit hooks, run when the interpreter exits normally: the last one
    registered first. *)
Fixpoint run_hooks (hooks : list Hook) : M Proc unit :=
  match hooks with
  | [] => ret tt
  | CleanupPidFile :: rest => on_host cleanup_pid_file ;; run_hooks rest
  end.

Definition at_interpreter_exit : M Proc unit :=
  hooks <- gets at_exit ;;
  run_hooks (rev hooks).


(** A process started from a shell: it leads its process group, in the
    directory [dir]. *)
Definition launched (h : Host) (self : Z) (outcomes : list Fork) (dir : string) : Proc :=
  mkProc h self outcomes dir true 18 [] [] [].

End Launch.

(** ** The command line *)

Module Cli.
Import Guard Launch.

(** [str.lower()] on the ASCII range. *)
Definition lower_char (c : ascii) : ascii :=
  let n := nat_of_ascii c in
  if ((65 <=? n) && (n <=? 90))%nat then ascii_of_nat (n + 32) else c.

Fixpoint lower (s : string) : string :=
  match s with
  | EmptyString => EmptyString
  | String c r => String (lower_char c) (lower r)
  end.

(** What [__main__] and its helpers print themselves: the banner, the
    summary of [show_summary] (its lines name the script), and the single
    lines. *)
Inductive Shown : Type :=
| Banner
| Summary (script : string)
| ToStart (script : string)
| Prompt
| Cancelled
| StartingInBackground
| CheckStatusWith (script : string)
| StopWith (script : string)
| UnknownCommand (command : string)
| Usage (script : string).

(** What appears on the terminal, in order: what the command line prints
    and what the lock-file commands do. *)
Inductive Output : Type :=
| Said (msg : Shown)
| Machine (e : Guard.Event).

(** The terminal session: the process, the lines the user will type, and
    the output so far. *)
Record Console : Type := mkConsole {
  proc : Proc;
  keyboard : list string;
  screen : list Output
}.

Definition say (msg : Shown) : M Console unit :=
  modify (fun c => mkConsole (proc c) (keyboard c) (screen c ++ [Said msg])).

(** A command of the machine, run from the command line: what it adds to
    the machine's trace appears on the terminal. *)
Definition on_machine {A} (m : M Host A) : M Console A :=
  fun c =>
    let before := List.length (trace (host (proc c))) in
    let (r, p) := on_host m (proc c) in
    (r, mkConsole p (keyboard c)
          (screen c ++ map Machine (skipn before (trace (host p))))).

Definition on_proc {A} (m : M Proc A) : M Console A :=
  fun c =>
    let (r, p) := m (proc c) in
    (r, mkConsole p (keyboard c) (screen c)).

(** [input(prompt)]: the prompt is printed and the next line typed is
    returned; [EOFError] at the end of the input. *)
Definition input : M Console string :=
  say Prompt ;;
  fun c =>
    match keyboard c with
    | [] => (Raise OtherException, c)
    | line :: rest => (Ok line, mkConsole (proc c) rest (screen c))
    end.

(** [show_banner()] *)
Definition show_banner : M Console unit := say Banner.

(** [show_summary()] *)
Definition show_summary (script : string) : M Console unit := say (Summary script).

(** How the script ends: [sys.exit(code)], the end of the file, or, for
    [start] in the detached process, the call of [main_installation()]. *)
Inductive Ending : Type :=
| Exit (code : Z)
| EndOfScript
| RunScheduler.

(** The [start] command. *)
Definition start_command (script : string) : M Console Ending :=
  running <- on_machine check_existing_process ;;
  if running then ret (Exit 1)
  else
    show_summary script ;;
    typed <- input ;;
    let response := lower (strip typed) in
    if negb (String.eqb response "yes") then
      say Cancelled ;;
      ret (Exit 0)
    else
      say StartingInBackground ;;
      say (CheckStatusWith script) ;;
      say (StopWith script) ;;
      fate <- on_proc daemonize ;;
      match fate with
      | Exits code => ret (Exit code)
      | Detached => ret RunScheduler
      end.

(** The body of [if __name__ == "__main__"], for [sys.argv = script :: args]. *)
Definition main (script : string) (args : list string) : M Console Ending :=
  show_banner ;;
  match args with
  | arg :: _ =>
      let command := lower arg in
      if String.eqb command "start" then start_command script
      else if String.eqb command "stop" then
        on_machine stop_command ;;
        ret EndOfScript
      else if String.eqb command "status" then
        on_machine status_command ;;
        ret EndOfScript
      else if String.eqb command "help" || String.eqb command "--help"
              || String.eqb command "-h" then
        show_summary script ;;
        ret EndOfScript
      else
        say (UnknownCommand command) ;;
        say (Usage script) ;;
        ret (Exit 1)
  | [] =>
      show_summary script ;;
      say (ToStart script) ;;
      ret EndOfScript
  end.

(** The commands [main] knows, in lower case. *)
Definition known (command : string) : bool :=
  existsb (String.eqb command) ["start"; "stop"; "status"; "help"; "--help"; "-h"].


(** A terminal session that starts. *)
Definition session (p : Proc) (typed : list string) : Console := mkConsole p typed [].

End Cli.

(** ** The lock-file commands on a file system that refuses *)

Module Frail.
Import Guard.

(** [Guard] takes a file that exists to be readable and removable.  Here
    the file system may refuse: reading the lock file or the log file
    raises the given exception ([OSError] when access is denied,
    [ValueError] for bytes that do not decode), and the removal of the lock
    file may be denied. *)
Record Denials : Type := mkDenials {
  reading_lock : option Exc;
  removing_lock : bool;
  reading_log : option Exc
}.

Record Site : Type := mkSite {
  machine : Host;
  denials : Denials
}.

(** A command that cannot be refused, run at the site. *)
Definition granted {A} (m : M Host A) : M Site A :=
  fun s => let (r, h) := m (machine s) in (r, mkSite h (denials s)).

Definition print (msg : OutMsg) : M Site unit := granted (Guard.print msg).

Definition pid_file_exists : M Site bool := granted Guard.pid_file_exists.

Definition log_file_exists : M Site bool := granted Guard.log_file_exists.

Definition os_kill (pid sig : Z) : M Site unit := granted (Guard.os_kill pid sig).

(** [open(pid_file, 'r').read()] *)
Definition read_pid_file : M Site string :=
  there <- pid_file_exists ;;
  refusal <- gets (fun s => reading_lock (denials s)) ;;
  match there, refusal with
  | true, Some e => raise e
  | _, _ => granted Guard.read_pid_file
  end.

(** [open(log_file, 'r').readlines()] *)
Definition readlines_log_file : M Site (list string) :=
  there <- log_file_exists ;;
  refusal <- gets (fun s => reading_log (denials s)) ;;
  match there, refusal with
  | true, Some e => raise e
  | _, _ => granted Guard.readlines_log_file
  end.

(** [os.remove(pid_file)] *)
Definition remove_pid_file : M Site unit :=
  denied <- gets (fun s => removing_lock (denials s)) ;;
  if denied then raise OSError else granted Guard.remove_pid_file.

(** [for line in lines: print(line.strip())] *)
Definition print_lines (lines : list string) : M Site unit :=
  granted (Guard.print_lines lines).

(** [check_existing_process()] *)
Definition check_existing_process : M Site bool :=
  there <- pid_file_exists ;;
  if there then
    try_except
      (text <- read_pid_file ;;
       pid <- int (strip text) ;;
       try_except
         (os_kill pid 0 ;;
          print (AnotherInstanceRunning pid) ;;
          print (CheckLogFile log_file) ;;
          print (IfNotRunningRemove pid_file) ;;
          ret true)
         (fun e =>
            match e with
            | OSError => Some (remove_pid_file ;; ret false)
            | _ => None
            end))
      (fun _ => Some (remove_pid_file ;; ret false))
  else ret false.

(** [show_status()] *)
Definition show_status : M Site unit :=
  logged <- log_file_exists ;;
  when logged
    (print (LogFileIs log_file) ;;
     print LastLinesOfLog ;;
     try_except
       (lines <- readlines_log_file ;;
        print_lines (last10 lines))
       (fun _ => Some (print CouldNotReadLog)) ;;
     print (PidFileIs pid_file) ;;
     there <- pid_file_exists ;;
     when there
       (try_except
          (text <- read_pid_file ;;
           print (ProcessId (strip text)))
          (fun _ => Some (print CouldNotReadPid)))).

(** What becomes of a lock file that is not trusted, after the events [d]:
    it is removed, or the removal is denied and [OSError] is raised. *)
Definition discarded (s : Site) (d : list Event) : Result bool * Site :=
  let h := machine s in
  if removing_lock (denials s) then
    (Raise OSError,
     mkSite (mkHost (pid_text h) (log_lines h) (live h) (heeds_sigterm h) (trace h ++ d))
       (denials s))
  else
    (Ok false,
     mkSite (mkHost None (log_lines h) (live h) (heeds_sigterm h)
               (trace h ++ d ++ [Remove pid_file]))
       (denials s)).

(** The site where nothing is refused. *)
Definition open_site (h : Host) : Site := mkSite h (mkDenials None false None).

End Frail.

(** ** Facts about the effect monad *)

Module PyFacts.

Lemma bind_run {S A B} (m : M S A) (k : A -> M S B) s a s' :
  m s = (Ok a, s') -> bind m k s = k a s'.
Proof. intros E. unfold bind. rewrite E. reflexivity. Qed.

Lemma bind_raise {S A B} (m : M S A) (k : A -> M S B) s e s' :
  m s = (Raise e, s') -> bind m k s = (Raise e, s').
Proof. intros E. unfold bind. rewrite E. reflexivity. Qed.

Lemma bind_assoc {S A B C} (m : M S A) (k : A -> M S B) (k' : B -> M S C) s :
  bind (bind m k) k' s = bind m (fun a => bind (k a) k') s.
Proof. unfold bind. destruct (m s) as [[a|e|] s']; reflexivity. Qed.

Lemma try_bind_run {S A B} (m : M S A) (k : A -> M S B) h s r s' :
  m s = (r, s') ->
  try_except (bind m k) h s =
    match r with
    | Ok a => try_except (k a) h s'
    | Raise e => match h e with Some handler => handler s' | None => (Raise e, s') end
    | OutOfFuel => (OutOfFuel, s')
    end.
Proof. intros E. unfold try_except, bind. rewrite E. destruct r; reflexivity. Qed.

End PyFacts.

(** ** Facts about the scheduler *)

Module SchedulerFacts.
Import Scheduler PyFacts.

(** *** Composing trace specifications *)

Section Emits.
Context (P : Event -> Prop).

Lemma emits_ret {A} (Q : A -> Prop) a : Q a -> emits P Q (ret a).
Proof. intros H w. exists a, w, []. rewrite app_nil_r. repeat split; auto. Qed.

Lemma emits_gets {A} (Q : A -> Prop) (f : World -> A) :
  (forall w, Q (f w)) -> emits P Q (gets f).
Proof. intros H w. exists (f w), w, []. rewrite app_nil_r. repeat split; auto. Qed.

Lemma emits_emit e : P e -> emits P any (emit e).
Proof.
  intros H w. eexists tt, _, [e]. split; [reflexivity|].
  repeat split; auto.
Qed.

Lemma emits_log l m : P (Log l m) -> emits P any (log l m).
Proof. apply emits_emit. Qed.

Lemma emits_bind {A B} (Q : A -> Prop) (R : B -> Prop) m k :
  emits P Q m -> (forall a, Q a -> emits P R (k a)) -> emits P R (bind m k).
Proof.
  intros Hm Hk w.
  destruct (Hm w) as (a & w1 & d1 & E1 & Qa & T1 & F1 & S1).
  destruct (Hk a Qa w1) as (b & w2 & d2 & E2 & Rb & T2 & F2 & S2).
  exists b, w2, (d1 ++ d2). rewrite (bind_run _ _ _ _ _ E1).
  repeat split; auto.
  - rewrite T2, T1, app_assoc. reflexivity.
  - apply Forall_app; auto.
Qed.

Lemma raises_bind {A B} (Q : A -> Prop) (R : B -> Prop) m k :
  raises P Q m -> (forall a, Q a -> raises P R (k a)) -> raises P R (bind m k).
Proof.
  intros Hm Hk w.
  destruct (Hm w) as (r & w1 & d1 & E1 & Qa & T1 & F1 & S1).
  destruct r as [a|e|]; [|exists (Raise e), w1, d1; unfold bind; rewrite E1; auto|tauto].
  destruct (Hk a Qa w1) as (b & w2 & d2 & E2 & Rb & T2 & F2 & S2).
  exists b, w2, (d1 ++ d2). rewrite (bind_run _ _ _ _ _ E1).
  repeat split; auto.
  - rewrite T2, T1, app_assoc. reflexivity.
  - apply Forall_app; auto.
Qed.

Lemma emits_raises {A} (Q : A -> Prop) m : emits P Q m -> raises P Q m.
Proof.
  intros H w. destruct (H w) as (a & w' & d & E & Qa & T & F & S).
  exists (Ok a), w', d. auto.
Qed.

Lemma raises_raise {A} (Q : A -> Prop) e : raises P Q (raise e).
Proof. intros w. exists (Raise e), w, []. rewrite app_nil_r. repeat split; auto. Qed.

Lemma emits_try {A} (Q : A -> Prop) m handler :
  raises P Q m ->
  (forall e, exists h, handler e = Some h /\ emits P Q h) ->
  emits P Q (try_except m handler).
Proof.
  intros Hm Hh w.
  destruct (Hm w) as (r & w1 & d1 & E1 & Qa & T1 & F1 & S1).
  unfold try_except. rewrite E1.
  destruct r as [a|e|]; [exists a, w1, d1; auto| |tauto].
  destruct (Hh e) as (h & -> & Hh').
  destruct (Hh' w1) as (b & w2 & d2 & E2 & Rb & T2 & F2 & S2).
  exists b, w2, (d1 ++ d2). repeat split; auto.
  - rewrite T2, T1, app_assoc. reflexivity.
  - apply Forall_app; auto.
Qed.

Lemma emits_when b m : emits P any m -> emits P any (when b m).
Proof. intros H. destruct b; [exact H|]. apply emits_ret. exact I. Qed.

Lemma emits_any {A} (Q : A -> Prop) m : emits P Q m -> emits P any m.
Proof.
  intros H w. destruct (H w) as (a & w' & d & E & Qa & T & F & S).
  exists a, w', d. repeat split; auto.
Qed.

Lemma emits_draw : emits P any draw.
Proof.
  intros w. eexists _, _, []. split; [reflexivity|].
  cbn. rewrite app_nil_r. repeat split; auto.
Qed.

Lemma emits_randint a b :
  a <= b -> emits P (fun v => a <= v <= b) (randint a b).
Proof.
  intros Hab. unfold randint.
  destruct (Z.ltb_spec b a); [lia|].
  eapply emits_bind; [apply emits_draw|]. intros r _.
  apply emits_ret.
  pose proof (Z.mod_pos_bound (Z.of_nat r) (b - a + 1)). lia.
Qed.

Lemma emits_randint_any a b : a <= b -> emits P any (randint a b).
Proof. intros H. eapply emits_any, emits_randint, H. Qed.

Lemma remove_nth_length {A} (l : list A) i :
  (i < List.length l)%nat -> List.length (remove_nth i l) = pred (List.length l).
Proof.
  revert i. induction l as [|x l IH]; intros i Hi; simpl in *; [lia|].
  destruct i; simpl; [reflexivity|].
  rewrite IH by lia. destruct l; simpl in *; lia.
Qed.

Lemma emits_sample_from k : forall pool,
  (k <= List.length pool)%nat ->
  emits P (fun l => List.length l = k) (sample_from k pool).
Proof.
  induction k as [|k IH]; intros pool Hk; simpl.
  - apply emits_ret. reflexivity.
  - destruct pool as [|x pool]; [simpl in Hk; lia|].
    eapply emits_bind; [apply emits_draw|]. intros r _.
    assert (Hi : (r mod List.length (x :: pool) < List.length (x :: pool))%nat)
      by (apply Nat.mod_upper_bound; discriminate).
    eapply emits_bind.
    + apply IH. rewrite remove_nth_length by exact Hi. simpl in *. lia.
    + intros rest Hrest. apply emits_ret. simpl. congruence.
Qed.

Lemma emits_random_sample population k :
  0 <= k <= len population ->
  emits P (fun l => len l = k) (random_sample population k).
Proof.
  intros Hk. unfold random_sample, len in *.
  destruct (Z.ltb_spec k 0); [lia|].
  destruct (Z.ltb_spec (Z.of_nat (List.length population)) k); [lia|]. simpl.
  intros w. destruct (emits_sample_from (Z.to_nat k) population ltac:(lia) w)
    as (l & w' & d & E & Hl & T & F & S).
  exists l, w', d. repeat split; auto. rewrite Hl. lia.
Qed.

Hypothesis P_signal : forall signum, P (Log INFO (ReceivedSignal signum)).

Lemma emits_elapse d : emits P any (elapse d).
Proof.
  intros w. unfold elapse.
  destruct (signal_at w) as [[t signum]|].
  - destruct (t <=? clock w + d).
    + eexists tt, _, [_]. split; [reflexivity|]. repeat split; auto.
    + eexists tt, _, []. split; [reflexivity|]. cbn. rewrite app_nil_r. repeat split; auto.
  - eexists tt, _, []. split; [reflexivity|]. cbn. rewrite app_nil_r. repeat split; auto.
Qed.

Lemma emits_time_sleep s : P (Sleep s) -> emits P any (time_sleep s).
Proof.
  intros H. unfold time_sleep. eapply emits_bind; [apply emits_emit, H|].
  intros _ _. apply emits_elapse.
Qed.

Lemma raises_subprocess_run argv timeout :
  P (Run argv timeout) -> raises P any (subprocess_run argv timeout).
Proof.
  intros H. unfold subprocess_run.
  eapply raises_bind; [apply emits_raises, emits_gets with (Q := any); intros; exact I|].
  intros rep _.
  eapply raises_bind; [apply emits_raises, emits_emit, H|]. intros _ _.
  eapply raises_bind with (Q := any).
  { intros w. eexists (Ok tt), _, []. split; [reflexivity|]. cbn.
    rewrite app_nil_r. repeat split; auto. }
  intros _ _.
  eapply raises_bind; [apply emits_raises, emits_elapse|]. intros _ _.
  destruct (outcome rep).
  - apply emits_raises, emits_ret. exact I.
  - apply raises_raise.
Qed.

End Emits.

Lemma idle_is_op e : idle_event e -> op_event e.
Proof. destruct e as [| |l m]; simpl; auto. Qed.

Lemma emits_sub {A} (P P' : Event -> Prop) (Q Q' : A -> Prop) m :
  (forall e, P e -> P' e) -> (forall a, Q a -> Q' a) -> emits P Q m -> emits P' Q' m.
Proof.
  intros HP HQ H w. destruct (H w) as (a & w' & d & E & Qa & T & F & S).
  exists a, w', d. repeat split; auto. eapply Forall_impl; eauto.
Qed.

(** Follows the shape of a computation made of the operations above. *)
Ltac emits_step :=
  lazymatch goal with
  | |- emits _ any (randint _ _) => apply emits_randint_any; lia
  | |- emits _ _ (ret _) => apply emits_ret; try exact I
  | |- emits _ _ (bind _ _) => eapply emits_bind with (Q := any); [ | intros ? ? ]
  | |- emits _ _ (log _ _) => apply emits_log; exact I
  | |- emits _ _ (gets _) => apply emits_gets with (Q := any); intros; exact I
  | |- emits _ _ (when _ _) => apply emits_when
  | |- emits _ _ (time_sleep _) => apply emits_time_sleep; [intros; exact I | exact I]
  | |- emits _ _ (try_except _ _) =>
      eapply emits_try;
      [ | let e := fresh "e" in intros e; destruct e; eexists; (split; [reflexivity | ]) ]
  | |- emits _ _ (if ?b then _ else _) => destruct b
  | |- raises _ _ (bind _ _) => eapply raises_bind with (Q := any); [ | intros ? ? ]
  | |- raises _ _ (subprocess_run _ _) =>
      apply raises_subprocess_run; [intros; exact I | exact I]
  | |- raises _ _ (if ?b then _ else _) => destruct b
  | |- raises _ _ (ret _) => apply emits_raises
  | |- raises _ _ (log _ _) => apply emits_raises
  | |- raises _ _ (gets _) => apply emits_raises
  end.

(** *** The trace of each operation *)

Lemma emits_update_system : emits op_event any update_system.
Proof. unfold update_system. repeat emits_step. Qed.

Lemma emits_install_each apps : forall c, emits op_event any (install_each apps c).
Proof.
  induction apps as [|app rest IH]; intros c; simpl.
  - emits_step.
  - emits_step; [|apply IH]. repeat emits_step.
Qed.

Lemma emits_install_batch apps n t : emits op_event any (install_batch apps n t).
Proof.
  unfold install_batch. repeat emits_step. apply emits_raises, emits_install_each.
Qed.

Lemma raises_uninstall_each apps : raises op_event any (uninstall_each apps).
Proof.
  induction apps as [|app rest IH]; simpl.
  - repeat emits_step.
  - emits_step; [emits_step|apply IH].
Qed.

Lemma emits_uninstall_batch apps n t : emits op_event any (uninstall_batch apps n t).
Proof.
  unfold uninstall_batch. repeat emits_step. apply raises_uninstall_each.
Qed.

Lemma emits_cleanup_system : emits op_event any cleanup_system.
Proof. unfold cleanup_system. repeat emits_step. Qed.

Lemma cleanup_system_no_uninstall : emits no_uninstall any cleanup_system.
Proof. unfold cleanup_system. repeat emits_step. Qed.

Lemma emits_tick_wait n : emits idle_event any (tick_wait n).
Proof.
  induction n as [|n IH]; simpl; repeat emits_step. apply IH.
Qed.

Lemma emits_waiting_phase : emits idle_event any waiting_phase.
Proof. unfold waiting_phase. repeat emits_step. apply emits_tick_wait. Qed.

Lemma emits_pause_phase total processed : emits idle_event any (pause_phase total processed).
Proof. unfold pause_phase. repeat emits_step. apply emits_tick_wait. Qed.

Lemma emits_uninstall_phase total p bs apps :
  emits op_event
    (fun p' => processed_apps p' = processed_apps p + bs /\
               batch_number p' = batch_number p + 1)
    (uninstall_phase total p bs apps).
Proof.
  unfold uninstall_phase.
  eapply emits_bind; [apply emits_uninstall_batch|]. intros ok _.
  eapply emits_bind with (Q := any); [destruct ok; emits_step|]. intros _ _.
  eapply emits_bind.
  { eapply emits_sub; [apply idle_is_op| |apply emits_pause_phase]. intros a H; exact H. }
  intros _ _.
  emits_step; [emits_step|].
  emits_step; [emits_step; apply emits_cleanup_system|].
  apply emits_ret. simpl. split; reflexivity.
Qed.

(** *** Stepping through a computation *)

Ltac proj := cbn [trace shutdown_flag clock signal_at entropy draws apt calls fst snd].

Ltac proj_in H :=
  cbn [trace shutdown_flag clock signal_at entropy draws apt calls fst snd] in H.

(** Runs the first operation of the goal's computation when it computes. *)
Ltac run := erewrite bind_run by reflexivity; cbv beta; proj.

(** Runs the first operation of the goal's computation by its trace
    specification [L]. *)
Ltac run_by L :=
  lazymatch goal with
  | |- context [@bind _ _ _ ?m ?k ?w] =>
      let E := fresh "E" in
      let T := fresh "T" in
      let F := fresh "F" in
      let Q := fresh "Q" in
      let S := fresh "S" in
      destruct (L w) as (? & ? & ? & E & Q & T & F & S);
      rewrite (bind_run _ _ _ _ _ E); cbv beta; proj; clear E;
      proj_in T; proj_in S
  end.

Lemma batch_sizes_app t1 t2 : batch_sizes (t1 ++ t2) = batch_sizes t1 ++ batch_sizes t2.
Proof. apply flat_map_app. Qed.

Lemma selections_app t1 t2 : selections (t1 ++ t2) = selections t1 ++ selections t2.
Proof. apply flat_map_app. Qed.

Lemma commands_app t1 t2 : commands (t1 ++ t2) = commands t1 ++ commands t2.
Proof. apply flat_map_app. Qed.

Lemma op_batch_sizes d : Forall op_event d -> batch_sizes d = [].
Proof.
  induction 1 as [|e d He _ IH]; [reflexivity|].
  unfold batch_sizes in *. simpl. rewrite IH.
  destruct e as [| |l m]; try reflexivity. destruct m; try reflexivity. destruct He.
Qed.

Lemma op_selections d : Forall op_event d -> selections d = [].
Proof.
  induction 1 as [|e d He _ IH]; [reflexivity|].
  unfold selections in *. simpl. rewrite IH.
  destruct e as [| |l m]; try reflexivity. destruct m; try reflexivity. destruct He.
Qed.

Lemma idle_commands d : Forall idle_event d -> commands d = [].
Proof.
  induction 1 as [|e d He _ IH]; [reflexivity|].
  unfold commands in *. simpl. rewrite IH.
  destruct e as [| |l m]; try reflexivity. destruct He.
Qed.

Lemma idle_all_op d : Forall idle_event d -> Forall op_event d.
Proof. apply Forall_impl, idle_is_op. Qed.

Lemma idle_no_uninstall e : idle_event e -> no_uninstall e.
Proof. destruct e as [| |l m]; simpl; tauto. Qed.

(** Closes [trace w' = trace w ++ ?d] from the trace equations at hand. *)
Ltac trace_eq :=
  repeat match goal with
         | H : trace ?w = _ |- context [trace ?w] => rewrite H
         end;
  repeat rewrite <- app_assoc; reflexivity.

(** Drops from the goal what the quiet stretches of a trace contribute. *)
Ltac quiet :=
  repeat rewrite batch_sizes_app; repeat rewrite selections_app;
  repeat match goal with
         | H : Forall op_event ?d |- context [batch_sizes ?d] =>
             rewrite (op_batch_sizes d H)
         | H : Forall op_event ?d |- context [selections ?d] =>
             rewrite (op_selections d H)
         | H : Forall idle_event ?d |- context [batch_sizes ?d] =>
             rewrite (op_batch_sizes d (idle_all_op d H))
         | H : Forall idle_event ?d |- context [selections ?d] =>
             rewrite (op_selections d (idle_all_op d H))
         end.

Lemma catalog_size : len ALL_USEFUL_APPS = 256.
Proof. reflexivity. Qed.

(** The batch size of lines 455 to 459. *)
Lemma clamped_size total processed drawn :
  0 <= processed < total -> 5 <= drawn <= 14 ->
  let size := if total <? processed + drawn then total - processed else drawn in
  1 <= size <= 14 /\
  (5 <= size /\ processed + size <= total \/ processed + size = total).
Proof. intros. subst size. destruct (Z.ltb_spec total (processed + drawn)); lia. Qed.

Lemma install_phase_spec total p w :
  0 <= processed_apps p < total -> shutdown_flag w = false ->
  exists r w1 bs apps d,
    install_phase total p w = (Ok r, w1) /\
    trace w1 = trace w ++ d /\
    batch_sizes d = [bs] /\ selections d = [apps] /\ len apps = bs /\
    1 <= bs <= 14 /\
    (5 <= bs /\ processed_apps p + bs <= total \/ processed_apps p + bs = total) /\
    match r with
    | None => shutdown_flag w1 = true
    | Some x => x = (bs, apps) /\ shutdown_flag w1 = false
    end.
Proof.
  intros Hp Hflag. unfold install_phase.
  run. rewrite Hflag.
  run_by (emits_randint op_event 5 14 ltac:(lia)).
  match goal with
  | H : 5 <= ?x <= 14 |- _ =>
      destruct (clamped_size total (processed_apps p) x Hp H) as [Hb Hc];
      set (bs := if total <? processed_apps p + x then total - processed_apps p else x) in *
  end.
  run_by (emits_random_sample op_event ALL_USEFUL_APPS (Z.min bs (len ALL_USEFUL_APPS))
            ltac:(rewrite catalog_size; lia)).
  match goal with
  | H : len ?l = Z.min bs _ |- _ =>
      assert (Hlen : len l = bs) by (rewrite H, catalog_size; lia);
      set (apps := l) in *; clearbody apps
  end.
  do 5 run.
  run_by (emits_install_batch apps (batch_number p + 1) "unknown").
  match goal with
  | |- context [bind (if ?b then _ else _) _ _] =>
      assert (L : emits op_event any (if b then log INFO (InstallationCompleted (batch_number p + 1))
                                      else log WARNING (InstallationHadIssues (batch_number p + 1))))
        by (destruct b; emits_step)
  end.
  run_by L. clear L.
  run.
  match goal with
  | |- context [if shutdown_flag ?w then _ else _] => destruct (shutdown_flag w) eqn:Hstop
  end.
  - run. eexists None, _, bs, apps, _. split; [reflexivity|]. proj.
    split; [trace_eq|]. quiet.
    simpl. repeat split; auto; lia.
  - eexists (Some _), _, bs, apps, _. split; [reflexivity|]. proj.
    split; [trace_eq|]. quiet.
    simpl. repeat split; auto; lia.
Qed.

Lemma loop_body_spec total p w :
  0 <= processed_apps p < total -> shutdown_flag w = false ->
  exists c w' bs apps d,
    loop_body total p w = (Ok c, w') /\
    trace w' = trace w ++ d /\
    batch_sizes d = [bs] /\ selections d = [apps] /\ len apps = bs /\
    1 <= bs <= 14 /\
    (5 <= bs /\ processed_apps p + bs <= total \/ processed_apps p + bs = total) /\
    match c with
    | Break p' => processed_apps p' = processed_apps p /\ shutdown_flag w' = true
    | Next p' => processed_apps p' = processed_apps p + bs
    end.
Proof.
  intros Hp Hflag. unfold loop_body.
  destruct (install_phase_spec total p w Hp Hflag)
    as (r & w1 & bs & apps & d1 & E1 & T1 & S1 & A1 & Hlen & Hb & Hc & Hr).
  rewrite (bind_run _ _ _ _ _ E1).
  destruct r as [[bs' apps']|].
  - destruct Hr as [Hr Hgo]. injection Hr as -> ->.
    run_by emits_waiting_phase. run.
    match goal with
    | |- context [if shutdown_flag ?w then _ else _] => destruct (shutdown_flag w) eqn:Hstop
    end.
    + run. eexists (Break _), _, bs, apps, _. split; [reflexivity|]. proj.
      split; [trace_eq|]. quiet. rewrite S1, A1.
      simpl. repeat split; auto; lia.
    + run_by (emits_uninstall_phase total p bs apps).
      eexists (Next _), _, bs, apps, _. split; [reflexivity|]. proj.
      split; [trace_eq|]. quiet. rewrite S1, A1.
      simpl. repeat split; auto; lia.
  - eexists (Break _), _, bs, apps, _. split; [reflexivity|]. proj.
    split; [exact T1|]. repeat split; auto; lia.
Qed.

Lemma while_loop_spec total : forall fuel p w,
  0 <= processed_apps p <= total ->
  (Z.to_nat (total - processed_apps p) < fuel)%nat ->
  exists p' w' d,
    while_loop fuel total p w = (Ok p', w') /\
    trace w' = trace w ++ d /\
    batches total (processed_apps p) (batch_sizes d) /\
    map len (selections d) = batch_sizes d /\
    processed_apps p <= processed_apps p' <= total /\
    (shutdown_flag w' = false ->
     processed_apps p' = total /\ processed_apps p + sum (batch_sizes d) = total).
Proof.
  induction fuel as [|fuel IH]; intros p w Hp Hfuel; [lia|].
  simpl. run.
  destruct (Z.ltb_spec (processed_apps p) total) as [Hlt|Hge]; simpl.
  - destruct (shutdown_flag w) eqn:Hflag; simpl.
    + exists p, w, []. rewrite app_nil_r. split; [reflexivity|].
      repeat split; try lia; try constructor; congruence.
    + destruct (loop_body_spec total p w ltac:(lia) Hflag)
        as (c & w1 & bs & apps & d1 & E1 & T1 & S1 & A1 & Hlen & Hb & Hc & Hr).
      rewrite (bind_run _ _ _ _ _ E1).
      destruct c as [p1|p1].
      * destruct Hr as [Hr Hstop].
        exists p1, w1, d1. split; [reflexivity|]. rewrite S1, A1. simpl.
        repeat split; try lia; try congruence.
        destruct Hc as [[? ?]|?]; [apply batches_full; try lia; constructor|
                                   apply batches_last; lia].
      * destruct (IH p1 w1 ltac:(lia) ltac:(lia))
          as (p2 & w2 & d2 & E2 & T2 & B2 & A2 & Hp2 & Hdone).
        exists p2, w2, (d1 ++ d2). split; [exact E2|].
        rewrite batch_sizes_app, selections_app, map_app, S1, A1, A2. simpl.
        split; [rewrite T2, T1, app_assoc; reflexivity|].
        rewrite Hr in *.
        repeat split; try lia; try congruence.
        -- destruct Hc as [[? ?]|Hc]; [apply batches_full; auto; lia|].
           assert (batch_sizes d2 = []) as ->; [|apply batches_last; lia].
           inversion B2; subst; auto; lia.
        -- apply Hdone; assumption.
        -- destruct (Hdone H). lia.
  - exists p, w, []. rewrite app_nil_r. split; [reflexivity|].
    repeat split; simpl; try lia; try constructor.
Qed.

Lemma startup_spec :
  emits op_event (fun total => 161 <= total <= 199) startup.
Proof.
  unfold startup.
  do 5 (emits_step; [solve [repeat emits_step]|]).
  emits_step; [apply emits_update_system|].
  emits_step; [solve [repeat emits_step]|].
  eapply emits_bind; [apply emits_randint; lia|]. intros total Ht.
  emits_step; [emits_step|]. apply emits_ret. exact Ht.
Qed.

Lemma wind_up_spec total p w :
  exists s w' d,
    wind_up total p w = (Ok s, w') /\
    trace w' = trace w ++ d /\ Forall op_event d /\ Forall no_uninstall d /\
    total_apps s = total /\ progress s = p /\
    banner s = (if shutdown_flag w then Stopped else Completed) /\
    (shutdown_flag w = true -> farewell s = Stopped).
Proof.
  unfold wind_up. do 2 run.
  assert (L : emits (fun e => op_event e /\ no_uninstall e) any
                (log INFO (if shutdown_flag w then StoppedByUser else AllBatchesCompleted))).
  { destruct (shutdown_flag w); apply emits_log; split; exact I. }
  replace (if shutdown_flag w then log INFO StoppedByUser else log INFO AllBatchesCompleted)
    with (log INFO (if shutdown_flag w then StoppedByUser else AllBatchesCompleted))
    by (destruct (shutdown_flag w); reflexivity).
  do 3 run.
  assert (C : emits (fun e => op_event e /\ no_uninstall e) any cleanup_system).
  { unfold cleanup_system. repeat emits_step;
      try (apply emits_log; split; exact I);
      try (apply raises_subprocess_run; [intros; split; exact I | split; exact I]). }
  run_by C. run.
  match goal with
  | |- context [bind (if ?b then _ else _) _ _] =>
      replace (if b then log INFO StoppedGracefully else log INFO CompletedSuccessfully)
        with (log INFO (if b then StoppedGracefully else CompletedSuccessfully))
        by (destruct b; reflexivity)
  end.
  do 4 run.
  eexists _, _, _. split; [reflexivity|]. proj. cbn [total_apps progress banner farewell].
  split; [trace_eq|].
  assert (Hsplit : forall d, Forall (fun e => op_event e /\ no_uninstall e) d ->
                             Forall op_event d /\ Forall no_uninstall d).
  { intros d Hd. split; eapply Forall_impl; try exact Hd; simpl; tauto. }
  destruct (Hsplit _ F) as [F1 F2].
  repeat split; auto.
  - repeat (apply Forall_app; split); auto; repeat constructor;
      destruct (shutdown_flag w); try exact I;
      match goal with |- context [if ?b then _ else _] => destruct b end; exact I.
  - repeat (apply Forall_app; split); auto; repeat constructor.
  - intros Hw. rewrite S by (rewrite Hw; reflexivity). reflexivity.
Qed.

Lemma schedule_spec fuel total p w :
  0 <= processed_apps p <= total ->
  (Z.to_nat (total - processed_apps p) < fuel)%nat ->
  exists s w' d,
    schedule fuel total p w = (Ok s, w') /\
    trace w' = trace w ++ d /\
    batches total (processed_apps p) (batch_sizes d) /\
    map len (selections d) = batch_sizes d /\
    total_apps s = total /\
    processed_apps p <= processed_apps (progress s) <= total /\
    (banner s = Completed ->
     processed_apps (progress s) = total /\
     processed_apps p + sum (batch_sizes d) = total).
Proof.
  intros Hp Hfuel. unfold schedule.
  destruct (while_loop_spec total fuel p w Hp Hfuel)
    as (p' & w1 & d1 & E1 & T1 & B1 & A1 & Hp' & Hdone).
  rewrite (bind_run _ _ _ _ _ E1).
  destruct (wind_up_spec total p' w1)
    as (s & w2 & d2 & E2 & T2 & F2 & _ & Ht & Hs & Hb & _).
  exists s, w2, (d1 ++ d2). split; [exact E2|].
  split; [rewrite T2, T1, app_assoc; reflexivity|].
  quiet. repeat rewrite app_nil_r. rewrite Hs, Hb.
  repeat split; auto; try lia;
    destruct (shutdown_flag w1); try discriminate; apply Hdone; reflexivity.
Qed.

Lemma main_installation_spec w :
  exists s w' d,
    main_installation w = (Ok s, w') /\
    trace w' = trace w ++ d /\
    161 <= total_apps s <= 199 /\
    batches (total_apps s) 0 (batch_sizes d) /\
    map len (selections d) = batch_sizes d /\
    0 <= processed_apps (progress s) <= total_apps s /\
    (banner s = Completed ->
     processed_apps (progress s) = total_apps s /\
     sum (batch_sizes d) = total_apps s).
Proof.
  unfold main_installation.
  destruct (startup_spec w) as (total & w1 & d1 & E1 & Ht & T1 & F1 & _).
  rewrite (bind_run _ _ _ _ _ E1).
  destruct (schedule_spec (S (Z.to_nat total)) total (mkProgress 0 0) w1
              ltac:(simpl; lia) ltac:(simpl; lia))
    as (s & w2 & d2 & E2 & T2 & B2 & A2 & Hs & Hp & Hdone).
  simpl in B2, Hp, Hdone.
  exists s, w2, (d1 ++ d2). split; [exact E2|].
  split; [rewrite T2, T1, app_assoc; reflexivity|].
  quiet. simpl. rewrite Hs. repeat split; auto; try lia; apply Hdone; assumption.
Qed.

Lemma batches_split total : forall before processed size after,
  batches total processed (before ++ size :: after) ->
  1 <= size <= 14 /\
  (after <> [] -> 5 <= size) /\
  (size < 5 -> after = [] /\ processed + sum before + size = total).
Proof.
  induction before as [|x before IH]; intros processed size after B; simpl in *.
  - inversion B; subst.
    + repeat split; try lia.
    + repeat split; try lia; congruence.
  - inversion B as [|? ? ? Hx Hfit Hrest|? ? Hx Hfit Hnil]; subst.
    + destruct (IH _ _ _ Hrest) as (H1 & H2 & H3).
      repeat split; auto; try lia; destruct (H3 ltac:(assumption)); auto; lia.
    + destruct before; discriminate.
Qed.

(** *** The quota (C1) and the batch sizes (C6) *)

(** C1. Every run of [main_installation] returns; the quota it drew lies in
    161..199, the count of processed apps never exceeds it, and a run that
    ends as Completed (no cancellation seen when the loop is left) has
    processed exactly the quota. *)
Theorem C1_completed_run_meets_quota (w : World) :
  exists s w',
    main_installation w = (Ok s, w') /\
    161 <= total_apps s <= 199 /\
    0 <= processed_apps (progress s) <= total_apps s /\
    (banner s = Completed -> processed_apps (progress s) = total_apps s).
Proof.
  destruct (main_installation_spec w) as (s & w' & d & E & _ & Ht & _ & _ & Hp & Hdone).
  exists s, w'. repeat split; auto; try lia. intros H. apply Hdone, H.
Qed.

(** C6 is refuted as stated: a batch of fewer than 5 apps need not bring
    the count of processed apps to the quota.  With a quota of 170 and
    batches of 14, the thirteenth batch is cut down to the 2 apps that are
    left; a termination signal that arrives during its wait ends the run as
    Stopped before its uninstall, with 168 apps processed. *)
Lemma C6_clamped_batch_cancelled :
  let run := main_installation (world (Some (12400, 15)) (fun _ => 9%nat) (apt_ok 3)) in
  exists s,
    fst run = Ok s /\
    total_apps s = 170 /\
    batch_sizes (trace (snd run)) = [14; 14; 14; 14; 14; 14; 14; 14; 14; 14; 14; 14; 2] /\
    banner s = Stopped /\
    processed_apps (progress s) = 168 /\
    processed_apps (progress s) <> total_apps s.
Proof.
  vm_compute. eexists. repeat split. discriminate.
Qed.

(** C6, amended.  In every run, each batch announced in the log has as many apps as
    its announced size, between 1 and 14; every batch but the last has at
    least 5; a batch of fewer than 5 is the last one and its size is exactly
    what the earlier batches left of the quota; and in a Completed run the
    sizes add up to the quota, which is then the count of processed apps. *)
Theorem C6_batch_sizes (w : World) :
  exists s w' d,
    main_installation w = (Ok s, w') /\
    trace w' = trace w ++ d /\
    map len (selections d) = batch_sizes d /\
    (forall before size after,
        batch_sizes d = before ++ size :: after ->
        1 <= size <= 14 /\
        (after <> [] -> 5 <= size) /\
        (size < 5 -> after = [] /\ sum before + size = total_apps s)) /\
    (banner s = Completed ->
     sum (batch_sizes d) = total_apps s /\
     processed_apps (progress s) = total_apps s).
Proof.
  destruct (main_installation_spec w) as (s & w' & d & E & T & Ht & B & A & Hp & Hdone).
  exists s, w', d. repeat split; auto.
  - rewrite H in B. apply (batches_split _ _ _ _ _ B).
  - rewrite H in B. apply (batches_split _ _ _ _ _ B).
  - rewrite H in B. apply (batches_split _ _ _ _ _ B).
  - rewrite H in B. apply (batches_split _ _ _ _ _ B). assumption.
  - rewrite H in B. destruct (batches_split _ _ _ _ _ B) as (_ & _ & H3).
    destruct (H3 H0). lia.
  - apply Hdone, H.
  - apply Hdone, H.
Qed.

(** *** Cancellation during the wait (C4) *)

(** C4. Take any pass of the loop in which the batch was installed with no
    cancellation seen ([install_phase] hands the batch on) and the flag is
    set when the wait that follows is over.  Then the run ends as Stopped,
    in both closing lines of the log; the count of processed apps is what
    it was before this batch; and from the end of the install phase on, no
    [apt remove] is ever invoked. *)
Theorem C4_cancel_during_wait (fuel : nat) (total : Z) (p : Progress)
    (w w1 w2 : World) (batch_size : Z) (batch_apps : list string) :
  0 <= processed_apps p < total ->
  shutdown_flag w = false ->
  install_phase total p w = (Ok (Some (batch_size, batch_apps)), w1) ->
  waiting_phase w1 = (Ok tt, w2) ->
  shutdown_flag w2 = true ->
  exists s w' d,
    schedule (S fuel) total p w = (Ok s, w') /\
    shutdown_flag w1 = false /\
    banner s = Stopped /\ farewell s = Stopped /\
    processed_apps (progress s) = processed_apps p /\
    trace w' = trace w1 ++ d /\ Forall no_uninstall d.
Proof.
  intros Hp Hflag Einstall Ewait Hstop.
  destruct (install_phase_spec total p w Hp Hflag)
    as (r & w1' & bs & apps & d1 & E1 & _ & _ & _ & _ & _ & _ & Hr).
  rewrite Einstall in E1. injection E1 as <- <-. destruct Hr as [_ Hgo].
  destruct (emits_waiting_phase w1) as (u & w2' & dw & E2 & _ & Tw & Fw & _).
  rewrite Ewait in E2. injection E2 as <- <-.
  unfold schedule. cbn [while_loop]. rewrite bind_assoc. run.
  destruct (Z.ltb_spec (processed_apps p) total) as [_|]; [|lia].
  rewrite Hflag. cbn [andb negb].
  unfold loop_body. repeat rewrite bind_assoc.
  rewrite (bind_run _ _ _ _ _ Einstall). cbv beta iota. repeat rewrite bind_assoc.
  rewrite (bind_run _ _ _ _ _ Ewait). cbv beta. repeat rewrite bind_assoc.
  run. rewrite Hstop. repeat rewrite bind_assoc. run. do 2 run.
  match goal with
  | |- context [wind_up total ?p' ?w3] =>
      destruct (wind_up_spec total p' w3) as (s & w4 & d4 & E4 & T4 & _ & F4 & _ & Hs & Hb & Hf)
  end.
  proj_in T4. proj_in Hb. proj_in Hf.
  exists s, w4, (dw ++ [Log INFO ShutdownStopping] ++ d4).
  split; [exact E4|]. rewrite Hs, Hb, Hstop in *.
  repeat split; auto.
  - rewrite T4, Tw. repeat rewrite <- app_assoc. reflexivity.
  - apply Forall_app. split; [eapply Forall_impl; [apply idle_no_uninstall|exact Fw]|].
    constructor; [exact I|exact F4].
Qed.

(** *** The waits (C5, C10) *)

Lemma slept_app d1 d2 : slept (d1 ++ d2) = slept d1 + slept d2.
Proof. induction d1 as [|e d1 IH]; simpl; [reflexivity|]. unfold slept in *. simpl. lia. Qed.

Lemma slept_cons e d : slept (e :: d) = slept_of e + slept d.
Proof. reflexivity. Qed.

Lemma tick_wait_set n w : shutdown_flag w = true -> tick_wait n w = (Ok tt, w).
Proof.
  intros H. destruct n; [reflexivity|]. simpl. unfold bind, gets. rewrite H. reflexivity.
Qed.

Lemma time_sleep_cases s w :
  (exists t signum,
      signal_at w = Some (t, signum) /\ t <= clock w + s /\
      time_sleep s w =
        (Ok tt, mkWorld (clock w + s) true None (entropy w) (draws w) (apt w) (calls w)
                  (trace w ++ [Sleep s; Log INFO (ReceivedSignal signum)]))) \/
  (undisturbed w (clock w + s) /\
   time_sleep s w =
     (Ok tt, mkWorld (clock w + s) (shutdown_flag w) (signal_at w) (entropy w) (draws w)
               (apt w) (calls w) (trace w ++ [Sleep s]))).
Proof.
  unfold time_sleep, undisturbed, bind, emit, modify, elapse. proj.
  destruct (signal_at w) as [[t signum]|].
  - destruct (Z.leb_spec t (clock w + s)) as [Hle|Hgt].
    + left. exists t, signum. repeat split; auto.
      unfold signal_handler, bind, log, emit, modify, set_shutdown_flag. proj.
      rewrite <- app_assoc. reflexivity.
    + right. split; [lia|reflexivity].
  - right. split; [exact I|reflexivity].
Qed.

Lemma tick_wait_spec n : forall w,
  exists w' d,
    tick_wait n w = (Ok tt, w') /\
    trace w' = trace w ++ d /\ Forall tick_event d /\
    clock w' = clock w + slept d /\
    0 <= slept d <= 10 * Z.of_nat n /\
    (shutdown_flag w = true -> slept d = 0) /\
    (forall t signum, signal_at w = Some (t, signum) ->
                      clock w' <= Z.max t (clock w) + 10) /\
    (shutdown_flag w = false -> undisturbed w (clock w + 10 * Z.of_nat n) ->
     slept d = 10 * Z.of_nat n /\ shutdown_flag w' = false).
Proof.
  induction n as [|n IH]; intros w.
  - exists w, []. rewrite app_nil_r. simpl. repeat split; auto; try lia.
  - destruct (shutdown_flag w) eqn:Hflag.
    + exists w, []. rewrite app_nil_r, tick_wait_set by exact Hflag. simpl.
      repeat split; auto; try lia; discriminate.
    + cbn [tick_wait]. run. rewrite Hflag.
      destruct (time_sleep_cases 10 w) as [(t & signum & Hsig & Hle & E)|[Hun E]];
        rewrite (bind_run _ _ _ _ _ E); clear E.
      * eexists _, [Sleep 10; Log INFO (ReceivedSignal signum)].
        rewrite tick_wait_set by reflexivity.
        split; [reflexivity|]. proj. unfold undisturbed. rewrite Hsig.
        repeat rewrite slept_cons. cbn [slept_of slept fold_right].
        repeat split; auto; try lia; try discriminate.
        repeat constructor.
      * match goal with
        | |- context [tick_wait n ?w1] => destruct (IH w1)
            as (w' & d & E & T & F & C & B & _ & L & X)
        end.
        proj_in T. proj_in C. proj_in L. proj_in X. unfold undisturbed in *. proj_in X.
        rewrite Hflag in X.
        exists w', (Sleep 10 :: d). split; [exact E|].
        rewrite T, <- app_assoc, slept_cons. cbn [app slept_of].
        repeat split; auto; try lia; try discriminate.
        -- constructor; [reflexivity|exact F].
        -- intros t' s' Hsig. specialize (L t' s' Hsig). rewrite Hsig in Hun. lia.
        -- destruct X as [X _]; [reflexivity| |lia].
           destruct (signal_at w) as [[? ?]|]; auto; lia.
        -- apply X; [reflexivity|]. destruct (signal_at w) as [[? ?]|]; auto; lia.
Qed.

Lemma randint_run a b w :
  a <= b ->
  randint a b w =
    (Ok (a + Z.of_nat (entropy w (draws w)) mod (b - a + 1)),
     mkWorld (clock w) (shutdown_flag w) (signal_at w) (entropy w) (S (draws w))
       (apt w) (calls w) (trace w)).
Proof. intros H. unfold randint. destruct (Z.ltb_spec b a); [lia|reflexivity]. Qed.

Lemma randint_range a b w v w' : randint a b w = (Ok v, w') -> a <= b -> a <= v <= b.
Proof.
  intros E H. rewrite randint_run in E by exact H. injection E as <- _.
  pose proof (Z.mod_pos_bound (Z.of_nat (entropy w (draws w))) (b - a + 1)). lia.
Qed.

Lemma waiting_phase_spec w :
  exists w' d,
    waiting_phase w = (Ok tt, w') /\
    trace w' = trace w ++ d /\ Forall tick_event d /\
    clock w' = clock w + slept d /\
    (shutdown_flag w = true -> slept d = 0) /\
    (forall t signum, signal_at w = Some (t, signum) ->
                      clock w' <= Z.max t (clock w) + 10) /\
    (forall w1 w2 minutes jitter,
        randint 7 16 w = (Ok minutes, w1) -> randint 0 59 w1 = (Ok jitter, w2) ->
        shutdown_flag w = false ->
        undisturbed w (clock w + 10 * ((minutes * 60 + jitter) / 10)) ->
        slept d = 10 * ((minutes * 60 + jitter) / 10) /\ shutdown_flag w' = false).
Proof.
  unfold waiting_phase.
  rewrite (bind_run _ _ _ _ _ (randint_run 7 16 w ltac:(lia))). cbv beta.
  match goal with
  | |- context [bind (randint 0 59) _ ?w1] =>
      rewrite (bind_run _ _ _ _ _ (randint_run 0 59 w1 ltac:(lia))); cbv beta; proj
  end.
  set (minutes := 7 + Z.of_nat (entropy w (draws w)) mod (16 - 7 + 1)).
  set (jitter := 0 + Z.of_nat (entropy w (S (draws w))) mod (59 - 0 + 1)).
  assert (Hm : 7 <= minutes <= 16)
    by (subst minutes; pose proof (Z.mod_pos_bound (Z.of_nat (entropy w (draws w))) (16 - 7 + 1)); lia).
  assert (Hj : 0 <= jitter <= 59)
    by (subst jitter;
        pose proof (Z.mod_pos_bound (Z.of_nat (entropy w (S (draws w)))) (59 - 0 + 1)); lia).
  run.
  match goal with
  | |- context [tick_wait ?n ?w1] =>
      destruct (tick_wait_spec n w1) as (w' & d & E & T & F & C & B & Z0 & L & X)
  end.
  proj_in T. proj_in C. proj_in Z0. proj_in L. unfold undisturbed in *. proj_in X.
  unfold range in *. rewrite Z2Nat.id in * by (apply Z.div_pos; lia).
  exists w', (Log INFO (WaitingBeforeUninstall minutes) :: d).
  split; [exact E|]. rewrite T, <- app_assoc, slept_cons. cbn [app slept_of].
  repeat split; auto; try lia.
  - constructor; [exact I|exact F].
  - rewrite randint_run in H by lia. injection H as <- <-.
    rewrite randint_run in H0 by lia. proj_in H0. injection H0 as <- _.
    fold minutes jitter in H2 |- *. apply X; assumption.
  - rewrite randint_run in H by lia. injection H as <- <-.
    rewrite randint_run in H0 by lia. proj_in H0. injection H0 as <- _.
    fold minutes jitter in H2 |- *. apply X; assumption.
Qed.

Lemma pause_phase_spec total processed w :
  exists w' d,
    pause_phase total processed w = (Ok tt, w') /\
    trace w' = trace w ++ d /\ Forall tick_event d /\
    clock w' = clock w + slept d /\
    (shutdown_flag w = true -> slept d = 0) /\
    (forall t signum, signal_at w = Some (t, signum) ->
                      clock w' <= Z.max t (clock w) + 10) /\
    (forall w1 next_delay,
        randint 60 180 w = (Ok next_delay, w1) ->
        processed < total -> shutdown_flag w = false ->
        undisturbed w (clock w + 10 * (next_delay / 10)) ->
        slept d = 10 * (next_delay / 10) /\ shutdown_flag w' = false).
Proof.
  unfold pause_phase. run.
  destruct ((processed <? total) && negb (shutdown_flag w)) eqn:Hgo; cbn [when].
  - apply andb_prop in Hgo. destruct Hgo as [Hlt Hflag].
    apply Z.ltb_lt in Hlt. apply negb_true_iff in Hflag.
    rewrite (bind_run _ _ _ _ _ (randint_run 60 180 w ltac:(lia))). cbv beta.
    set (next_delay := 60 + Z.of_nat (entropy w (draws w)) mod (180 - 60 + 1)).
    assert (Hd : 60 <= next_delay <= 180)
      by (subst next_delay;
          pose proof (Z.mod_pos_bound (Z.of_nat (entropy w (draws w))) (180 - 60 + 1)); lia).
    run.
    match goal with
    | |- context [tick_wait ?n ?w1] =>
        destruct (tick_wait_spec n w1) as (w' & d & E & T & F & C & B & Z0 & L & X)
    end.
    proj_in T. proj_in C. proj_in Z0. proj_in L. unfold undisturbed in *. proj_in X.
    unfold range in *. rewrite Z2Nat.id in * by (apply Z.div_pos; lia).
    exists w', (Log INFO (WaitingBeforeNextBatch (next_delay / 60)) :: d).
    split; [exact E|]. rewrite T, <- app_assoc, slept_cons. cbn [app slept_of].
    repeat split; auto; try lia.
    + constructor; [exact I|exact F].
    + rewrite randint_run in H by lia. injection H as <- <-.
      fold next_delay in H2 |- *. apply X; assumption.
    + rewrite randint_run in H by lia. injection H as <- <-.
      fold next_delay in H2 |- *. apply X; assumption.
  - exists w, []. rewrite app_nil_r. split; [reflexivity|].
    change (slept []) with 0.
    repeat split; auto; try lia; try constructor.
    apply andb_false_iff in Hgo. destruct Hgo as [Hge|Hflag].
    + apply Z.ltb_ge in Hge. lia.
    + rewrite H1 in Hflag. discriminate.
Qed.

(** *** What the batch operations invoke (C2, C3) *)

Lemma subprocess_run_spec argv timeout w :
  exists w' d,
    subprocess_run argv timeout w =
      (match outcome (apt w (calls w)) with
       | Exited returncode stderr => Ok (returncode, stderr)
       | Failed e => Raise e
       end, w') /\
    trace w' = trace w ++ d /\ commands d = [(argv, timeout)] /\
    apt w' = apt w /\ calls w' = S (calls w).
Proof.
  unfold subprocess_run, bind, gets, emit, modify, elapse. proj.
  destruct (signal_at w) as [[t signum]|];
    [destruct (t <=? clock w + Z.of_nat (elapsed (apt w (calls w))))|];
    unfold signal_handler, bind, log, emit, modify, set_shutdown_flag; proj;
    destruct (outcome (apt w (calls w)));
    eexists _, _; (split; [reflexivity|]); proj;
    repeat rewrite <- app_assoc; repeat split; reflexivity.
Qed.

Lemma log_spec l m w :
  exists w',
    log l m w = (Ok tt, w') /\ trace w' = trace w ++ [Log l m] /\
    apt w' = apt w /\ calls w' = calls w.
Proof. eexists. split; [reflexivity|]. repeat split. Qed.

Lemma count_ok_ext w w' n : forall i, apt w' = apt w -> count_ok w' i n = count_ok w i n.
Proof.
  induction n as [|n IH]; intros i H; simpl; [reflexivity|].
  rewrite IH by exact H. unfold exits_zero. rewrite H. reflexivity.
Qed.

Lemma attempts_ext w w' n : forall i, apt w' = apt w -> attempts w' i n = attempts w i n.
Proof.
  induction n as [|n IH]; intros i H; simpl; [reflexivity|].
  rewrite IH by exact H. unfold returns. rewrite H. reflexivity.
Qed.

Lemma all_return_ext w w' n : forall i, apt w' = apt w -> all_return w' i n = all_return w i n.
Proof.
  induction n as [|n IH]; intros i H; simpl; [reflexivity|].
  rewrite IH by exact H. unfold returns. rewrite H. reflexivity.
Qed.

Lemma install_each_spec apps : forall c w,
  exists w' d,
    install_each apps c w = (Ok (c + count_ok w (calls w) (List.length apps)), w') /\
    trace w' = trace w ++ d /\ commands d = map install_one apps /\
    apt w' = apt w.
Proof.
  induction apps as [|app rest IH]; intros c w; cbn [install_each].
  - exists w, []. rewrite app_nil_r. simpl. rewrite Z.add_0_r. repeat split.
  - destruct (subprocess_run_spec ["apt"; "install"; "-y"; app] 300 w)
      as (w1 & d1 & E1 & T1 & C1 & A1 & N1).
    cbn [List.length count_ok]. unfold exits_zero.
    assert (Hstep : exists c' w2 d2,
      try_except
        (app_result <- subprocess_run ["apt"; "install"; "-y"; app] 300;;
         (if fst app_result =? 0 then ret (c + 1)
          else log WARNING (FailedToInstall app);; ret c))
        (fun _ : Exc => Some (log WARNING (TimeoutInstalling app);; ret c)) w = (Ok c', w2) /\
      c' = c + (if match outcome (apt w (calls w)) with
                   | Exited rc _ => rc =? 0 | Failed _ => false end then 1 else 0) /\
      trace w2 = trace w1 ++ d2 /\ commands d2 = [] /\ apt w2 = apt w1 /\ calls w2 = calls w1).
    { unfold try_except, bind at 1. rewrite E1.
      destruct (outcome (apt w (calls w))) as [rc err|e].
      - cbn [fst]. destruct (rc =? 0).
        + exists (c + 1), w1, []. rewrite app_nil_r. repeat split.
        + eexists c, _, [_]. split; [reflexivity|]. repeat split. lia.
      - eexists c, _, [_]. split; [reflexivity|]. repeat split. lia. }
    destruct Hstep as (c' & w2 & d2 & E2 & Hc & T2 & C2 & A2 & N2).
    rewrite (bind_run _ _ _ _ _ E2).
    destruct (IH c' w2) as (w3 & d3 & E3 & T3 & C3 & A3).
    exists w3, (d1 ++ d2 ++ d3). rewrite E3.
    rewrite (count_ok_ext w w2) by congruence.
    replace (calls w2) with (S (calls w)) by congruence.
    split; [f_equal; f_equal; lia|].
    split; [rewrite T3, T2, T1; repeat rewrite <- app_assoc; reflexivity|].
    repeat rewrite commands_app. rewrite C1, C2, C3.
    split; [reflexivity|congruence].
Qed.

Lemma install_batch_spec apps n t w :
  exists b w' d,
    install_batch apps n t w = (Ok b, w') /\ trace w' = trace w ++ d /\
    match outcome (apt w (calls w)) with
    | Exited returncode _ =>
        if returncode =? 0 then b = true /\ commands d = [install_all apps]
        else b = (0 <? count_ok w (S (calls w)) (List.length apps)) /\
             commands d = install_all apps :: map install_one apps
    | Failed _ => b = false /\ commands d = [install_all apps]
    end.
Proof.
  unfold install_batch. run.
  match goal with
  | |- context [try_except _ _ ?w0] =>
      destruct (subprocess_run_spec (["apt"; "install"; "-y"] ++ apps) 900 w0)
        as (w1 & d1 & E1 & T1 & C1 & A1 & N1)
  end.
  proj_in E1. proj_in T1. proj_in A1. proj_in N1.
  unfold try_except, bind at 1. rewrite E1.
  destruct (outcome (apt w (calls w))) as [rc err|e].
  - cbn [fst]. destruct (rc =? 0).
    + run. eexists true, _, _. split; [reflexivity|]. proj.
      split; [rewrite T1; repeat rewrite <- app_assoc; reflexivity|].
      repeat rewrite commands_app. rewrite C1. repeat split.
    + run.
      match goal with
      | |- context [bind (install_each apps 0) _ ?w2] =>
          destruct (install_each_spec apps 0 w2) as (w3 & d3 & E3 & T3 & C3 & A3)
      end.
      proj_in E3. proj_in T3. proj_in A3.
      rewrite (bind_run _ _ _ _ _ E3). cbv beta. run.
      eexists _, _, _. split; [reflexivity|]. proj.
      split; [rewrite T3, T1; repeat rewrite <- app_assoc; reflexivity|].
      repeat rewrite commands_app. rewrite C1, C3.
      rewrite N1. erewrite (count_ok_ext w) by (proj; exact A1).
      repeat split; simpl; rewrite ?app_nil_r; reflexivity.
  - assert (H : exists l m,
               (match e with
                | TimeoutExpired => Some (log ERROR (BatchInstallTimedOut n);; ret false)
                | _ => Some (log ERROR (BatchInstallError n e);; ret false)
                end) = Some (log l m;; ret false))
      by (destruct e; do 2 eexists; reflexivity).
    destruct H as (l & m & ->). run.
    eexists false, _, _. split; [reflexivity|]. proj.
    split; [rewrite T1; repeat rewrite <- app_assoc; reflexivity|].
    repeat rewrite commands_app. rewrite C1. repeat split.
Qed.

Lemma uninstall_each_spec apps : forall w,
  exists r w' d,
    uninstall_each apps w = (r, w') /\
    trace w' = trace w ++ d /\
    commands d = map remove_one (firstn (attempts w (calls w) (List.length apps)) apps) /\
    apt w' = apt w /\
    (if all_return w (calls w) (List.length apps) then r = Ok tt
     else exists e, r = Raise e).
Proof.
  induction apps as [|app rest IH]; intros w; cbn [uninstall_each].
  - exists (Ok tt), w, []. rewrite app_nil_r. simpl. repeat split.
  - destruct (subprocess_run_spec ["apt"; "remove"; "-y"; app] 180 w)
      as (w1 & d1 & E1 & T1 & C1 & A1 & N1).
    cbn [List.length attempts all_return]. unfold returns.
    unfold bind at 1. rewrite E1.
    destruct (outcome (apt w (calls w))) as [rc err|e].
    + destruct (IH w1) as (r & w2 & d2 & E2 & T2 & C2 & A2 & R2).
      exists r, w2, (d1 ++ d2). split; [exact E2|].
      split; [rewrite T2, T1; repeat rewrite <- app_assoc; reflexivity|].
      rewrite commands_app, C1, C2, N1.
      rewrite (attempts_ext w w1) by exact A1.
      rewrite (all_return_ext w w1), N1 in R2 by exact A1.
      repeat split; auto; congruence.
    + exists (Raise e), w1, d1. split; [reflexivity|].
      split; [exact T1|]. rewrite C1. repeat split; auto. exists e. reflexivity.
Qed.

Lemma uninstall_batch_spec apps n t w :
  exists b w' d,
    uninstall_batch apps n t w = (Ok b, w') /\ trace w' = trace w ++ d /\
    match outcome (apt w (calls w)) with
    | Exited returncode _ =>
        if returncode =? 0 then b = true /\ commands d = [remove_all apps]
        else b = all_return w (S (calls w)) (List.length apps) /\
             commands d =
               remove_all apps ::
               map remove_one (firstn (attempts w (S (calls w)) (List.length apps)) apps)
    | Failed _ => b = false /\ commands d = [remove_all apps]
    end.
Proof.
  unfold uninstall_batch. run.
  match goal with
  | |- context [try_except _ _ ?w0] =>
      destruct (subprocess_run_spec (["apt"; "remove"; "-y"] ++ apps) 600 w0)
        as (w1 & d1 & E1 & T1 & C1 & A1 & N1)
  end.
  proj_in E1. proj_in T1. proj_in A1. proj_in N1.
  assert (Hh : forall e, exists l m,
               (match e with
                | TimeoutExpired => Some (log ERROR (BatchUninstallTimedOut n);; ret false)
                | _ => Some (log ERROR (BatchUninstallError n e);; ret false)
                end) = Some (log l m;; ret false))
    by (intros e; destruct e; do 2 eexists; reflexivity).
  unfold try_except, bind at 1. rewrite E1.
  destruct (outcome (apt w (calls w))) as [rc err|e].
  - cbn [fst]. destruct (rc =? 0).
    + run. eexists true, _, _. split; [reflexivity|]. proj.
      split; [rewrite T1; repeat rewrite <- app_assoc; reflexivity|].
      repeat rewrite commands_app. rewrite C1. repeat split.
    + run.
      match goal with
      | |- context [bind (uninstall_each apps) _ ?w2] =>
          destruct (uninstall_each_spec apps w2) as (r & w3 & d3 & E3 & T3 & C3 & A3 & R3)
      end.
      proj_in E3. proj_in T3. proj_in A3. proj_in C3. proj_in R3.
      rewrite N1 in C3, R3.
      erewrite (attempts_ext w) in C3 by (proj; exact A1).
      erewrite (all_return_ext w) in R3 by (proj; exact A1).
      unfold bind at 1. rewrite E3.
      destruct (all_return w (S (calls w)) (List.length apps)).
      * subst r. eexists true, _, _. split; [reflexivity|].
        split; [rewrite T3, T1; repeat rewrite <- app_assoc; reflexivity|].
        repeat rewrite commands_app. rewrite C1, C3. repeat split.
      * destruct R3 as (e & ->). destruct (Hh e) as (l & m & ->). run.
        eexists false, _, _. split; [reflexivity|]. proj.
        split; [rewrite T3, T1; repeat rewrite <- app_assoc; reflexivity|].
        repeat rewrite commands_app. rewrite C1, C3. simpl.
        rewrite app_nil_r. repeat split.
  - destruct (Hh e) as (l & m & ->). run.
    eexists false, _, _. split; [reflexivity|]. proj.
    split; [rewrite T1; repeat rewrite <- app_assoc; reflexivity|].
    repeat rewrite commands_app. rewrite C1. repeat split.
Qed.

Lemma uninstall_batch_mirrors apps n t w :
  match outcome (apt w (calls w)) with
  | Exited returncode _ => returncode = 0
  | Failed _ => True
  end ->
  uninstall_batch apps n t w = mirror_uninstall_batch apps n t w.
Proof.
  intros H. unfold uninstall_batch, mirror_uninstall_batch. run. run.
  match goal with
  | |- context [try_except _ _ ?w0] =>
      destruct (subprocess_run_spec (["apt"; "remove"; "-y"] ++ apps) 600 w0)
        as (w1 & d1 & E1 & T1 & C1 & A1 & N1)
  end.
  proj_in E1.
  rewrite !(try_bind_run _ _ _ _ _ _ E1).
  destruct (outcome (apt w (calls w))) as [rc err|e].
  - subst rc. reflexivity.
  - reflexivity.
Qed.

(** *** The install phase (C2) *)

(** C2 is refuted as stated: when the whole-batch install call times out,
    [install_batch] logs the timeout and returns [False]; no per-item
    attempt is made. *)
Lemma C2_timeout_has_no_fallback :
  let w := world None (fun _ => 0%nat) apt_timeout in
  let apps := ["htop"; "vim"] in
  fst (install_batch apps 1 "unknown" w) = Ok false /\
  commands (trace (snd (install_batch apps 1 "unknown" w))) = [install_all apps] /\
  ~ In (install_one "htop") (commands (trace (snd (install_batch apps 1 "unknown" w)))).
Proof.
  vm_compute. repeat split. intros [H|[]]. discriminate H.
Qed.

(** C2, amended.  A reported failure of the whole-batch install call starts
    the per-item pass: one [apt install -y app] per item, in order, each with
    the 300-second timeout, and the phase reports whether at least one of
    them exited with 0.  A timeout of the whole-batch call is caught too, but
    ends the phase at once with [False] and no per-item attempt.  In every
    case the install phase returns normally, and hands the batch on to the
    wait unless cancellation was seen. *)
Theorem C2_install_failures_stay_local :
  (forall apps n t w returncode stderr,
      outcome (apt w (calls w)) = Exited returncode stderr -> returncode <> 0 ->
      exists w' d,
        install_batch apps n t w =
          (Ok (0 <? count_ok w (S (calls w)) (List.length apps)), w') /\
        trace w' = trace w ++ d /\
        commands d = install_all apps :: map install_one apps) /\
  (forall apps n t w,
      outcome (apt w (calls w)) = Failed TimeoutExpired ->
      exists w' d,
        install_batch apps n t w = (Ok false, w') /\
        trace w' = trace w ++ d /\
        commands d = [install_all apps]) /\
  (forall total p w,
      0 <= processed_apps p < total -> shutdown_flag w = false ->
      exists r w',
        install_phase total p w = (Ok r, w') /\
        (shutdown_flag w' = false -> exists batch, r = Some batch) /\
        (shutdown_flag w' = true -> r = None)).
Proof.
  split; [|split].
  - intros apps n t w rc err Hout Hrc.
    destruct (install_batch_spec apps n t w) as (b & w' & d & E & T & H).
    rewrite Hout in H. destruct (Z.eqb_spec rc 0) as [|_]; [contradiction|].
    destruct H as [-> C]. exists w', d. auto.
  - intros apps n t w Hout.
    destruct (install_batch_spec apps n t w) as (b & w' & d & E & T & H).
    rewrite Hout in H. destruct H as [-> C]. exists w', d. auto.
  - intros total p w Hp Hflag.
    destruct (install_phase_spec total p w Hp Hflag)
      as (r & w1 & bs & apps & d & E & _ & _ & _ & _ & _ & _ & Hr).
    exists r, w1. split; [exact E|].
    destruct r as [batch|].
    + destruct Hr as [_ Hgo]. split; [eauto|congruence].
    + split; [congruence|reflexivity].
Qed.

Lemma C2_witness :
  (exists w' d,
      install_batch ["htop"; "vim"] 1 "unknown" (world None (fun _ => 0%nat) apt_broken) =
        (Ok false, w') /\
      trace w' = [] ++ d /\
      commands d = [install_all ["htop"; "vim"]; install_one "htop"; install_one "vim"]) /\
  (exists w' d,
      install_batch ["htop"; "vim"] 1 "unknown" (world None (fun _ => 0%nat) apt_timeout) =
        (Ok false, w') /\
      trace w' = [] ++ d /\
      commands d = [install_all ["htop"; "vim"]]) /\
  (exists r w',
      install_phase 161 (mkProgress 0 0) (world None (fun _ => 0%nat) apt_timeout) =
        (Ok r, w') /\
      (shutdown_flag w' = false -> exists batch, r = Some batch) /\
      (shutdown_flag w' = true -> r = None)).
Proof.
  destruct C2_install_failures_stay_local as (H1 & H2 & H3).
  split; [|split].
  - apply (H1 ["htop"; "vim"] 1 "unknown" (world None (fun _ => 0%nat) apt_broken)
             100 "E: Unable to locate package" eq_refl).
    discriminate.
  - apply (H2 ["htop"; "vim"] 1 "unknown" (world None (fun _ => 0%nat) apt_timeout) eq_refl).
  - apply (H3 161 (mkProgress 0 0) (world None (fun _ => 0%nat) apt_timeout)).
    + simpl. lia.
    + reflexivity.
Defined.

(** *** The uninstall phase (C3) *)

(** C3. [uninstall_batch] fails to be the mirror image of [install_batch]:
    its per-item loop lacks the [try]/[except] and the success counter that
    the loop of [install_batch] has.  At the batch [htop], [vim], with a
    whole-batch removal that reports a failure and a removal of [htop] that
    times out, the pass ends there: [vim] is never attempted and the phase
    reports [False], where the mirror goes on and reports [True].  And with
    a package manager whose every call reports a failure, the phase reports
    [True] where the mirror, counting no success, reports [False]. *)
Lemma C3_uninstall_is_no_mirror :
  let apps := ["htop"; "vim"] in
  let stuck := world None (fun _ => 0%nat) apt_stuck_once in
  let broken := world None (fun _ => 0%nat) apt_broken in
  (fst (uninstall_batch apps 1 "unknown" stuck) = Ok false /\
   commands (trace (snd (uninstall_batch apps 1 "unknown" stuck))) =
     [remove_all apps; remove_one "htop"] /\
   fst (mirror_uninstall_batch apps 1 "unknown" stuck) = Ok true /\
   commands (trace (snd (mirror_uninstall_batch apps 1 "unknown" stuck))) =
     [remove_all apps; remove_one "htop"; remove_one "vim"]) /\
  (fst (uninstall_batch apps 1 "unknown" broken) = Ok true /\
   fst (mirror_uninstall_batch apps 1 "unknown" broken) = Ok false).
Proof. vm_compute. repeat split. Qed.

(** *** The waits (C5, C10) *)

(** C5. Both waits are made of ten-second sleeps and log lines only, and
    time passes in them only by sleeping.  A wait entered with the flag set
    does not sleep at all; and whenever the termination signal arrives at
    time [t], the wait is over by ten seconds after [t] (or after its own
    start, if the signal was already there), however long the drawn delay. *)
Theorem C5_cancellation_latency (total processed : Z) (w : World) :
  (exists w' d,
      waiting_phase w = (Ok tt, w') /\
      trace w' = trace w ++ d /\ Forall tick_event d /\
      clock w' = clock w + slept d /\
      (shutdown_flag w = true -> slept d = 0) /\
      (forall t signum, signal_at w = Some (t, signum) ->
                        clock w' <= Z.max t (clock w) + 10)) /\
  (exists w' d,
      pause_phase total processed w = (Ok tt, w') /\
      trace w' = trace w ++ d /\ Forall tick_event d /\
      clock w' = clock w + slept d /\
      (shutdown_flag w = true -> slept d = 0) /\
      (forall t signum, signal_at w = Some (t, signum) ->
                        clock w' <= Z.max t (clock w) + 10)).
Proof.
  split.
  - destruct (waiting_phase_spec w) as (w' & d & E & T & F & C & Z0 & L & _).
    exists w', d. repeat split; auto.
  - destruct (pause_phase_spec total processed w) as (w' & d & E & T & F & C & Z0 & L & _).
    exists w', d. repeat split; auto.
Qed.

Lemma C5_witness :
  let w := world (Some (123, 15)) (fun _ => 9%nat) (apt_ok 3) in
  (exists w', waiting_phase w = (Ok tt, w') /\ clock w' <= 133) /\
  (exists w', pause_phase 161 14 w = (Ok tt, w') /\ clock w' <= 133).
Proof.
  intros w. destruct (C5_cancellation_latency 161 14 w)
    as ((w1 & d1 & E1 & _ & _ & _ & _ & L1) & (w2 & d2 & E2 & _ & _ & _ & _ & L2)).
  split.
  - exists w1. split; [exact E1|]. apply (L1 123 15 eq_refl).
  - exists w2. split; [exact E2|]. apply (L2 123 15 eq_refl).
Defined.




(** *** Witnesses of C1, C4 and C6 *)

Lemma C1_witness :
  exists s w',
    main_installation (world None (fun _ => 9%nat) (apt_ok 3)) = (Ok s, w') /\
    banner s = Completed /\ processed_apps (progress s) = total_apps s.
Proof.
  destruct (C1_completed_run_meets_quota (world None (fun _ => 9%nat) (apt_ok 3)))
    as (s & w' & E & _ & _ & H).
  exists s, w'. split; [exact E|].
  assert (B : banner s = Completed).
  { vm_compute in E. injection E as <- _. reflexivity. }
  split; [exact B|exact (H B)].
Defined.

Lemma C6_witness :
  exists s w' d,
    main_installation (world None (fun _ => 9%nat) (apt_ok 3)) = (Ok s, w') /\
    trace w' = [] ++ d /\
    banner s = Completed /\ sum (batch_sizes d) = total_apps s.
Proof.
  destruct (C6_batch_sizes (world None (fun _ => 9%nat) (apt_ok 3)))
    as (s & w' & d & E & T & _ & _ & H).
  exists s, w', d. split; [exact E|]. split; [exact T|].
  assert (B : banner s = Completed).
  { vm_compute in E. injection E as <- _. reflexivity. }
  split; [exact B|exact (proj1 (H B))].
Defined.

Lemma C4_witness :
  let w := world (Some (300, 15)) (fun _ => 0%nat) (apt_ok 30) in
  exists s w' d,
    schedule 1 161 (mkProgress 0 0) w = (Ok s, w') /\
    banner s = Stopped /\ processed_apps (progress s) = 0 /\
    trace w' = trace (snd (install_phase 161 (mkProgress 0 0) w)) ++ d /\
    Forall no_uninstall d.
Proof.
  intros w.
  destruct (C4_cancel_during_wait 0 161 (mkProgress 0 0) w
              (snd (install_phase 161 (mkProgress 0 0) w))
              (snd (waiting_phase (snd (install_phase 161 (mkProgress 0 0) w))))
              5 ["htop"; "neofetch"; "btop"; "glances"; "nmon"])
    as (s & w' & d & E & _ & B & _ & P & T & F).
  - simpl. lia.
  - reflexivity.
  - vm_compute. reflexivity.
  - vm_compute. reflexivity.
  - vm_compute. reflexivity.
  - exists s, w', d. repeat split; auto.
Defined.

End SchedulerFacts.

(** ** Facts about the lock-file commands *)

Module GuardFacts.
Import Guard PyFacts.

Ltac hproj := cbn [pid_text log_lines live heeds_sigterm trace fst snd].

Ltac hrun := erewrite bind_run by reflexivity; cbv beta; hproj.

(** *** [strip] *)

Lemma rstrip_head c r : is_space c = false -> exists r', rstrip (String c r) = String c r'.
Proof.
  intros H. cbn [rstrip]. destruct (rstrip r); rewrite ?H; eauto.
Qed.

Lemma lstrip_head s : lstrip s = EmptyString \/
                      exists c r, lstrip s = String c r /\ is_space c = false.
Proof.
  induction s as [|c r IH]; [left; reflexivity|].
  cbn [lstrip]. destruct (is_space c) eqn:H; [exact IH|]. right. eauto.
Qed.

Lemma rstrip_idem s : rstrip (rstrip s) = rstrip s.
Proof.
  induction s as [|c r IH]; [reflexivity|].
  cbn [rstrip]. destruct (rstrip r) as [|c' r'] eqn:E.
  - destruct (is_space c) eqn:H; [reflexivity|]. cbn [rstrip]. rewrite H. reflexivity.
  - cbn [rstrip] in *. rewrite IH. reflexivity.
Qed.

Lemma strip_idem s : strip (strip s) = strip s.
Proof.
  unfold strip. destruct (lstrip_head s) as [E|(c & r & E & H)]; rewrite E.
  - reflexivity.
  - destruct (rstrip_head c r H) as (r' & E'). rewrite E'.
    cbn [lstrip]. rewrite H, <- E'. apply rstrip_idem.
Qed.

Lemma int_strip {S} text (h : S) :
  int (strip text) h =
    match parse_int text with
    | Some pid => (Ok pid, h)
    | None => (Raise ValueError, h)
    end.
Proof.
  unfold int, parse_int. rewrite strip_idem.
  destruct (strip text) as [|c r]; [reflexivity|].
  destruct (match String c r with
            | String "+" r0 => digits_value r0 0 false
            | String "-" r0 => option_map Z.opp (digits_value r0 0 false)
            | t => digits_value t 0 false
            end); reflexivity.
Qed.

(** *** [os.kill] *)

Lemma os_kill_probe pid h :
  os_kill pid 0 h =
    if fits_pid_t pid then
      if alive h pid then
        (Ok tt, mkHost (pid_text h) (log_lines h) (live h) (heeds_sigterm h)
                  (trace h ++ [Kill pid 0]))
      else
        (Raise OSError, mkHost (pid_text h) (log_lines h) (live h) (heeds_sigterm h)
                          (trace h ++ [Kill pid 0]))
    else (Raise OverflowError, h).
Proof.
  unfold os_kill. destruct (fits_pid_t pid); [|reflexivity].
  cbn [negb]. unfold bind, emit, modify, gets, alive. hproj.
  destruct (existsb (Z.eqb pid) (live h)); reflexivity.
Qed.

(** *** [check_existing_process] (C7) *)

(** C7. Take a lock file with a [plain] text.  When the text reads as a
    process id (a positive number) and that process is alive,
    [check_existing_process] probes it, prints its notice and answers
    [True]; the lock file, the log file and the processes are left as they
    were.  When the text reads as a process id that names no live process,
    and when [int] rejects the text, it removes the lock file and answers
    [False].  (A number that is no process id, 0 or negative, makes
    [os.kill] address a group of processes; such a lock file is not
    covered.) *)
Theorem C7_check_existing_process (h : Host) (text : string) :
  pid_text h = Some text -> plain text = true ->
  (forall pid,
      parse_int text = Some pid -> 0 < pid ->
      fits_pid_t pid = true -> alive h pid = true ->
      check_existing_process h =
        (Ok true,
         mkHost (pid_text h) (log_lines h) (live h) (heeds_sigterm h)
           (trace h ++ [Kill pid 0; Print (AnotherInstanceRunning pid);
                        Print (CheckLogFile log_file);
                        Print (IfNotRunningRemove pid_file)]))) /\
  (forall pid,
      parse_int text = Some pid -> 0 < pid -> alive h pid = false ->
      exists h',
        check_existing_process h = (Ok false, h') /\
        pid_text h' = None /\ log_lines h' = log_lines h /\ live h' = live h /\
        In (Remove pid_file) (trace h')) /\
  (parse_int text = None ->
   check_existing_process h =
     (Ok false,
      mkHost None (log_lines h) (live h) (heeds_sigterm h)
        (trace h ++ [Remove pid_file]))).
Proof.
  intros Hpid _. destruct h as [pt ll lv hd tr]. cbn [pid_text] in Hpid. subst pt.
  cbv [check_existing_process try_except bind pid_file_exists read_pid_file gets ret
         is_some pid_text].
  rewrite int_strip.
  split; [|split].
  - intros pid Hparse _ Hfits Halive. rewrite Hparse, os_kill_probe, Hfits, Halive.
    unfold print, emit, modify. hproj. repeat rewrite <- app_assoc. reflexivity.
  - intros pid Hparse _ Halive. rewrite Hparse, os_kill_probe, Halive.
    destruct (fits_pid_t pid).
    + eexists. split; [reflexivity|]. hproj.
      repeat split. apply in_or_app. right. left. reflexivity.
    + eexists. split; [reflexivity|]. hproj.
      repeat split. apply in_or_app. right. left. reflexivity.
  - intros Hparse. rewrite Hparse. reflexivity.
Qed.

(** *** [stop_process] (C8) *)

Lemma stop_process_unlocked h :
  pid_text h = None ->
  stop_process h =
    (Ok tt, mkHost None (log_lines h) (live h) (heeds_sigterm h)
              (trace h ++ [Print NoProcessRunning])).
Proof.
  intros H. destruct h as [pt ll lv hd tr]. cbn [pid_text] in H. subst pt. reflexivity.
Qed.

Lemma stop_process_unlocks h h1 : stop_process h = (Ok tt, h1) -> pid_text h1 = None.
Proof.
  destruct h as [[text|] ll lv hd tr].
  - cbv [stop_process try_except bind pid_file_exists read_pid_file gets ret is_some
           pid_text].
    rewrite int_strip. destruct (parse_int text) as [pid|].
    + cbv [os_kill try_except bind pid_file_exists gets ret is_some pid_text when
             remove_pid_file emit modify print time_sleep reap negb
             log_lines live heeds_sigterm trace SIGTERM SIGKILL Z.eqb Pos.eqb].
      destruct (fits_pid_t pid); [|discriminate].
      repeat match goal with
             | |- context [if ?b then _ else _] => destruct b
             end;
        intros H; try discriminate H; injection H as <-; reflexivity.
    + intros H. injection H as <-. reflexivity.
  - intros H. injection H as <-. reflexivity.
Qed.

(** A call of [stop_process] need not return: an id too large for [pid_t]
    makes [os.kill] raise [OverflowError], which neither [except] clause
    names; the lock file then stays. *)
Lemma stop_process_overflow :
  let h := mkHost (Some "99999999999") None [] (fun _ => true) [] in
  stop_process h = (Raise OverflowError, h).
Proof. reflexivity. Qed.

(** C8. When a call of [stop_process] has returned, the lock file is gone;
    a second call right after it returns too, prints that no process is
    running and changes nothing else: no lock file, the same log file, the
    same processes. *)
Theorem C8_stop_twice (h h1 : Host) :
  stop_process h = (Ok tt, h1) ->
  pid_text h1 = None /\
  stop_process h1 =
    (Ok tt, mkHost None (log_lines h1) (live h1) (heeds_sigterm h1)
              (trace h1 ++ [Print NoProcessRunning])).
Proof.
  intros H. pose proof (stop_process_unlocks h h1 H) as Hnone.
  split; [exact Hnone|]. apply stop_process_unlocked, Hnone.
Qed.

Lemma C8_witness :
  exists h1,
    stop_process running_host = (Ok tt, h1) /\
    pid_text h1 = None /\
    stop_process h1 =
      (Ok tt, mkHost None (log_lines h1) (live h1) (heeds_sigterm h1)
                (trace h1 ++ [Print NoProcessRunning])).
Proof.
  exists (snd (stop_process running_host)).
  assert (E : stop_process running_host = (Ok tt, snd (stop_process running_host)))
    by (vm_compute; reflexivity).
  split; [exact E|]. exact (C8_stop_twice _ _ E).
Defined.

Lemma C7_witness :
  (exists h', check_existing_process running_host = (Ok true, h') /\
              pid_text h' = Some "4242") /\
  (exists h', check_existing_process stale_host = (Ok false, h') /\ pid_text h' = None) /\
  (exists h', check_existing_process corrupt_host = (Ok false, h') /\ pid_text h' = None).
Proof.
  split; [|split].
  - destruct (C7_check_existing_process running_host "4242" eq_refl eq_refl) as (H & _ & _).
    eexists. split; [apply (H 4242); reflexivity|reflexivity].
  - destruct (C7_check_existing_process stale_host "4242" eq_refl eq_refl) as (_ & H & _).
    destruct (H 4242 eq_refl eq_refl eq_refl) as (h' & E & P & _). exists h'. auto.
  - destruct (C7_check_existing_process corrupt_host "not a pid" eq_refl eq_refl)
      as (_ & _ & H).
    eexists. split; [apply H; reflexivity|reflexivity].
Defined.

(** *** The [status] command (C9) *)

Lemma print_lines_run lines : forall h,
  print_lines lines h =
    (Ok tt, mkHost (pid_text h) (log_lines h) (live h) (heeds_sigterm h)
              (trace h ++ map (fun line => Print (LogLine (strip line))) lines)).
Proof.
  induction lines as [|line rest IH]; intros h; cbn [print_lines map].
  - destruct h. cbn. rewrite app_nil_r. reflexivity.
  - unfold bind, print, emit, modify. rewrite IH. hproj. rewrite <- app_assoc. reflexivity.
Qed.

Lemma prints_only (f : string -> OutMsg) lines : Forall is_print (map (fun l => Print (f l)) lines).
Proof. induction lines; simpl; constructor; auto. exact I. Qed.

(** C9. The [status] command reports RUNNING exactly when the lock file
    exists, whatever the processes are: for any lock file, stale or not, it
    prints "RUNNING" first, and then only prints; it sends no signal, and
    the lock file, the log file and the processes are as they were.  With no
    lock file it prints "NOT running". *)
Theorem C9_status_looks_at_the_file_only (h : Host) :
  (forall text,
      pid_text h = Some text ->
      exists d,
        status_command h =
          (Ok tt, mkHost (pid_text h) (log_lines h) (live h) (heeds_sigterm h)
                    (trace h ++ Print BackgroundRunning :: d)) /\
        Forall is_print d) /\
  (pid_text h = None ->
   exists d,
     status_command h =
       (Ok tt, mkHost (pid_text h) (log_lines h) (live h) (heeds_sigterm h)
                 (trace h ++ Print BackgroundNotRunning :: d)) /\
     Forall is_print d).
Proof.
  destruct h as [pt ll lv hd tr]. split.
  - intros text Hpid. cbn [pid_text] in Hpid. subst pt.
    cbv [status_command show_status bind pid_file_exists log_file_exists gets ret is_some
           pid_text log_lines when].
    destruct ll as [lines|].
    + cbv [print emit modify try_except bind readlines_log_file read_pid_file gets ret
             pid_text log_lines live heeds_sigterm trace].
      rewrite print_lines_run. hproj.
      eexists. split.
      * repeat rewrite <- app_assoc. cbn [app]. reflexivity.
      * repeat constructor. apply Forall_app. split; [apply prints_only|].
        repeat constructor.
    + exists []. split; [reflexivity|constructor].
  - intros Hpid. cbn [pid_text] in Hpid. subst pt.
    cbv [status_command show_status bind pid_file_exists log_file_exists gets ret is_some
           pid_text log_lines when].
    destruct ll as [lines|].
    + cbv [print emit modify try_except bind readlines_log_file read_pid_file gets ret
             pid_text log_lines live heeds_sigterm trace].
      rewrite print_lines_run. hproj.
      eexists. split.
      * repeat rewrite <- app_assoc. cbn [app]. reflexivity.
      * repeat constructor. apply Forall_app. split; [apply prints_only|].
        repeat constructor.
    + exists []. split; [reflexivity|constructor].
Qed.

Lemma C9_witness :
  parse_int "4242" = Some 4242 /\ alive stale_host 4242 = false /\
  exists d,
    status_command stale_host =
      (Ok tt, mkHost (Some "4242") (log_lines stale_host) (live stale_host)
                (heeds_sigterm stale_host) (Print BackgroundRunning :: d)) /\
    Forall is_print d.
Proof.
  split; [reflexivity|]. split; [reflexivity|].
  apply (proj1 (C9_status_looks_at_the_file_only stale_host) "4242" eq_refl).
Defined.
End GuardFacts.

(** ** More facts about the scheduler *)

Module SchedulerMore.
Import Scheduler Watch PyFacts SchedulerFacts.

Lemma housekeeping_is_op e : housekeeping e -> op_event e.
Proof. destruct e as [| |l m]; simpl; auto. Qed.

(** *** The housekeeping calls *)

(** [update_system] never raises.  It invokes [apt update] once, with the
    300-second timeout, and answers [True] when the call ended, whatever its
    return code, and [False] when it timed out or raised. *)
Theorem update_system_outcome (w : World) :
  exists w' d,
    update_system w = (Ok (returns w (calls w)), w') /\
    trace w' = trace w ++ d /\ commands d = [update_index].
Proof.
  unfold update_system. run.
  match goal with
  | |- context [try_except _ _ ?w0] =>
      destruct (subprocess_run_spec ["apt"; "update"] 300 w0)
        as (w1 & d1 & E1 & T1 & C1 & A1 & N1)
  end.
  proj_in E1. proj_in T1.
  rewrite (try_bind_run _ _ _ _ _ _ E1). unfold returns.
  destruct (outcome (apt w (calls w))) as [rc err|e].
  - cbn [fst snd]. destruct (rc =? 0); unfold try_except; run;
      eexists _, _; (split; [reflexivity|]); proj;
      (split; [rewrite T1; repeat rewrite <- app_assoc; reflexivity|]);
      repeat rewrite commands_app; rewrite C1; reflexivity.
  - assert (H : exists l m,
               (match e with
                | TimeoutExpired => Some (log ERROR UpdateTimedOut;; ret false)
                | _ => Some (log ERROR (UpdateError e);; ret false)
                end) = Some (log l m;; ret false))
      by (destruct e; do 2 eexists; reflexivity).
    destruct H as (l & m & ->). run.
    eexists _, _. split; [reflexivity|]. proj.
    split; [rewrite T1; repeat rewrite <- app_assoc; reflexivity|].
    repeat rewrite commands_app. rewrite C1. reflexivity.
Qed.

Lemma update_system_housekeeping : emits housekeeping any update_system.
Proof. unfold update_system. repeat emits_step. Qed.

Lemma cleanup_system_housekeeping : emits housekeeping any cleanup_system.
Proof. unfold cleanup_system. repeat emits_step. Qed.

Lemma cleanup_system_run (w : World) :
  exists w' d,
    cleanup_system w = (Ok tt, w') /\
    trace w' = trace w ++ d /\
    commands d = autoremove :: (if returns w (calls w) then [autoclean] else []).
Proof.
  unfold cleanup_system. run.
  match goal with
  | |- context [try_except _ _ ?w0] =>
      destruct (subprocess_run_spec ["apt"; "autoremove"; "-y"] 300 w0)
        as (w1 & d1 & E1 & T1 & C1 & A1 & N1)
  end.
  proj_in E1. proj_in T1. proj_in A1. proj_in N1.
  rewrite (try_bind_run _ _ _ _ _ _ E1). unfold returns.
  destruct (outcome (apt w (calls w))) as [rc err|e].
  - destruct (subprocess_run_spec ["apt"; "autoclean"] 180 w1)
      as (w2 & d2 & E2 & T2 & C2 & A2 & N2).
    rewrite (try_bind_run _ _ _ _ _ _ E2).
    destruct (outcome (apt w1 (calls w1))) as [rc' err'|e'].
    + unfold try_except.
      eexists _, _. split; [reflexivity|]. proj.
      split; [rewrite T2, T1; repeat rewrite <- app_assoc; reflexivity|].
      repeat rewrite commands_app. rewrite C1, C2. reflexivity.
    + eexists _, _. split; [reflexivity|]. proj.
      split; [rewrite T2, T1; repeat rewrite <- app_assoc; reflexivity|].
      repeat rewrite commands_app. rewrite C1, C2. reflexivity.
  - eexists _, _. split; [reflexivity|]. proj.
    split; [rewrite T1; repeat rewrite <- app_assoc; reflexivity|].
    repeat rewrite commands_app. rewrite C1. reflexivity.
Qed.

(** [cleanup_system] never raises.  It invokes [apt autoremove -y], and
    [apt autoclean] after it unless the first call timed out or raised; the
    return codes are not looked at.  It installs and removes no package by
    name. *)
Theorem cleanup_system_outcome (w : World) :
  exists w' d,
    cleanup_system w = (Ok tt, w') /\
    trace w' = trace w ++ d /\
    commands d = autoremove :: (if returns w (calls w) then [autoclean] else []) /\
    Forall housekeeping d.
Proof.
  destruct (cleanup_system_run w) as (w' & d & E & T & C).
  destruct (cleanup_system_housekeeping w) as ([] & w2 & d2 & E2 & _ & T2 & F2 & _).
  rewrite E in E2. injection E2 as <-.
  exists w', d. repeat split; auto.
  rewrite T in T2. apply app_inv_head in T2. subst d2. exact F2.
Qed.

(** [install_batch] never raises.  When the whole-batch call exits with 0
    the phase answers [True] after that one invocation; when the call
    raises, whatever the exception, it answers [False] after that one
    invocation. *)
Theorem install_batch_single_call (apps : list string) (n : Z) (t : string) (w : World) :
  (exists b w', install_batch apps n t w = (Ok b, w')) /\
  (forall stderr,
      outcome (apt w (calls w)) = Exited 0 stderr ->
      exists w' d,
        install_batch apps n t w = (Ok true, w') /\
        trace w' = trace w ++ d /\ commands d = [install_all apps]) /\
  (forall e,
      outcome (apt w (calls w)) = Failed e ->
      exists w' d,
        install_batch apps n t w = (Ok false, w') /\
        trace w' = trace w ++ d /\ commands d = [install_all apps]).
Proof.
  destruct (install_batch_spec apps n t w) as (b & w' & d & E & T & H).
  split; [eauto|]. split.
  - intros err Hout. rewrite Hout in H. cbn in H. destruct H as [-> C].
    exists w', d. auto.
  - intros e Hout. rewrite Hout in H. destruct H as [-> C].
    exists w', d. auto.
Qed.

Lemma install_batch_single_call_witness :
  (exists w' d,
      install_batch ["htop"] 1 "unknown" (world None (fun _ => 0%nat) (apt_ok 3)) =
        (Ok true, w') /\
      trace w' = [] ++ d /\ commands d = [install_all ["htop"]]) /\
  (exists w' d,
      install_batch ["htop"] 1 "unknown" (world None (fun _ => 0%nat) apt_timeout) =
        (Ok false, w') /\
      trace w' = [] ++ d /\ commands d = [install_all ["htop"]]).
Proof.
  destruct (install_batch_single_call ["htop"] 1 "unknown"
              (world None (fun _ => 0%nat) (apt_ok 3))) as (_ & H & _).
  destruct (install_batch_single_call ["htop"] 1 "unknown"
              (world None (fun _ => 0%nat) apt_timeout)) as (_ & _ & H').
  split; [apply (H EmptyString eq_refl)|apply (H' TimeoutExpired eq_refl)].
Defined.

(** *** A run that is cancelled before it starts *)

Lemma startup_housekeeping :
  emits housekeeping (fun total => 161 <= total <= 199) startup.
Proof.
  unfold startup.
  do 5 (emits_step; [solve [repeat emits_step]|]).
  emits_step; [apply update_system_housekeeping|].
  emits_step; [solve [repeat emits_step]|].
  eapply emits_bind; [apply emits_randint; lia|]. intros total Ht.
  emits_step; [emits_step|]. apply emits_ret. exact Ht.
Qed.

Lemma wind_up_housekeeping total p : emits housekeeping any (wind_up total p).
Proof.
  unfold wind_up.
  do 5 (emits_step; [solve [repeat emits_step]|]).
  emits_step; [apply cleanup_system_housekeeping|].
  repeat emits_step.
Qed.

(** The flag is never reset, and a run of [main_installation] that finds it
    set from the start draws no batch: it updates the package index, draws
    its quota, cleans up and ends as Stopped with nothing processed.  No
    [apt install] and no [apt remove] is invoked, no batch is announced. *)
Theorem cancelled_before_start (w : World) :
  shutdown_flag w = true ->
  exists s w' d,
    main_installation w = (Ok s, w') /\
    trace w' = trace w ++ d /\ Forall housekeeping d /\
    banner s = Stopped /\ farewell s = Stopped /\
    progress s = mkProgress 0 0 /\
    shutdown_flag w' = true.
Proof.
  intros Hflag. unfold main_installation.
  destruct (startup_housekeeping w) as (total & w1 & d1 & E1 & Ht & T1 & F1 & S1).
  rewrite (bind_run _ _ _ _ _ E1). specialize (S1 Hflag).
  unfold schedule. cbn [while_loop]. rewrite bind_assoc. run.
  rewrite S1, andb_false_r. run.
  destruct (wind_up_housekeeping total (mkProgress 0 0) w1)
    as (s & w2 & d2 & E2 & _ & T2 & F2 & S2).
  destruct (wind_up_spec total (mkProgress 0 0) w1)
    as (s' & w2' & d2' & E2' & _ & _ & _ & _ & Hp & Hb & Hf).
  rewrite E2 in E2'. injection E2' as <- <-.
  exists s, w2, (d1 ++ d2). split; [exact E2|].
  split; [rewrite T2, T1, app_assoc; reflexivity|].
  split; [apply Forall_app; auto|].
  rewrite Hb, S1. repeat split; auto.
Qed.

Lemma cancelled_before_start_witness :
  exists s w',
    main_installation
      (mkWorld 0 true None (fun _ => 0%nat) 0 (apt_ok 3) 0 []) = (Ok s, w') /\
    banner s = Stopped /\ progress s = mkProgress 0 0 /\
    Forall housekeeping (trace w').
Proof.
  destruct (cancelled_before_start
              (mkWorld 0 true None (fun _ => 0%nat) 0 (apt_ok 3) 0 []) eq_refl)
    as (s & w' & d & E & T & F & B & _ & P & _).
  exists s, w'. rewrite T. auto.
Defined.

(** *** Counting batches and apps *)

Lemma loop_body_number total p w c w' :
  loop_body total p w = (Ok c, w') ->
  batch_number (match c with Break p' => p' | Next p' => p' end) = batch_number p + 1.
Proof.
  unfold loop_body. unfold bind at 1.
  destruct (install_phase total p w) as [[[[bs apps]|]|e|] w1]; try discriminate.
  - destruct (emits_waiting_phase w1) as (u & w2 & d2 & E2 & _).
    rewrite (bind_run _ _ _ _ _ E2). run.
    destruct (shutdown_flag w2).
    + run. intros [= <- _]. reflexivity.
    + destruct (emits_uninstall_phase total p bs apps w2)
        as (p' & w3 & d3 & E3 & [_ Hn] & _).
      rewrite (bind_run _ _ _ _ _ E3). intros [= <- _]. exact Hn.
  - intros [= <- _]. reflexivity.
Qed.

Lemma sum_app l1 l2 : sum (l1 ++ l2) = sum l1 + sum l2.
Proof. unfold sum. induction l1 as [|x l1 IH]; simpl; lia. Qed.

Lemma while_loop_account total : forall fuel p w,
  0 <= processed_apps p <= total ->
  (Z.to_nat (total - processed_apps p) < fuel)%nat ->
  exists p' w' d,
    while_loop fuel total p w = (Ok p', w') /\
    trace w' = trace w ++ d /\
    batch_number p' = batch_number p + len (batch_sizes d) /\
    (processed_apps p' = processed_apps p + sum (batch_sizes d) \/
     shutdown_flag w' = true /\
     exists sizes size,
       batch_sizes d = sizes ++ [size] /\
       processed_apps p' = processed_apps p + sum sizes).
Proof.
  induction fuel as [|fuel IH]; intros p w Hp Hfuel; [lia|].
  cbn [while_loop]. run.
  destruct (Z.ltb_spec (processed_apps p) total) as [Hlt|Hge]; cbn [andb].
  - destruct (shutdown_flag w) eqn:Hflag; cbn [negb].
    + exists p, w, []. rewrite app_nil_r. split; [reflexivity|].
      split; [reflexivity|]. split; [cbn; lia|]. left. cbn. lia.
    + destruct (loop_body_spec total p w ltac:(lia) Hflag)
        as (c & w1 & bs & apps & d1 & E1 & T1 & S1 & A1 & Hlen & Hb & Hc & Hr).
      pose proof (loop_body_number _ _ _ _ _ E1) as Hn.
      rewrite (bind_run _ _ _ _ _ E1).
      destruct c as [p1|p1].
      * destruct Hr as [Hr Hstop].
        exists p1, w1, d1. split; [reflexivity|]. rewrite S1.
        split; [exact T1|]. split; [cbn; lia|].
        right. split; [exact Hstop|]. exists [], bs. split; [reflexivity|]. cbn. lia.
      * destruct (IH p1 w1 ltac:(lia) ltac:(lia))
          as (p2 & w2 & d2 & E2 & T2 & N2 & A2).
        exists p2, w2, (d1 ++ d2). split; [exact E2|].
        split; [rewrite T2, T1, app_assoc; reflexivity|].
        rewrite batch_sizes_app, S1.
        split.
        { cbn in Hn. unfold len in *. rewrite length_app, Nat2Z.inj_add. cbn [List.length].
          change (Z.of_nat 1) with 1. rewrite N2, Hn. ring. }
        destruct A2 as [A2|(Hstop & sizes & size & Hs & A2)].
        -- left. rewrite A2, Hr, sum_app. cbn. lia.
        -- right. split; [exact Hstop|]. exists (bs :: sizes), size.
           rewrite Hs. split; [reflexivity|]. rewrite A2, Hr.
           change (sum (bs :: sizes)) with (bs + sum sizes). lia.
  - exists p, w, []. rewrite app_nil_r. split; [reflexivity|].
    split; [reflexivity|]. split; [cbn; lia|]. left. cbn. lia.
Qed.

Lemma trace_delta (w w' : World) d d' :
  trace w' = trace w ++ d -> trace w' = trace w ++ d' -> d = d'.
Proof. intros H H'. rewrite H in H'. apply app_inv_head in H'. exact H'. Qed.

Lemma batches_count total : forall p l,
  batches total p l -> p + sum l = total -> l <> [] ->
  total - p <= 14 * len l /\ 5 * (len l - 1) < total - p.
Proof.
  intros p l B. induction B as [p|p bs l Hbs Hfit B IH|p bs Hbs Hfit]; intros Hs Hne.
  - congruence.
  - unfold len in *. cbn [List.length sum fold_right] in *. fold (sum l) in Hs.
    destruct l as [|x l].
    + cbn in *. lia.
    + destruct IH as [IH1 IH2]; [lia|discriminate|].
      cbn [List.length] in *. lia.
  - unfold len. cbn in *. lia.
Qed.

Lemma main_installation_account (w : World) :
  exists s w' d,
    main_installation w = (Ok s, w') /\
    trace w' = trace w ++ d /\
    batch_number (progress s) = len (batch_sizes d) /\
    (processed_apps (progress s) = sum (batch_sizes d) \/
     banner s = Stopped /\
     exists sizes size,
       batch_sizes d = sizes ++ [size] /\
       processed_apps (progress s) = sum sizes).
Proof.
  unfold main_installation.
  destruct (startup_spec w) as (total & w1 & d1 & E1 & Ht & T1 & F1 & _).
  rewrite (bind_run _ _ _ _ _ E1). unfold schedule.
  destruct (while_loop_account total (S (Z.to_nat total)) (mkProgress 0 0) w1
              ltac:(simpl; lia) ltac:(simpl; lia))
    as (p & w2 & d2 & E2 & T2 & N2 & A2).
  rewrite (bind_run _ _ _ _ _ E2).
  destruct (wind_up_spec total p w2)
    as (s & w3 & d3 & E3 & T3 & F3 & _ & _ & Hp & Hb & _).
  exists s, w3, (d1 ++ d2 ++ d3). split; [exact E3|].
  split; [rewrite T3, T2, T1; repeat rewrite <- app_assoc; reflexivity|].
  quiet. rewrite app_nil_r. cbn [app]. rewrite Hp.
  cbn [batch_number processed_apps] in *. split; [lia|].
  destruct A2 as [A2|(Hstop & sizes & size & Hs & A2)].
  - left. lia.
  - right. rewrite Hb, Hstop. split; [reflexivity|]. exists sizes, size.
    split; [exact Hs|lia].
Qed.

(** The closing figures of a run.  "Total batches processed" is the number
    of batches announced, the cancelled one included.  "Total apps" is the
    sum of the announced sizes, except that a run ending as Stopped may
    leave out the last batch: the one that was cancelled is not counted. *)
Theorem closing_figures (w : World) :
  exists s w' d,
    main_installation w = (Ok s, w') /\
    trace w' = trace w ++ d /\
    batch_number (progress s) = len (batch_sizes d) /\
    (processed_apps (progress s) = sum (batch_sizes d) \/
     banner s = Stopped /\
     exists sizes size,
       batch_sizes d = sizes ++ [size] /\
       processed_apps (progress s) = sum sizes).
Proof. exact (main_installation_account w). Qed.

(** A run that ends as Completed has taken at least 12 and at most 40
    batches: batches hold at most 14 apps, all but the last at least 5, and
    the quota lies in 161..199. *)
Theorem completed_run_batch_count (w : World) :
  exists s w',
    main_installation w = (Ok s, w') /\
    (banner s = Completed -> 12 <= batch_number (progress s) <= 40).
Proof.
  destruct (main_installation_spec w) as (s & w' & d & E & T & Ht & B & _ & _ & Hdone).
  destruct (main_installation_account w) as (s' & w'' & d' & E' & T' & N & _).
  rewrite E in E'. injection E' as <- <-.
  rewrite <- (trace_delta _ _ _ _ T T') in N.
  exists s, w'. split; [exact E|]. intros Hb.
  destruct (Hdone Hb) as [_ Hsum].
  destruct (batches_count _ _ _ B) as [H1 H2]; [lia| |lia].
  intros Hnil. rewrite Hnil in Hsum. cbn in Hsum. lia.
Qed.

Lemma completed_run_batch_count_witness :
  exists s w',
    main_installation (world None (fun _ => 9%nat) (apt_ok 3)) = (Ok s, w') /\
    banner s = Completed /\ 12 <= batch_number (progress s) <= 40.
Proof.
  destruct (completed_run_batch_count (world None (fun _ => 9%nat) (apt_ok 3)))
    as (s & w' & E & H).
  exists s, w'. split; [exact E|].
  assert (B : banner s = Completed).
  { vm_compute in E. injection E as <- _. reflexivity. }
  split; [exact B|exact (H B)].
Defined.

(** *** The batch that is drawn *)

Lemma remove_nth_perm {A} (d : A) : forall l i,
  (i < List.length l)%nat -> Permutation l (nth i l d :: remove_nth i l).
Proof.
  induction l as [|x l IH]; intros i Hi; [simpl in Hi; lia|].
  destruct i as [|i]; [reflexivity|].
  cbn [nth remove_nth]. simpl in Hi.
  eapply perm_trans; [apply perm_skip, (IH i); lia|apply perm_swap].
Qed.

Lemma sample_from_distinct P k : forall pool,
  NoDup pool -> (k <= List.length pool)%nat ->
  emits P (fun l => NoDup l /\ incl l pool /\ List.length l = k) (sample_from k pool).
Proof.
  induction k as [|k IH]; intros pool Hnd Hk; cbn [sample_from].
  - apply emits_ret. repeat split; [constructor|intros x []].
  - destruct pool as [|x pool]; [simpl in Hk; lia|].
    eapply emits_bind; [apply emits_draw|]. intros r _.
    set (i := (r mod List.length (x :: pool))%nat).
    assert (Hi : (i < List.length (x :: pool))%nat)
      by (apply Nat.mod_upper_bound; discriminate).
    pose proof (remove_nth_perm EmptyString (x :: pool) i Hi) as Hperm.
    pose proof (Permutation_NoDup Hperm Hnd) as Hnd'.
    inversion Hnd' as [|? ? Hnotin Hrest]; subst.
    eapply emits_bind.
    + apply IH; [exact Hrest|].
      rewrite remove_nth_length by exact Hi. simpl in *. lia.
    + intros rest (Hr1 & Hr2 & Hr3). apply emits_ret. repeat split.
      * constructor; [|exact Hr1]. intros Hin. apply Hnotin, Hr2, Hin.
      * intros y [<-|Hy].
        -- apply nth_In. exact Hi.
        -- apply (Permutation_in _ (Permutation_sym Hperm)). right. apply Hr2, Hy.
      * simpl. congruence.
Qed.

Lemma catalog_distinct : NoDup ALL_USEFUL_APPS.
Proof.
  assert (E : nodup string_dec ALL_USEFUL_APPS = ALL_USEFUL_APPS)
    by (vm_compute; reflexivity).
  rewrite <- E. apply NoDup_nodup.
Qed.

Lemma random_sample_distinct P population k :
  NoDup population -> 0 <= k <= len population ->
  emits P (fun l => NoDup l /\ incl l population /\ len l = k)
    (random_sample population k).
Proof.
  intros Hnd Hk. unfold random_sample, len in *.
  destruct (Z.ltb_spec k 0); [lia|].
  destruct (Z.ltb_spec (Z.of_nat (List.length population)) k); [lia|]. cbn [orb].
  intros w.
  destruct (sample_from_distinct P (Z.to_nat k) population Hnd ltac:(lia) w)
    as (l & w' & d & E & (H1 & H2 & H3) & T & F & S).
  exists l, w', d. repeat split; auto. rewrite H3. lia.
Qed.

(** [random.sample] as the scheduler uses it: a request for more elements
    than the population holds, or for a negative number of them, raises
    [ValueError] and draws nothing; any other request on a population
    without duplicates yields that many elements of it, no two the same,
    and leaves no trace. *)
Theorem random_sample_contract (population : list string) (k : Z) (w : World) :
  (k < 0 \/ len population < k -> random_sample population k w = (Raise ValueError, w)) /\
  (0 <= k <= len population -> NoDup population ->
   exists apps w',
     random_sample population k w = (Ok apps, w') /\
     len apps = k /\ NoDup apps /\ incl apps population /\ trace w' = trace w).
Proof.
  split.
  - intros H. unfold random_sample, len in *.
    destruct (Z.ltb_spec k 0); [reflexivity|].
    destruct (Z.ltb_spec (Z.of_nat (List.length population)) k); [reflexivity|lia].
  - intros Hk Hnd.
    destruct (random_sample_distinct (fun _ => False) population k Hnd Hk w)
      as (l & w' & d & E & (H1 & H2 & H3) & T & F & _).
    exists l, w'. repeat split; auto.
    destruct d as [|e d]; [rewrite app_nil_r in T; exact T|].
    inversion F as [|? ? []].
Qed.

Lemma random_sample_contract_witness :
  random_sample ["a"; "b"] 3 (world None (fun _ => 0%nat) (apt_ok 3)) =
    (Raise ValueError, world None (fun _ => 0%nat) (apt_ok 3)) /\
  exists apps w',
    random_sample ALL_USEFUL_APPS 14 (world None (fun _ => 0%nat) (apt_ok 3)) =
      (Ok apps, w') /\
    len apps = 14 /\ NoDup apps /\ incl apps ALL_USEFUL_APPS /\ trace w' = [].
Proof.
  split.
  - apply (proj1 (random_sample_contract ["a"; "b"] 3 _)). right. cbn. lia.
  - destruct (proj2 (random_sample_contract ALL_USEFUL_APPS 14
                       (world None (fun _ => 0%nat) (apt_ok 3))))
      as (apps & w' & E & H); [rewrite catalog_size; lia|exact catalog_distinct|].
    exists apps, w'. split; [exact E|exact H].
Defined.

(** Every batch that [install_phase] hands on to the wait is made of
    distinct names of the catalog, as many as the announced batch size (the
    catalog holds 256 distinct names, so the sample is never cut short), and
    the first thing invoked for it is the whole-batch install of exactly
    these names, followed by nothing or by one install per name. *)
Theorem batch_is_drawn_from_catalog (total : Z) (p : Progress) (w w1 : World)
    (batch_size : Z) (batch_apps : list string) :
  0 <= processed_apps p < total ->
  install_phase total p w = (Ok (Some (batch_size, batch_apps)), w1) ->
  len batch_apps = batch_size /\ NoDup batch_apps /\ incl batch_apps ALL_USEFUL_APPS /\
  exists d,
    trace w1 = trace w ++ d /\
    (commands d = [install_all batch_apps] \/
     commands d = install_all batch_apps :: map install_one batch_apps).
Proof.
  intros Hp. unfold install_phase. run.
  destruct (shutdown_flag w) eqn:Hflag.
  { run. discriminate. }
  rewrite (bind_run _ _ _ _ _ (randint_run 5 14 w ltac:(lia))). cbv beta.
  set (drawn := 5 + Z.of_nat (entropy w (draws w)) mod (14 - 5 + 1)).
  assert (Hd : 5 <= drawn <= 14)
    by (subst drawn;
        pose proof (Z.mod_pos_bound (Z.of_nat (entropy w (draws w))) (14 - 5 + 1)); lia).
  destruct (clamped_size total (processed_apps p) drawn Hp Hd) as [Hb _].
  set (bs := if total <? processed_apps p + drawn then total - processed_apps p else drawn)
    in *.
  match goal with
  | |- context [bind (random_sample _ _) _ ?w0] =>
      destruct (random_sample_distinct (fun _ => False) ALL_USEFUL_APPS
                  (Z.min bs (len ALL_USEFUL_APPS)) catalog_distinct
                  ltac:(rewrite catalog_size; lia) w0)
        as (apps & w2 & d2 & E2 & (H1 & H2 & H3) & T2 & F2 & _)
  end.
  rewrite (bind_run _ _ _ _ _ E2). cbv beta. proj_in T2.
  assert (d2 = []) as -> by (destruct d2 as [|e d2]; [reflexivity|inversion F2 as [|? ? []]]).
  rewrite app_nil_r in T2.
  do 5 run.
  match goal with
  | |- context [bind (install_batch _ _ _) _ ?w0] =>
      destruct (install_batch_spec apps (batch_number p + 1) "unknown" w0)
        as (ok & w3 & d3 & E3 & T3 & C3)
  end.
  rewrite (bind_run _ _ _ _ _ E3). cbv beta. proj_in T3.
  assert (Hcmd : commands d3 = [install_all apps] \/
                 commands d3 = install_all apps :: map install_one apps).
  { destruct (outcome _) as [rc err|e] in C3.
    - destruct (rc =? 0); destruct C3 as [_ C3]; auto.
    - destruct C3 as [_ C3]; auto. }
  clear C3 E3.
  match goal with
  | |- context [bind (if ok then ?a else ?b) _ _] =>
      assert (L : emits idle_event any (if ok then a else b)) by (destruct ok; emits_step)
  end.
  run_by L. clear L. run.
  match goal with
  | |- context [if shutdown_flag ?w0 then _ else _] => destruct (shutdown_flag w0)
  end.
  { run. discriminate. }
  intros [= <- <- <-].
  split; [rewrite H3, catalog_size; lia|]. split; [exact H1|]. split; [exact H2|].
  eexists. split; [trace_eq|].
  repeat rewrite commands_app.
  match goal with
  | H : Forall idle_event ?d |- _ => rewrite (idle_commands d H)
  end.
  cbn [commands flat_map command_of app]. rewrite app_nil_r.
  fold (commands d3). exact Hcmd.
Qed.

Lemma batch_is_drawn_from_catalog_witness :
  let w := world None (fun _ => 0%nat) (apt_ok 3) in
  exists apps w1,
    install_phase 161 (mkProgress 0 0) w = (Ok (Some (5, apps)), w1) /\
    len apps = 5 /\ NoDup apps /\ incl apps ALL_USEFUL_APPS.
Proof.
  intros w.
  exists ["htop"; "neofetch"; "btop"; "glances"; "nmon"],
         (snd (install_phase 161 (mkProgress 0 0) w)).
  assert (E : install_phase 161 (mkProgress 0 0) w =
              (Ok (Some (5, ["htop"; "neofetch"; "btop"; "glances"; "nmon"])),
               snd (install_phase 161 (mkProgress 0 0) w)))
    by (vm_compute; reflexivity).
  split; [exact E|].
  destruct (batch_is_drawn_from_catalog 161 (mkProgress 0 0) w _ 5 _
              ltac:(simpl; lia) E) as (H1 & H2 & H3 & _).
  auto.
Defined.

(** *** The cleanup after every fifth batch *)

Lemma uninstall_each_no_cleanup apps : raises no_cleanup any (uninstall_each apps).
Proof.
  induction apps as [|app rest IH]; simpl.
  - repeat emits_step.
  - emits_step; [emits_step|apply IH].
Qed.

Lemma uninstall_batch_no_cleanup apps n t : emits no_cleanup any (uninstall_batch apps n t).
Proof.
  unfold uninstall_batch. repeat emits_step. apply uninstall_each_no_cleanup.
Qed.

Lemma idle_no_cleanup e : idle_event e -> no_cleanup e.
Proof. destruct e as [| |l m]; simpl; tauto. Qed.

Lemma uninstall_phase_no_cleanup total p bs apps :
  (batch_number p + 1) mod 5 <> 0 ->
  emits no_cleanup any (uninstall_phase total p bs apps).
Proof.
  intros H. unfold uninstall_phase.
  apply Z.eqb_neq in H. rewrite H. cbn [andb when].
  eapply emits_bind; [apply uninstall_batch_no_cleanup|]. intros ok _.
  eapply emits_bind with (Q := any); [destruct ok; emits_step|]. intros _ _.
  eapply emits_bind.
  { eapply emits_sub; [apply idle_no_cleanup| |apply emits_pause_phase]. intros a Ha; exact Ha. }
  intros _ _. repeat emits_step.
Qed.

(** The housekeeping between batches: [apt autoremove] and [apt autoclean]
    are never invoked after a batch whose number is not a multiple of 5; and
    after a batch whose number is one, [apt autoremove] is invoked unless
    cancellation has been seen by then. *)
Theorem cleanup_every_fifth_batch (total : Z) (p : Progress) (batch_size : Z)
    (batch_apps : list string) (w : World) :
  exists p' w' d,
    uninstall_phase total p batch_size batch_apps w = (Ok p', w') /\
    trace w' = trace w ++ d /\
    ((batch_number p + 1) mod 5 <> 0 -> Forall no_cleanup d) /\
    ((batch_number p + 1) mod 5 = 0 -> shutdown_flag w' = false ->
     In autoremove (commands d)).
Proof.
  destruct (emits_uninstall_phase total p batch_size batch_apps w)
    as (p' & w' & d & E & _ & T & _ & _).
  exists p', w', d. split; [exact E|]. split; [exact T|]. split.
  - intros H.
    destruct (uninstall_phase_no_cleanup total p batch_size batch_apps H w)
      as (p2 & w2 & d2 & E2 & _ & T2 & F2 & _).
    rewrite E in E2. injection E2 as <- <-.
    rewrite (trace_delta _ _ _ _ T T2). exact F2.
  - intros H Hflag. revert E. unfold uninstall_phase.
    apply Z.eqb_eq in H. rewrite H. cbn [andb].
    run_by (emits_uninstall_batch batch_apps (batch_number p + 1) "unknown").
    match goal with
    | |- context [bind (if ?b then ?a1 else ?a2) _ _] =>
        assert (L : emits op_event any (if b then a1 else a2)) by (destruct b; emits_step)
    end.
    run_by L. clear L.
    run_by (emits_pause_phase total (processed_apps p + batch_size)).
    run.
    match goal with
    | |- context [negb (shutdown_flag ?w3)] => destruct (shutdown_flag w3) eqn:Hstop
    end; cbn [negb when].
    + run. intros [= _ <-]. congruence.
    + match goal with
      | |- context [bind cleanup_system _ ?w3] =>
          destruct (cleanup_system_run w3) as (w4 & d4 & E4 & T4 & C4)
      end.
      rewrite (bind_run _ _ _ _ _ E4). cbv beta. intros [= _ <-].
      assert (Hd : trace w4 = trace w ++ d) by exact T.
      revert Hd. rewrite T4.
      repeat match goal with
             | H : trace ?w0 = _ |- context [trace ?w0] => rewrite H
             end.
      repeat rewrite <- app_assoc. intros Hd. apply app_inv_head in Hd. subst d.
      repeat rewrite commands_app. rewrite C4.
      repeat (apply in_or_app; right). left. reflexivity.
Qed.

Lemma cleanup_every_fifth_batch_witness :
  let w := world None (fun _ => 0%nat) (apt_ok 3) in
  (exists p' w' d,
      uninstall_phase 161 (mkProgress 0 0) 5 ["htop"] w = (Ok p', w') /\
      trace w' = [] ++ d /\ Forall no_cleanup d) /\
  (exists p' w' d,
      uninstall_phase 161 (mkProgress 20 4) 5 ["htop"] w = (Ok p', w') /\
      trace w' = [] ++ d /\ In autoremove (commands d)).
Proof.
  intros w. split.
  - destruct (cleanup_every_fifth_batch 161 (mkProgress 0 0) 5 ["htop"] w)
      as (p' & w' & d & E & T & H & _).
    exists p', w', d. split; [exact E|]. split; [exact T|]. apply H. discriminate.
  - destruct (cleanup_every_fifth_batch 161 (mkProgress 20 4) 5 ["htop"] w)
      as (p' & w' & d & E & T & _ & H).
    exists p', w', d. split; [exact E|]. split; [exact T|]. apply H; [reflexivity|].
    vm_compute in E. injection E as _ <-. reflexivity.
Defined.
End SchedulerMore.

(** ** More facts about the lock-file commands *)

Module GuardMore.
Import Guard PyFacts GuardFacts.



(** *** [check_existing_process] *)

Lemma check_existing_process_run h :
  check_existing_process h =
    match pid_text h with
    | None => (Ok false, h)
    | Some text =>
        match parse_int text with
        | Some pid =>
            if fits_pid_t pid then
              if alive h pid then
                (Ok true,
                 mkHost (pid_text h) (log_lines h) (live h) (heeds_sigterm h)
                   (trace h ++ [Kill pid 0; Print (AnotherInstanceRunning pid);
                                Print (CheckLogFile log_file);
                                Print (IfNotRunningRemove pid_file)]))
              else
                (Ok false,
                 mkHost None (log_lines h) (live h) (heeds_sigterm h)
                   (trace h ++ [Kill pid 0; Remove pid_file]))
            else
              (Ok false,
               mkHost None (log_lines h) (live h) (heeds_sigterm h)
                 (trace h ++ [Remove pid_file]))
        | None =>
            (Ok false,
             mkHost None (log_lines h) (live h) (heeds_sigterm h)
               (trace h ++ [Remove pid_file]))
        end
    end.
Proof.
  destruct h as [[text|] ll lv hd tr]; [|reflexivity].
  cbv [check_existing_process try_except bind pid_file_exists read_pid_file gets ret
         is_some pid_text].
  rewrite int_strip. destruct (parse_int text) as [pid|]; [|reflexivity].
  rewrite os_kill_probe. hproj.
  destruct (fits_pid_t pid); [|reflexivity].
  destruct (alive _ pid).
  - unfold print, emit, modify. hproj. repeat rewrite <- app_assoc. reflexivity.
  - cbv [remove_pid_file bind gets emit modify pid_text log_lines live heeds_sigterm trace].
    rewrite <- app_assoc. reflexivity.
Qed.

(** *** [stop_process] *)

Lemma os_kill_run pid sig h :
  os_kill pid sig h =
    let told := mkHost (pid_text h) (log_lines h) (live h) (heeds_sigterm h)
                  (trace h ++ [Kill pid sig]) in
    let reaped := mkHost (pid_text h) (log_lines h)
                    (filter (fun q => negb (Z.eqb pid q)) (live h))
                    (heeds_sigterm h) (trace h ++ [Kill pid sig]) in
    if fits_pid_t pid then
      if alive h pid then
        (Ok tt,
         if sig =? SIGKILL then reaped
         else if sig =? SIGTERM then (if heeds_sigterm h pid then reaped else told)
         else told)
      else (Raise OSError, told)
    else (Raise OverflowError, h).
Proof.
  unfold os_kill. destruct (fits_pid_t pid); [|reflexivity].
  cbn [negb]. unfold bind, emit, modify, gets, alive, reap, when, ret. hproj.
  destruct (existsb (Z.eqb pid) (live h)); [|reflexivity]. cbn [negb].
  destruct (sig =? SIGKILL); [reflexivity|].
  destruct (sig =? SIGTERM); [|reflexivity]. hproj.
  destruct (heeds_sigterm h pid); reflexivity.
Qed.



(** Lock files [stop_process] cannot use, for a [plain] text.  A text that
    [int] rejects is reported as invalid and the file is removed, no signal
    being sent.  A process id (a positive number) that names no process
    makes the SIGTERM fail; the error is reported and the file removed.  A
    number that does not fit a process id makes [os.kill] raise
    [OverflowError], which [stop_process] does not catch: the call fails
    and the lock file stays. *)
Theorem stop_process_on_unusable_lock (h : Host) (text : string) :
  pid_text h = Some text -> plain text = true ->
  (parse_int text = None ->
   stop_process h =
     (Ok tt, mkHost None (log_lines h) (live h) (heeds_sigterm h)
               (trace h ++ [Print InvalidPidFile; Remove pid_file]))) /\
  (forall pid,
      parse_int text = Some pid -> 0 < pid ->
      fits_pid_t pid = true -> alive h pid = false ->
      stop_process h =
        (Ok tt, mkHost None (log_lines h) (live h) (heeds_sigterm h)
                  (trace h ++ [Kill pid SIGTERM; Print (ErrorStopping OSError);
                               Remove pid_file]))) /\
  (forall pid,
      parse_int text = Some pid -> fits_pid_t pid = false ->
      stop_process h = (Raise OverflowError, h)).
Proof.
  intros Hpid _. destruct h as [pt ll lv hd tr]. cbn [pid_text] in Hpid. subst pt. hproj.
  unfold stop_process. hrun. cbn [is_some].
  erewrite try_bind_run by reflexivity. cbv beta iota.
  split; [|split].
  - intros Hparse.
    erewrite try_bind_run by (rewrite int_strip, Hparse; reflexivity). cbv beta iota.
    cbv [print emit modify bind pid_file_exists gets when remove_pid_file ret is_some
           pid_text log_lines live heeds_sigterm trace].
    repeat rewrite <- app_assoc. reflexivity.
  - intros pid Hparse _ Hfits Halive. unfold alive in Halive. cbn [live] in Halive.
    erewrite try_bind_run by (rewrite int_strip, Hparse; reflexivity). cbv beta iota.
    erewrite try_bind_run
      by (rewrite os_kill_run; unfold alive; hproj; rewrite Hfits, Halive; reflexivity).
    cbv beta iota zeta.
    cbv [print emit modify bind pid_file_exists gets when remove_pid_file ret is_some
           pid_text log_lines live heeds_sigterm trace].
    repeat rewrite <- app_assoc. reflexivity.
  - intros pid Hparse Hfits.
    erewrite try_bind_run by (rewrite int_strip, Hparse; reflexivity). cbv beta iota.
    erewrite try_bind_run by (rewrite os_kill_run; rewrite Hfits; reflexivity).
    reflexivity.
Qed.

Lemma stop_process_on_unusable_lock_witness :
  (exists h', stop_process corrupt_host = (Ok tt, h') /\ pid_text h' = None) /\
  (exists h', stop_process stale_host = (Ok tt, h') /\ pid_text h' = None) /\
  stop_process (mkHost (Some "99999999999") None [] (fun _ => true) []) =
    (Raise OverflowError, mkHost (Some "99999999999") None [] (fun _ => true) []).
Proof.
  split; [|split].
  - eexists. split.
    + apply (proj1 (stop_process_on_unusable_lock corrupt_host "not a pid"
                      eq_refl eq_refl)).
      reflexivity.
    + reflexivity.
  - eexists. split.
    + apply (proj1 (proj2 (stop_process_on_unusable_lock stale_host "4242"
                             eq_refl eq_refl)) 4242);
        reflexivity.
    + reflexivity.
  - apply (proj2 (proj2 (stop_process_on_unusable_lock
                           (mkHost (Some "99999999999") None [] (fun _ => true) [])
                           "99999999999" eq_refl eq_refl)) 99999999999); reflexivity.
Defined.

(** After a call of [stop_process] that has returned, the check made by
    [start] finds no instance running, and leaves everything as it is. *)
Theorem stop_then_check (h h1 : Host) :
  stop_process h = (Ok tt, h1) -> check_existing_process h1 = (Ok false, h1).
Proof.
  intros H. rewrite check_existing_process_run.
  rewrite (stop_process_unlocks h h1 H). reflexivity.
Qed.

Lemma stop_then_check_witness :
  exists h1,
    stop_process running_host = (Ok tt, h1) /\
    check_existing_process h1 = (Ok false, h1).
Proof.
  exists (snd (stop_process running_host)).
  assert (E : stop_process running_host = (Ok tt, snd (stop_process running_host)))
    by (vm_compute; reflexivity).
  split; [exact E|exact (stop_then_check _ _ E)].
Defined.

(** *** [cleanup_pid_file] *)

Lemma cleanup_pid_file_run h :
  cleanup_pid_file h =
    (Ok tt,
     match pid_text h with
     | Some _ =>
         mkHost None (log_lines h) (live h) (heeds_sigterm h) (trace h ++ [Remove pid_file])
     | None => h
     end).
Proof. destruct h as [[text|] ll lv hd tr]; reflexivity. Qed.

(** *** [show_status] *)

Lemma last10_suffix {A} (lines : list A) :
  (List.length (last10 lines) = Nat.min 10 (List.length lines))%nat /\
  exists older, lines = older ++ last10 lines.
Proof.
  unfold last10. split.
  - rewrite length_skipn. lia.
  - exists (firstn (List.length lines - 10) lines). symmetry. apply firstn_skipn.
Qed.

End GuardMore.

(** ** Facts about going into the background *)

Module LaunchFacts.
Import Guard Launch PyFacts GuardFacts GuardMore.

(** *** [str] and [int] *)

Lemma digit_cases d : 0 <= d < 10 ->
  d = 0 \/ d = 1 \/ d = 2 \/ d = 3 \/ d = 4 \/ d = 5 \/ d = 6 \/ d = 7 \/ d = 8 \/ d = 9.
Proof. lia. Qed.

Lemma digit_of_char d : 0 <= d < 10 -> digit_of (digit_char d) = Some d.
Proof.
  intros H. destruct (digit_cases d H) as [->|[->|[->|[->|[->|[->|[->|[->|[->| ->]]]]]]]]];
    reflexivity.
Qed.

Lemma digit_char_solid d : 0 <= d < 10 -> is_space (digit_char d) = false.
Proof.
  intros H. destruct (digit_cases d H) as [->|[->|[->|[->|[->|[->|[->|[->|[->| ->]]]]]]]]];
    reflexivity.
Qed.

Lemma log2_tenth n : 10 <= n -> Z.log2 (n / 10) < Z.log2 n.
Proof.
  intros H.
  assert (Hm : 0 < n / 10) by (apply Z.div_str_pos; lia).
  pose proof (Z.log2_double (n / 10) Hm) as Hd.
  assert (Hle : 2 * (n / 10) <= n) by (Z.div_mod_to_equations; lia).
  pose proof (Z.log2_le_mono _ _ Hle). lia.
Qed.

Lemma decimal_value : forall fuel n acc,
  0 <= n -> Z.log2 n < Z.of_nat fuel ->
  digits_value (decimal fuel n acc) 0 false = digits_value acc n true.
Proof.
  induction fuel as [|fuel IH]; intros n acc Hn Hfuel.
  - pose proof (Z.log2_nonneg n). simpl in Hfuel. lia.
  - cbn [decimal].
    assert (Hd : 0 <= n mod 10 < 10) by (apply Z.mod_pos_bound; lia).
    destruct (Z.ltb_spec n 10) as [Hlt|Hge].
    + cbn [digits_value]. rewrite digit_of_char by exact Hd.
      rewrite Z.mod_small by lia. f_equal.
    + rewrite IH; [|apply Z.div_pos; lia|pose proof (log2_tenth n Hge); lia].
      cbn [digits_value]. rewrite digit_of_char by exact Hd.
      f_equal. Z.div_mod_to_equations. lia.
Qed.

Lemma decimal_solid : forall fuel n acc,
  0 <= n -> solid acc = true -> solid (decimal fuel n acc) = true.
Proof.
  induction fuel as [|fuel IH]; intros n acc Hn Hacc; [exact Hacc|].
  cbn [decimal].
  assert (Hd : 0 <= n mod 10 < 10) by (apply Z.mod_pos_bound; lia).
  assert (Hs : solid (String (digit_char (n mod 10)) acc) = true)
    by (cbn [solid]; rewrite digit_char_solid, Hacc by exact Hd; reflexivity).
  destruct (n <? 10); [exact Hs|]. apply IH; [apply Z.div_pos; lia|exact Hs].
Qed.

Lemma decimal_head : forall fuel n acc,
  0 <= n ->
  exists d r, 0 <= d < 10 /\ decimal (S fuel) n acc = String (digit_char d) r.
Proof.
  induction fuel as [|fuel IH]; intros n acc Hn.
  - cbn [decimal]. exists (n mod 10), acc.
    split; [apply Z.mod_pos_bound; lia|]. destruct (n <? 10); reflexivity.
  - cbn [decimal] in *. destruct (n <? 10).
    + exists (n mod 10), acc. split; [apply Z.mod_pos_bound; lia|reflexivity].
    + apply IH. apply Z.div_pos; lia.
Qed.

Lemma solid_strip s : solid s = true -> strip s = s.
Proof.
  intros H. unfold strip.
  assert (Hl : lstrip s = s).
  { destruct s as [|c r]; [reflexivity|]. cbn [solid] in H. cbn [lstrip].
    apply andb_prop in H. destruct H as [H _]. apply negb_true_iff in H.
    rewrite H. reflexivity. }
  rewrite Hl. clear Hl. induction s as [|c r IH]; [reflexivity|].
  cbn [solid] in H. apply andb_prop in H. destruct H as [Hc Hr].
  apply negb_true_iff in Hc. cbn [rstrip]. rewrite (IH Hr).
  destruct r; [rewrite Hc|]; reflexivity.
Qed.

Lemma parse_digits d r :
  0 <= d < 10 ->
  solid r = true ->
  parse_int (String (digit_char d) r) = digits_value (String (digit_char d) r) 0 false.
Proof.
  intros Hd Hr. unfold parse_int. rewrite solid_strip.
  - destruct (digit_cases d Hd) as [->|[->|[->|[->|[->|[->|[->|[->|[->| ->]]]]]]]]];
      reflexivity.
  - cbn [solid]. rewrite digit_char_solid, Hr by exact Hd. reflexivity.
Qed.

Lemma str_solid n : solid (str n) = true.
Proof.
  unfold str. destruct (Z.ltb_spec n 0).
  - cbn [solid]. rewrite decimal_solid by (reflexivity || lia). reflexivity.
  - apply decimal_solid; [lia|reflexivity].
Qed.

Lemma int_of_str n : parse_int (str n) = Some n.
Proof.
  unfold str. destruct (Z.ltb_spec n 0) as [Hneg|Hpos].
  - unfold parse_int. rewrite solid_strip.
    + rewrite decimal_value; [|lia|rewrite Nat2Z.inj_succ, Z2Nat.id; [lia|apply Z.log2_nonneg]].
      cbn. f_equal. lia.
    + cbn [solid]. rewrite decimal_solid by (reflexivity || lia). reflexivity.
  - destruct (decimal_head (Z.to_nat (Z.log2 n)) n EmptyString Hpos) as (d & r & Hd & E).
    pose proof (decimal_solid (S (Z.to_nat (Z.log2 n))) n EmptyString Hpos eq_refl) as Hs.
    rewrite E in Hs. cbn [solid] in Hs. apply andb_prop in Hs. destruct Hs as [_ Hr].
    rewrite E, parse_digits by assumption. rewrite <- E.
    rewrite decimal_value; [reflexivity|lia|].
    rewrite Nat2Z.inj_succ, Z2Nat.id; [lia|apply Z.log2_nonneg].
Qed.

(** *** [daemonize] *)

Ltac pproj := cbn [host pid forks cwd leads_group umask at_exit handled stderr
                     pid_text log_lines live heeds_sigterm trace fst snd].

Lemma fork_or_exit_run failed p :
  fork_or_exit failed p =
    match forks p with
    | [] =>
        (Ok (Some 1),
         mkProc (host p) (pid p) [] (cwd p) (leads_group p) (umask p)
           (at_exit p) (handled p) (stderr p ++ [failed OSError]))
    | ForkFails :: rest =>
        (Ok (Some 1),
         mkProc (host p) (pid p) rest (cwd p) (leads_group p) (umask p)
           (at_exit p) (handled p) (stderr p ++ [failed OSError]))
    | ForkedParent child :: rest =>
        (Ok (Some 0),
         mkProc (spawned (Z.pos child) (host p)) (pid p) rest (cwd p) (leads_group p)
           (umask p) (at_exit p) (handled p) (stderr p))
    | ForkedChild self :: rest =>
        (Ok None,
         mkProc (spawned self (host p)) self rest (cwd p) false (umask p)
           (at_exit p) (handled p) (stderr p))
    end.
Proof.
  destruct p as [h i f c l u a s e]. unfold fork_or_exit, try_except, bind, os_fork. pproj.
  destruct f as [|[|child|self] rest]; reflexivity.
Qed.

Lemma daemonize_run p :
  daemonize p =
    match forks p with
    | [] =>
        (Ok (Exits 1),
         mkProc (host p) (pid p) [] (cwd p) (leads_group p) (umask p)
           (at_exit p) (handled p) (stderr p ++ [FirstForkFailed OSError]))
    | ForkFails :: rest =>
        (Ok (Exits 1),
         mkProc (host p) (pid p) rest (cwd p) (leads_group p) (umask p)
           (at_exit p) (handled p) (stderr p ++ [FirstForkFailed OSError]))
    | ForkedParent child :: rest =>
        (Ok (Exits 0),
         mkProc (spawned (Z.pos child) (host p)) (pid p) rest (cwd p) (leads_group p)
           (umask p) (at_exit p) (handled p) (stderr p))
    | ForkedChild first :: more =>
        let h1 := spawned first (host p) in
        match more with
        | [] =>
            (Ok (Exits 1),
             mkProc h1 first [] "/" true 0 (at_exit p) (handled p)
               (stderr p ++ [SecondForkFailed OSError]))
        | ForkFails :: rest =>
            (Ok (Exits 1),
             mkProc h1 first rest "/" true 0 (at_exit p) (handled p)
               (stderr p ++ [SecondForkFailed OSError]))
        | ForkedParent child :: rest =>
            (Ok (Exits 0),
             mkProc (spawned (Z.pos child) h1) first rest "/" true 0 (at_exit p) (handled p)
               (stderr p))
        | ForkedChild second :: rest =>
            (Ok Detached,
             mkProc (mkHost (Some (str second)) (log_lines (host p))
                       (second :: first :: live (host p)) (heeds_sigterm (host p))
                       (trace (host p)))
               second rest "/" false 0 (at_exit p ++ [CleanupPidFile])
               (handled p ++ [SIGTERM; SIGINT]) (stderr p))
        end
    end.
Proof.
  destruct p as [h i f c l u a s e]. unfold daemonize.
  unfold bind at 1. rewrite fork_or_exit_run. pproj.
  destruct f as [|[|child|first] more]; try reflexivity.
  cbv beta iota zeta. do 3 hrun.
  unfold bind at 1. rewrite fork_or_exit_run. pproj.
  destruct more as [|[|child|second] rest]; try reflexivity.
  cbv beta iota.
  unfold bind, gets, on_host, write_pid_file, atexit_register, signal_signal, modify, ret,
    spawned.
  pproj. rewrite <- app_assoc. reflexivity.
Qed.

(** [daemonize] for the process that is the child of both forks: it ends
    up detached, in the root directory, with mask 0 and leading nothing
    (the session is led by its parent); the lock file holds its own id in
    decimal, which [int] reads back; the lock-file cleanup is registered for
    its exit and SIGTERM and SIGINT are handled.  Nothing is written to
    [sys.stderr]. *)
Theorem daemonize_detaches (p : Proc) (first second : Z) (rest : list Fork) :
  forks p = ForkedChild first :: ForkedChild second :: rest ->
  exists p',
    daemonize p = (Ok Detached, p') /\
    pid p' = second /\
    pid_text (host p') = Some (str second) /\
    parse_int (str second) = Some second /\
    alive (host p') second = true /\
    cwd p' = "/" /\ umask p' = 0 /\ leads_group p' = false /\
    at_exit p' = at_exit p ++ [CleanupPidFile] /\
    handled p' = handled p ++ [SIGTERM; SIGINT] /\
    stderr p' = stderr p /\ forks p' = rest /\
    log_lines (host p') = log_lines (host p) /\ trace (host p') = trace (host p).
Proof.
  intros Hf. rewrite daemonize_run, Hf. cbv zeta.
  eexists. split; [reflexivity|]. pproj.
  repeat split; try reflexivity.
  - apply int_of_str.
  - unfold alive. pproj. cbn [existsb]. rewrite Z.eqb_refl. reflexivity.
Qed.

Lemma daemonize_detaches_witness :
  exists p',
    daemonize (launched stale_host 100 [ForkedChild 4300; ForkedChild 4301] "/home") =
      (Ok Detached, p') /\
    pid_text (host p') = Some "4301" /\ parse_int "4301" = Some 4301 /\ cwd p' = "/".
Proof.
  destruct (daemonize_detaches
              (launched stale_host 100 [ForkedChild 4300; ForkedChild 4301] "/home")
              4300 4301 [] eq_refl) as (p' & E & _ & T & I & _ & C & _).
  exists p'. repeat split; auto.
Defined.

(** The processes [daemonize] does not keep.  Unless the process is the
    child of both forks, [daemonize] ends in [sys.exit]: with code 0 in a
    parent, and with code 1 and one message on [sys.stderr] where a fork
    failed.  Such a process writes no lock file, registers no exit hook and
    installs no signal handler; the log file is not touched. *)
Theorem daemonize_exits (p : Proc) :
  detaches (forks p) = false ->
  exists code p',
    daemonize p = (Ok (Exits code), p') /\
    pid_text (host p') = pid_text (host p) /\
    log_lines (host p') = log_lines (host p) /\ trace (host p') = trace (host p) /\
    at_exit p' = at_exit p /\ handled p' = handled p /\
    (code = 0 /\ stderr p' = stderr p \/
     code = 1 /\ exists msg, stderr p' = stderr p ++ [msg]).
Proof.
  intros Hd. rewrite daemonize_run.
  destruct (forks p) as [|[|child|first] [|[|child2|second] rest]]; cbv zeta;
    try discriminate Hd;
    eexists _, _; (split; [reflexivity|]); pproj;
    repeat split; eauto.
Qed.

Lemma daemonize_exits_witness :
  exists p',
    daemonize (launched stale_host 100 [ForkedParent 4300%positive] "/home") =
      (Ok (Exits 0), p') /\
    pid_text (host p') = Some "4242" /\ at_exit p' = [] /\ stderr p' = [].
Proof.
  destruct (daemonize_exits (launched stale_host 100 [ForkedParent 4300%positive] "/home")
              eq_refl) as (code & p' & E & P & _ & _ & A & _ & S).
  exists p'.
  assert (C : code = 0).
  { vm_compute in E. injection E as C _. symmetry. exact C. }
  subst code. split; [exact E|]. split; [exact P|]. split; [exact A|].
  destruct S as [[_ S]|[C _]]; [exact S|discriminate C].
Defined.

(** Once [daemonize] has returned in the detached process, the check made
    by another [start] finds it running (its id being a process id) and
    refuses, leaving the lock file alone. *)
Theorem detached_daemon_is_guarded (p p' : Proc) :
  daemonize p = (Ok Detached, p') ->
  fits_pid_t (pid p') = true ->
  exists h,
    check_existing_process (host p') = (Ok true, h) /\
    pid_text h = Some (str (pid p')).
Proof.
  rewrite daemonize_run. intros E Hfits.
  destruct (forks p) as [|[|child|first] [|[|child2|second] rest]]; cbv zeta in E;
    try discriminate E.
  injection E as <-. pproj. cbn [pid] in Hfits.
  rewrite check_existing_process_run. pproj. rewrite int_of_str, Hfits.
  unfold alive. pproj. cbn [existsb]. rewrite Z.eqb_refl. cbn [orb].
  eexists. split; reflexivity.
Qed.

Lemma detached_daemon_is_guarded_witness :
  exists p' h,
    daemonize (launched stale_host 100 [ForkedChild 4300; ForkedChild 4301] "/home") =
      (Ok Detached, p') /\
    check_existing_process (host p') = (Ok true, h).
Proof.
  assert (E : daemonize (launched stale_host 100 [ForkedChild 4300; ForkedChild 4301] "/home") =
              (Ok Detached,
               snd (daemonize
                      (launched stale_host 100 [ForkedChild 4300; ForkedChild 4301]
                         "/home"))))
    by (vm_compute; reflexivity).
  destruct (detached_daemon_is_guarded _ _ E) as (h & C & _); [vm_compute; reflexivity|].
  eexists _, h. split; [exact E|exact C].
Defined.

(** *** The exit hook *)

Lemma run_hooks_release hooks : forall p,
  hooks <> [] ->
  exists p',
    run_hooks hooks p = (Ok tt, p') /\ pid_text (host p') = None /\
    log_lines (host p') = log_lines (host p) /\ live (host p') = live (host p).
Proof.
  induction hooks as [|[] rest IH]; intros p Hne; [congruence|].
  cbn [run_hooks].
  assert (E : exists h1,
             on_host cleanup_pid_file p =
               (Ok tt, mkProc h1 (pid p) (forks p) (cwd p) (leads_group p) (umask p)
                         (at_exit p) (handled p) (stderr p)) /\
             pid_text h1 = None /\ log_lines h1 = log_lines (host p) /\
             live h1 = live (host p)).
  { unfold on_host. rewrite cleanup_pid_file_run. eexists. split; [reflexivity|].
    destruct (host p) as [[text|] ll lv hd tr]; hproj; auto. }
  destruct E as (h1 & E & P1 & L1 & V1).
  rewrite (bind_run _ _ _ _ _ E).
  destruct rest as [|hook rest].
  - eexists. split; [reflexivity|]. pproj. auto.
  - destruct (IH (mkProc h1 (pid p) (forks p) (cwd p) (leads_group p) (umask p)
                    (at_exit p) (handled p) (stderr p)) ltac:(discriminate))
      as (p' & E' & P' & L' & V').
    exists p'. split; [exact E'|]. pproj. cbn [host] in *. repeat split; congruence.
Qed.

(** The lock file does not outlive a daemon that exits normally: in the
    process in which [daemonize] returned, the hooks run at interpreter exit
    remove the lock file, so that the next [start] finds nothing running. *)
Theorem lock_released_at_exit (p p' : Proc) :
  daemonize p = (Ok Detached, p') ->
  exists p'',
    at_interpreter_exit p' = (Ok tt, p'') /\
    pid_text (host p'') = None /\
    check_existing_process (host p'') = (Ok false, host p'').
Proof.
  intros E.
  assert (Ha : at_exit p' = at_exit p ++ [CleanupPidFile]).
  { rewrite daemonize_run in E.
    destruct (forks p) as [|[|child|first] [|[|child2|second] rest]]; cbv zeta in E;
      try discriminate E.
    injection E as <-. reflexivity. }
  unfold at_interpreter_exit. hrun. rewrite Ha, rev_app_distr. cbn [rev app].
  destruct (run_hooks_release (CleanupPidFile :: rev (at_exit p)) p' ltac:(discriminate))
    as (p'' & E'' & P'' & _).
  exists p''. split; [exact E''|]. split; [exact P''|].
  rewrite check_existing_process_run, P''. reflexivity.
Qed.

Lemma lock_released_at_exit_witness :
  exists p' p'',
    daemonize (launched stale_host 100 [ForkedChild 4300; ForkedChild 4301] "/home") =
      (Ok Detached, p') /\
    at_interpreter_exit p' = (Ok tt, p'') /\
    pid_text (host p'') = None.
Proof.
  assert (E : daemonize (launched stale_host 100 [ForkedChild 4300; ForkedChild 4301] "/home") =
              (Ok Detached,
               snd (daemonize
                      (launched stale_host 100 [ForkedChild 4300; ForkedChild 4301]
                         "/home"))))
    by (vm_compute; reflexivity).
  destruct (lock_released_at_exit _ _ E) as (p'' & X & P & _).
  eexists _, p''. split; [exact E|]. split; [exact X|exact P].
Defined.
End LaunchFacts.

(** ** Facts about the command line *)

Module CliFacts.
Import Guard Launch Cli PyFacts GuardFacts GuardMore LaunchFacts.

Ltac cproj := cbn [proc keyboard screen host pid forks cwd leads_group umask at_exit
                     handled stderr pid_text log_lines live heeds_sigterm trace fst snd].



Lemma lower_char_idem c : lower_char (lower_char c) = lower_char c.
Proof. destruct c as [[] [] [] [] [] [] [] []]; reflexivity. Qed.

Lemma lower_idem s : lower (lower s) = lower s.
Proof.
  induction s as [|c r IH]; [reflexivity|].
  cbn [lower]. rewrite lower_char_idem, IH. reflexivity.
Qed.

(** The command is matched in lower case and only the first argument is
    looked at: the script does the same for any spelling of a command in
    upper and lower case, and whatever follows the command. *)
Theorem main_reads_one_word (script arg : string) (rest rest' : list string) (c : Console) :
  main script (arg :: rest) c = main script (lower arg :: rest') c.
Proof. unfold main. rewrite lower_idem. reflexivity. Qed.

(** A command the script does not know is answered with the banner, the
    command in lower case and a usage line, and exit code 1; neither the
    machine nor the process is touched and nothing is read from the
    keyboard. *)
Theorem main_unknown_command (script arg : string) (rest : list string) (c : Console) :
  known (lower arg) = false ->
  main script (arg :: rest) c =
    (Ok (Exit 1),
     mkConsole (proc c) (keyboard c)
       (screen c ++ [Said Banner; Said (UnknownCommand (lower arg)); Said (Usage script)])).
Proof.
  unfold known. cbn [existsb]. intros H.
  repeat (apply orb_false_elim in H; destruct H as [? H]).
  unfold main, show_banner. hrun.
  repeat match goal with
         | H : String.eqb (lower arg) _ = false |- _ => rewrite H; clear H
         end.
  cbn [orb]. unfold say, modify, bind, ret. cproj. repeat rewrite <- app_assoc. reflexivity.
Qed.

Lemma main_unknown_command_witness :
  main "installer.py" ["Restart"; "now"] (session (launched stale_host 100 [] "/home") []) =
    (Ok (Exit 1),
     mkConsole (launched stale_host 100 [] "/home") []
       [Said Banner; Said (UnknownCommand "restart"); Said (Usage "installer.py")]).
Proof. apply (main_unknown_command "installer.py" "Restart" ["now"]). reflexivity. Defined.

(** Without a command, and with [help], [--help] or [-h], the script only
    prints: the banner and the summary (and, without a command, how to
    start), and ends normally.  The machine and the process are untouched. *)
Theorem main_help (script : string) (c : Console) :
  main script [] c =
    (Ok EndOfScript,
     mkConsole (proc c) (keyboard c)
       (screen c ++ [Said Banner; Said (Summary script); Said (ToStart script)])) /\
  (forall arg rest,
      In (lower arg) ["help"; "--help"; "-h"] ->
      main script (arg :: rest) c =
        (Ok EndOfScript,
         mkConsole (proc c) (keyboard c)
           (screen c ++ [Said Banner; Said (Summary script)]))).
Proof.
  split.
  - unfold main, show_banner, show_summary, say, modify, bind, ret. cproj.
    repeat rewrite <- app_assoc. reflexivity.
  - intros arg rest H. unfold main, show_banner, show_summary. hrun.
    destruct H as [<-|[<-|[<-|[]]]]; cbn [String.eqb Ascii.eqb Bool.eqb orb andb];
      unfold say, modify, bind, ret; cproj; repeat rewrite <- app_assoc; reflexivity.
Qed.

Lemma main_help_witness :
  main "installer.py" ["--HELP"] (session (launched stale_host 100 [] "/home") []) =
    (Ok EndOfScript,
     mkConsole (launched stale_host 100 [] "/home") []
       [Said Banner; Said (Summary "installer.py")]).
Proof.
  apply (proj2 (main_help "installer.py" (session (launched stale_host 100 [] "/home") []))).
  right. left. reflexivity.
Defined.

(** *** The [start] command *)










End CliFacts.

(** ** Facts about the lock-file commands on a file system that refuses *)

Module FrailFacts.
Import Guard Frail PyFacts GuardFacts GuardMore.

Ltac sproj := cbn [machine denials reading_lock removing_lock reading_log
                     pid_text log_lines live heeds_sigterm trace fst snd].

Ltac leaf :=
  cbv [try_except bind Frail.print Frail.pid_file_exists Frail.read_pid_file
         Frail.remove_pid_file granted Guard.print Guard.pid_file_exists
         Guard.read_pid_file Guard.remove_pid_file emit modify gets raise ret when is_some
         machine denials reading_lock removing_lock reading_log
         pid_text log_lines live heeds_sigterm trace].

Lemma granted_run {A} (m : M Host A) s r h :
  m (machine s) = (r, h) -> granted m s = (r, mkSite h (denials s)).
Proof. intros E. unfold granted. rewrite E. reflexivity. Qed.

Lemma refusing_check_run s :
  Frail.check_existing_process s =
    let h := machine s in
    match pid_text h with
    | None => (Ok false, s)
    | Some text =>
        match reading_lock (denials s) with
        | Some _ => discarded s []
        | None =>
            match parse_int text with
            | Some pid =>
                if fits_pid_t pid then
                  if alive h pid then
                    (Ok true,
                     mkSite
                       (mkHost (pid_text h) (log_lines h) (live h) (heeds_sigterm h)
                          (trace h ++ [Kill pid 0; Print (AnotherInstanceRunning pid);
                                       Print (CheckLogFile log_file);
                                       Print (IfNotRunningRemove pid_file)]))
                       (denials s))
                  else discarded s [Kill pid 0]
                else discarded s []
            | None => discarded s []
            end
        end
    end.
Proof.
  destruct s as [[[text|] ll lv hd tr] [rl rm lg]]; [|reflexivity].
  cbv zeta. sproj. unfold discarded. sproj.
  unfold Frail.check_existing_process.
  erewrite bind_run by reflexivity. cbv beta. sproj. cbn [is_some].
  destruct rl as [e|].
  - leaf. destruct rm; sproj; [rewrite app_nil_r|]; reflexivity.
  - erewrite try_bind_run by reflexivity. cbv beta iota. sproj.
    destruct (parse_int text) as [pid|] eqn:Hp;
      erewrite try_bind_run by (rewrite int_strip, Hp; reflexivity); cbv beta iota.
    + unfold try_except at 1.
      destruct (fits_pid_t pid) eqn:Hf; [destruct (existsb (Z.eqb pid) lv) eqn:Ha|].
      * erewrite try_bind_run
          by (apply granted_run; sproj; rewrite os_kill_probe, Hf; unfold alive; hproj;
              rewrite Ha; reflexivity).
        cbv beta iota. unfold alive. hproj. rewrite Ha.
        leaf. repeat rewrite <- app_assoc. reflexivity.
      * erewrite try_bind_run
          by (apply granted_run; sproj; rewrite os_kill_probe, Hf; unfold alive; hproj;
              rewrite Ha; reflexivity).
        cbv beta iota. unfold alive. hproj. rewrite Ha.
        leaf. destruct rm; sproj; [reflexivity|].
        repeat rewrite <- app_assoc. reflexivity.
      * erewrite try_bind_run
          by (apply granted_run; sproj; rewrite os_kill_probe, Hf; reflexivity).
        cbv beta iota.
        leaf. destruct rm; sproj; [rewrite app_nil_r|]; reflexivity.
    + leaf. destruct rm; sproj; [rewrite app_nil_r|]; reflexivity.
Qed.

(** Where nothing is refused, this is [Guard.check_existing_process]. *)
Lemma check_existing_process_granted h :
  Frail.check_existing_process (open_site h) =
    granted Guard.check_existing_process (open_site h).
Proof.
  rewrite refusing_check_run.
  unfold granted, open_site, discarded. cbv zeta. sproj.
  rewrite GuardMore.check_existing_process_run.
  destruct (pid_text h) as [text|]; [|destruct h; reflexivity].
  destruct (parse_int text) as [pid|]; [|rewrite app_nil_l; reflexivity].
  destruct (fits_pid_t pid); [|rewrite app_nil_l; reflexivity].
  destruct (alive h pid); reflexivity.
Qed.

(** What [check_existing_process] can end in, whatever the lock file holds
    and whatever is refused.  It raises nothing but [OSError], and only
    when the removal of a lock file it does not trust is denied; the lock
    file is then still there.  It answers [False] only when no lock file is
    left, and [True] only for a lock file it could read, which it leaves
    alone.  The log file and the processes stay as they are, and without a
    lock file nothing is done at all. *)
Theorem check_existing_process_outcome (s : Site) :
  exists r s',
    Frail.check_existing_process s = (r, s') /\
    denials s' = denials s /\
    log_lines (machine s') = log_lines (machine s) /\
    live (machine s') = live (machine s) /\
    match r with
    | Ok true =>
        pid_text (machine s') = pid_text (machine s) /\
        pid_text (machine s) <> None /\ reading_lock (denials s) = None
    | Ok false => pid_text (machine s') = None
    | Raise e =>
        e = OSError /\ removing_lock (denials s) = true /\
        pid_text (machine s') = pid_text (machine s) /\ pid_text (machine s) <> None
    | OutOfFuel => False
    end /\
    (pid_text (machine s) = None -> r = Ok false /\ s' = s) /\
    (removing_lock (denials s) = false -> exists b, r = Ok b) /\
    (forall text e,
        pid_text (machine s) = Some text -> reading_lock (denials s) = Some e ->
        r = if removing_lock (denials s) then Raise OSError else Ok false).
Proof.
  rewrite refusing_check_run. cbv zeta. unfold discarded.
  destruct s as [[[text|] ll lv hd tr] [rl rm lg]]; sproj.
  - destruct rl as [e|]; [|destruct (parse_int text) as [pid|];
                             [destruct (fits_pid_t pid); [destruct (alive _ pid)|]|]];
      try (destruct rm); eexists _, _; (split; [reflexivity|]); sproj;
      repeat split; try discriminate; eauto; intros; discriminate.
  - eexists _, _. split; [reflexivity|]. sproj.
    repeat split; eauto; intros; discriminate.
Qed.

Lemma check_existing_process_outcome_witness :
  let denied := mkSite stale_host (mkDenials None true None) in
  let allowed := mkSite stale_host (mkDenials (Some ValueError) false None) in
  (exists s', Frail.check_existing_process denied = (Raise OSError, s') /\
              pid_text (machine s') = Some "4242") /\
  (exists s', Frail.check_existing_process allowed = (Ok false, s') /\
              pid_text (machine s') = None).
Proof.
  intros denied allowed. split.
  - destruct (check_existing_process_outcome denied)
      as (r & s' & E & _ & _ & _ & H & _).
    assert (R : r = Raise OSError).
    { vm_compute in E. injection E as <- _. reflexivity. }
    subst r. exists s'. split; [exact E|]. destruct H as (_ & _ & P & _). exact P.
  - destruct (check_existing_process_outcome allowed)
      as (r & s' & E & _ & _ & _ & H & _ & _ & R).
    specialize (R "4242" ValueError eq_refl eq_refl). cbn in R. subst r.
    exists s'. split; [exact E|exact H].
Defined.

(** *** [show_status] *)

Ltac srun := erewrite bind_run by reflexivity; cbv beta; sproj.

Lemma refusing_status_run s :
  Frail.show_status s =
    let h := machine s in
    (Ok tt,
     mkSite
       (mkHost (pid_text h) (log_lines h) (live h) (heeds_sigterm h)
          (trace h ++
           match log_lines h with
           | None => []
           | Some lines =>
               [Print (LogFileIs log_file); Print LastLinesOfLog] ++
               match reading_log (denials s) with
               | Some _ => [Print CouldNotReadLog]
               | None => map (fun line => Print (LogLine (strip line))) (last10 lines)
               end ++
               [Print (PidFileIs pid_file)] ++
               match pid_text h with
               | Some text =>
                   match reading_lock (denials s) with
                   | Some _ => [Print CouldNotReadPid]
                   | None => [Print (ProcessId (strip text))]
                   end
               | None => []
               end
           end))
       (denials s)).
Proof.
  destruct s as [[pt [lines|] lv hd tr] [rl rm lg]]; cbv zeta; sproj.
  2: { unfold Frail.show_status. srun. cbn [is_some when]. unfold ret.
       rewrite app_nil_r. reflexivity. }
  unfold Frail.show_status. srun. cbn [is_some when]. do 2 srun.
  assert (L : try_except
                (lines0 <- Frail.readlines_log_file ;; Frail.print_lines (last10 lines0))
                (fun _ => Some (Frail.print CouldNotReadLog))
                (mkSite
                   (mkHost pt (Some lines) lv hd
                      ((tr ++ [Print (LogFileIs log_file)]) ++ [Print LastLinesOfLog]))
                   (mkDenials rl rm lg)) =
              (Ok tt,
               mkSite
                 (mkHost pt (Some lines) lv hd
                    (((tr ++ [Print (LogFileIs log_file)]) ++ [Print LastLinesOfLog]) ++
                     match lg with
                     | Some _ => [Print CouldNotReadLog]
                     | None => map (fun line => Print (LogLine (strip line))) (last10 lines)
                     end))
                 (mkDenials rl rm lg))).
  { destruct lg as [e|].
    - reflexivity.
    - erewrite try_bind_run by reflexivity. cbv beta iota.
      unfold try_except, Frail.print_lines, granted. sproj.
      rewrite print_lines_run. reflexivity. }
  rewrite (bind_run _ _ _ _ _ L). cbv beta. clear L. do 2 srun.
  destruct pt as [text|]; cbn [is_some when].
  - destruct rl as [e|].
    + leaf. repeat rewrite <- app_assoc. reflexivity.
    + leaf. repeat rewrite <- app_assoc. reflexivity.
  - unfold ret. rewrite app_nil_r. repeat rewrite <- app_assoc. reflexivity.
Qed.

(** Where nothing is refused, this is [Guard.show_status]. *)
Lemma show_status_granted h :
  Frail.show_status (open_site h) = granted Guard.show_status (open_site h).
Proof.
  rewrite refusing_status_run. unfold granted, open_site. cbv zeta. sproj.
  destruct h as [pt [lines|] lv hd tr]; hproj.
  - unfold Guard.show_status. hrun. cbn [is_some when]. do 2 hrun.
    assert (L : try_except
                  (lines0 <- Guard.readlines_log_file ;; Guard.print_lines (last10 lines0))
                  (fun _ => Some (Guard.print CouldNotReadLog))
                  (mkHost pt (Some lines) lv hd
                     ((tr ++ [Print (LogFileIs log_file)]) ++ [Print LastLinesOfLog])) =
                (Ok tt,
                 mkHost pt (Some lines) lv hd
                   (((tr ++ [Print (LogFileIs log_file)]) ++ [Print LastLinesOfLog]) ++
                    map (fun line => Print (LogLine (strip line))) (last10 lines)))).
    { erewrite try_bind_run by reflexivity. cbv beta iota.
      unfold try_except. rewrite print_lines_run. reflexivity. }
    rewrite (bind_run _ _ _ _ _ L). cbv beta. clear L. do 2 hrun.
    destruct pt as [text|]; cbn [is_some when].
    + cbv [try_except bind Guard.read_pid_file Guard.print emit modify gets ret
             pid_text log_lines live heeds_sigterm trace].
      repeat rewrite <- app_assoc. reflexivity.
    + unfold ret. rewrite app_nil_r. repeat rewrite <- app_assoc. reflexivity.
  - unfold Guard.show_status. hrun. cbn [is_some when]. unfold ret.
    rewrite app_nil_r. reflexivity.
Qed.

(** [show_status] never raises and changes nothing, whatever is refused:
    it only prints.  Without a log file it prints nothing at all, not even
    the lock file.  With one, it prints the last ten lines of the log (all
    of them when there are fewer), oldest first and stripped, or that the
    log could not be read; and then, when there is a lock file, its text,
    stripped, or that it could not be read.  (The lines and the text are
    taken to be ASCII, where [strip] is [str.strip].) *)
Theorem show_status_prints (s : Site) :
  exists shown,
    Frail.show_status s =
      (Ok tt,
       mkSite
         (mkHost (pid_text (machine s)) (log_lines (machine s)) (live (machine s))
            (heeds_sigterm (machine s)) (trace (machine s) ++ map Print shown))
         (denials s)) /\
    (log_lines (machine s) = None -> shown = []) /\
    (forall lines,
        log_lines (machine s) = Some lines ->
        Forall (fun line => ascii_only line = true) lines ->
        (forall text, pid_text (machine s) = Some text -> ascii_only text = true) ->
        shown =
          [LogFileIs log_file; LastLinesOfLog] ++
          match reading_log (denials s) with
          | Some _ => [CouldNotReadLog]
          | None => map (fun line => LogLine (strip line)) (last10 lines)
          end ++
          [PidFileIs pid_file] ++
          match pid_text (machine s) with
          | Some text =>
              match reading_lock (denials s) with
              | Some _ => [CouldNotReadPid]
              | None => [ProcessId (strip text)]
              end
          | None => []
          end /\
        (List.length (last10 lines) = Nat.min 10 (List.length lines))%nat /\
        exists older, lines = older ++ last10 lines).
Proof.
  rewrite refusing_status_run. cbv zeta.
  destruct (log_lines (machine s)) as [lines|].
  - eexists ([LogFileIs log_file; LastLinesOfLog] ++
             match reading_log (denials s) with
             | Some _ => [CouldNotReadLog]
             | None => map (fun line => LogLine (strip line)) (last10 lines)
             end ++
             [PidFileIs pid_file] ++
             match pid_text (machine s) with
             | Some text =>
                 match reading_lock (denials s) with
                 | Some _ => [CouldNotReadPid]
                 | None => [ProcessId (strip text)]
                 end
             | None => []
             end).
    split; [|split].
    + destruct (reading_log (denials s)), (pid_text (machine s)) as [text|],
        (reading_lock (denials s));
        rewrite ?map_app, ?map_map; reflexivity.
    + discriminate.
    + intros lines' [= <-] _ _. split; [reflexivity|]. apply last10_suffix.
  - exists []. split; [reflexivity|]. split; [reflexivity|]. discriminate.
Qed.

Lemma show_status_prints_witness :
  exists shown s',
    Frail.show_status (mkSite stale_host (mkDenials None false (Some ValueError))) =
      (Ok tt, s') /\
    trace (machine s') = map Print shown /\
    shown = [LogFileIs log_file; LastLinesOfLog; CouldNotReadLog; PidFileIs pid_file;
             ProcessId "4242"].
Proof.
  destruct (show_status_prints (mkSite stale_host (mkDenials None false (Some ValueError))))
    as (shown & E & _ & H).
  destruct (H ["started "; "batch 1"] eq_refl) as (S & _).
  - repeat constructor.
  - intros text [= <-]. reflexivity.
  - exists shown. eexists. split; [exact E|]. split; [reflexivity|exact S].
Defined.
End FrailFacts.
